(** * The content-generation bot: conversation state machine and
      generation client of [bot.py], as a shallow embedding.

    Python values are modelled by [json] (the values the bot handles are
    strings taken from chat messages and values decoded from HTTP bodies),
    dictionaries by association lists inside [json] and by [gmap] for the
    bot's own [user_data].  Handlers run in a small monad [M] that threads
    the bot's mutable data and the remote services' pending answers,
    records every outward action as an [event], and propagates Python
    exceptions. *)

From Stdlib Require Import ZArith String List Ascii Bool Lia.
From stdpp Require Import base option gmap strings list.
Import ListNotations.

#[local] Set Warnings "-register-all".

(** ** Python values *)

Inductive json : Type :=
| JNull
| JBool (b : bool)
| JInt (n : Z)
| JFloat (mantissa exponent : Z)      (* mantissa * 10 ^ exponent *)
| JStr (s : string)
| JArr (items : list json)
| JObj (members : list (string * json)).

(** Exceptions other than a bare [Exception(msg)]. *)
Inductive builtin_error : Type :=
| KeyError (key : json)
| IndexError
| TypeError
| AttributeError
| ValueError
| JSONDecodeError
| RequestException.

(** An f-string is kept as its pieces: literal text and formatted values. *)
Inductive fpiece : Type :=
| Lit (s : string)
| FmtVal (v : json)                   (* {v} *)
| FmtInt (n : Z)                      (* {n} for an int *)
| FmtLen (v : json)                   (* {len(v)} *)
| FmtErr (e : builtin_error).         (* str(e) of a built-in exception *)

Definition fstring : Type := list fpiece.

Inductive exn : Type :=
| Exception (msg : fstring)
| Builtin (e : builtin_error).

(** [str(e)] *)
Definition str_exn (e : exn) : fstring :=
  match e with
  | Exception msg => msg
  | Builtin b => [FmtErr b]
  end.

Inductive outcome (A : Type) : Type :=
| Returns (a : A)
| Raises (e : exn).
Arguments Returns {A} a.
Arguments Raises {A} e.

(** ** Dictionary and sequence operations on values *)

Fixpoint assoc (k : string) (l : list (string * json)) : option json :=
  match l with
  | [] => None
  | (k', v) :: l' => if String.eqb k k' then Some v else assoc k l'
  end.

(** [d[k]] for a string key *)
Definition getitem (d : json) (k : string) : outcome json :=
  match d with
  | JObj o => match assoc k o with
              | Some v => Returns v
              | None => Raises (Builtin (KeyError (JStr k)))
              end
  | _ => Raises (Builtin TypeError)
  end.

(** [d.get(k, default)] *)
Definition dict_get (d : json) (k : string) (default : json) : outcome json :=
  match d with
  | JObj o => Returns (match assoc k o with Some v => v | None => default end)
  | _ => Raises (Builtin AttributeError)
  end.

(** [v[0]] *)
Definition getitem0 (v : json) : outcome json :=
  match v with
  | JArr (x :: _) => Returns x
  | JArr [] => Raises (Builtin IndexError)
  | JStr (String c _) => Returns (JStr (String c EmptyString))
  | JStr EmptyString => Raises (Builtin IndexError)
  | JObj _ => Raises (Builtin (KeyError (JInt 0)))
  | _ => Raises (Builtin TypeError)
  end.

(** Truth value of a Python object, as tested by [if v:] *)
Definition truthy (v : json) : bool :=
  match v with
  | JNull => false
  | JBool b => b
  | JInt n => negb (Z.eqb n 0)
  | JFloat m _ => negb (Z.eqb m 0)
  | JStr s => negb (String.eqb s EmptyString)
  | JArr l => match l with [] => false | _ => true end
  | JObj l => match l with [] => false | _ => true end
  end.

(** [v == s] for a string literal [s] *)
Definition eq_str (v : json) (s : string) : bool :=
  match v with
  | JStr s' => String.eqb s' s
  | _ => false
  end.

(** [v in choices] for a list of string literals *)
Definition in_strs (v : json) (choices : list string) : bool :=
  existsb (eq_str v) choices.

Definition lower_ascii (c : ascii) : ascii :=
  let n := nat_of_ascii c in
  if (Nat.leb 65 n && Nat.leb n 90)%bool then ascii_of_nat (n + 32) else c.

Fixpoint lower_string (s : string) : string :=
  match s with
  | EmptyString => EmptyString
  | String c s' => String (lower_ascii c) (lower_string s')
  end.

(** [v.lower()]: only the letters A-Z matter for the one use below, a test
    for the ASCII substring [too long]. *)
Definition lower (v : json) : outcome string :=
  match v with
  | JStr s => Returns (lower_string s)
  | _ => Raises (Builtin AttributeError)
  end.

Fixpoint is_prefix (p s : string) : bool :=
  match p, s with
  | EmptyString, _ => true
  | String a p', String b s' => (Ascii.eqb a b && is_prefix p' s')%bool
  | String _ _, EmptyString => false
  end.

(** [p in s] for strings *)
Fixpoint contains (p s : string) : bool :=
  (is_prefix p s ||
   match s with
   | EmptyString => false
   | String _ s' => contains p s'
   end)%bool.

(** ** The remote side and the bot's data *)

Record response : Type := {
  status_code : Z;
  content : string;                   (* raw body *)
  json_body : option json             (* what [.json()] decodes, if it decodes *)
}.

(** What one HTTP request meets: an answer, or an exception of [requests]. *)
Inductive http_outcome : Type :=
| Responds (r : response)
| Fails.

(** [self.leo_api_url]-relative paths, and absolute URLs. *)
Inductive endpoint : Type :=
| prompt_improve                      (* /prompt/improve *)
| init_image                          (* /init-image *)
| generations                         (* /generations *)
| generation_by_id (generation_id : json)   (* /generations/{generation_id} *)
| absolute (url : string).

Inductive event : Type :=
| reply_text (text : fstring)
| reply_photo (photo : json) (caption : fstring)
| requests_post (ep : endpoint) (payload : json)
| requests_get (ep : endpoint)
| requests_post_files (url : string) (data : json) (file : string)
| asyncio_sleep (seconds : Z)
| time_sleep (seconds : Z).

Record system : Type := {
  user_data : gmap Z (gmap string json);   (* self.user_data *)
  context_user_data : gmap Z (gmap string json);  (* context.user_data, per user *)
  remote : list http_outcome               (* answers of the requests to come *)
}.

Definition set_user_data (f : gmap Z (gmap string json) -> gmap Z (gmap string json))
    (s : system) : system :=
  {| user_data := f (user_data s);
     context_user_data := context_user_data s;
     remote := remote s |}.

Definition set_context_user_data
    (f : gmap Z (gmap string json) -> gmap Z (gmap string json))
    (s : system) : system :=
  {| user_data := user_data s;
     context_user_data := f (context_user_data s);
     remote := remote s |}.

Definition set_remote (w : list http_outcome) (s : system) : system :=
  {| user_data := user_data s;
     context_user_data := context_user_data s;
     remote := w |}.

(** ** The handler monad *)

Definition M (A : Type) : Type := system -> outcome A * system * list event.

Definition ret {A} (a : A) : M A := fun s => (Returns a, s, []).

Definition raise {A} (e : exn) : M A := fun s => (Raises e, s, []).

(** Events [evs], then what [x] did. *)
Definition after {A} (evs : list event) (x : outcome A * system * list event)
    : outcome A * system * list event :=
  (x.1.1, x.1.2, evs ++ x.2).

Definition bind {A B} (m : M A) (f : A -> M B) : M B :=
  fun s =>
    match m s with
    | (Returns a, s1, o1) => after o1 (f a s1)
    | (Raises e, s1, o1) => (Raises e, s1, o1)
    end.

(** [try: m  except Exception as e: h e] *)
Definition try_except {A} (m : M A) (h : exn -> M A) : M A :=
  fun s =>
    match m s with
    | (Returns a, s1, o1) => (Returns a, s1, o1)
    | (Raises e, s1, o1) => after o1 (h e s1)
    end.

Definition lift {A} (o : outcome A) : M A :=
  match o with
  | Returns a => ret a
  | Raises e => raise e
  end.

Definition emit (ev : event) : M unit := fun s => (Returns tt, s, [ev]).

Definition get_system : M system := fun s => (Returns s, s, []).

Definition modify (f : system -> system) : M unit := fun s => (Returns tt, f s, []).

Declare Scope monad_scope.
Delimit Scope monad_scope with monad.
Notation "x <- m ;; k" := (bind m (fun x => k))
  (at level 100, m at next level, right associativity) : monad_scope.
Notation "m ;;; k" := (bind m (fun _ => k))
  (at level 100, right associativity) : monad_scope.
Local Open Scope monad_scope.

(** One HTTP request: the event is recorded and the next pending answer is
    consumed; with no answer left the request fails like a dead network. *)
Definition request (ev : event) : M response :=
  fun s =>
    match remote s with
    | Responds r :: w => (Returns r, set_remote w s, [ev])
    | Fails :: w => (Raises (Builtin RequestException), set_remote w s, [ev])
    | [] => (Raises (Builtin RequestException), s, [ev])
    end.

(** [r.json()] *)
Definition json_of (r : response) : outcome json :=
  match json_body r with
  | Some j => Returns j
  | None => Raises (Builtin JSONDecodeError)
  end.

(** ** Message texts

    Adjacent Python string literals are one string; [lines] joins its
    arguments with the newline that ends each literal but the last. *)

Definition nl : string := String (ascii_of_nat 10) EmptyString.

Definition lines (l : list string) : string := String.concat nl l.

Definition welcome_message : string := lines [
  "👋 Welcome to the AI Content Generation Bot!"; "";
  "I'll help you create amazing meme videos for your community. Let's follow these steps:"; "";
  "1️⃣ First, tell me about your memecoin character and what kind of content you want to create";
  "2️⃣ We'll work together to create the perfect prompt";
  "3️⃣ Generate and refine images";
  "4️⃣ Create a video";
  "5️⃣ Add voice-over"; "";
  "Please describe your character and what you'd like to create!" ].

Definition too_long_text (user_text : json) : fstring := [
  Lit (lines ["📝 Your prompt is too long! Please keep it under 200 characters."; "";
              "Current length: "]);
  FmtLen user_text;
  Lit (lines [" characters"; "";
              "Please try again with a shorter description."]) ].

Definition enhance_trouble_text : string :=
  "Sorry, I had trouble enhancing your prompt. Would you like to try again?".

Definition enhance_error_text : string :=
  "Sorry, there was an error enhancing your prompt. Would you like to try again?".

Definition enhanced_choice_text (user_text enhanced_prompt : json) : fstring := [
  Lit (lines ["I've enhanced your prompt. Here's what I suggest:"; "";
              "Original: "]);
  FmtVal user_text;
  Lit (lines [""; "Enhanced: "]);
  FmtVal enhanced_prompt;
  Lit (lines [""; "";
              "Would you like to:";
              "1️⃣ Use this enhanced prompt";
              "2️⃣ Try another enhancement";
              "3️⃣ Use your original prompt";
              "Please respond with 1, 2, or 3"]) ].

Definition prompt_choice_again_text : string := lines [
  "Please respond with 1, 2, or 3:";
  "1️⃣ Use enhanced prompt";
  "2️⃣ Try another enhancement";
  "3️⃣ Use original prompt" ].

Definition reference_question_text : string := lines [
  "Do you have a reference image you'd like to use?";
  "1️⃣ Yes, I'll upload an image";
  "2️⃣ No, generate from scratch";
  "Please respond with 1 or 2" ].

Definition reference_choice_again_text : string := lines [
  "Please respond with 1 or 2:";
  "1️⃣ Yes, I'll upload an image";
  "2️⃣ No, generate from scratch" ].

Definition upload_request_text : string := "Please upload your reference image.".

Definition lost_prompt_text : string := lines [
  "Sorry, I've lost track of your prompt. Let's start over.";
  "Please provide a new prompt for your image." ].

(** The three texts of [handle_image_generation]. *)
Definition generated_caption : string := "Generated Image".

Definition three_choice_text : string := lines [
  "What would you like to do?"; "";
  "1️⃣ Use this image";
  "2️⃣ Generate new variations";
  "3️⃣ Modify the prompt"; "";
  "Please respond with a number 1-3" ].

Definition generation_error_text_spaced : string := lines [
  "Sorry, there was an error generating the images. Would you like to:"; "";
  "1️⃣ Try again";
  "2️⃣ Modify the prompt"; "";
  "Please respond with 1 or 2" ].

(** The two texts of [start_image_generation]. *)
Definition photo_caption : string := lines [
  "Here's your generated image! Would you like to:";
  "1️⃣ Try again";
  "2️⃣ Modify the prompt";
  "Please respond with 1 or 2" ].

Definition generation_error_text : string := lines [
  "Sorry, there was an error generating the images. Would you like to:";
  "1️⃣ Try again";
  "2️⃣ Modify the prompt";
  "Please respond with 1 or 2" ].

Definition iteration_again_text : string := lines [
  "Please respond with 1 or 2:";
  "1️⃣ Try again";
  "2️⃣ Modify the prompt" ].

Definition new_prompt_text : string := "Please provide a new prompt for your image.".

Definition generating_text : string := lines [
  "🎨 Generating your image...";
  "This might take a minute or two. Please wait..." ].

Definition processing_reference_text : string := lines [
  "🎨 Processing your reference image and generating new image...";
  "This might take a minute or two. Please wait..." ].

Definition cancelled_text : string := "Operation cancelled. Type /start to begin again.".

Definition timed_out_error : string := "Generation timed out or failed to complete".

Definition no_image_error : string := "Failed to get generated image".

(** ** Updates and session access *)

(** [update.message] as far as the handlers read it: the text ([None] for a
    message without text) and the file ids of the photo sizes, smallest
    first. *)
Record message : Type := {
  text : json;
  photo : list string
}.

(** An update whose [message] is set, as the callbacks read it: the id of
    [update.effective_user] and [update.message].  The updates whose
    [message] is [None] (edits of a message) are dealt with where the
    callbacks are called, in [process_update]. *)
Record update : Type := {
  effective_user_id : Z;
  update_message : message
}.

Inductive States : Type :=
| INITIAL_PROMPT
| CHOOSING_PROMPT
| REFERENCE_CHOICE
| AWAITING_REFERENCE
| GENERATING_IMAGE
| ITERATING_IMAGE.

(** The dictionary returned by the two generation methods. *)
Inductive gen_result : Type :=
| status_success (image_url : json)
| status_error (error : fstring).

(** [self.user_data[user_id]] *)
Definition session_of (user_id : Z) : M (gmap string json) :=
  s <- get_system ;;
  match user_data s !! user_id with
  | Some d => ret d
  | None => raise (Builtin (KeyError (JInt user_id)))
  end.

(** [self.user_data[user_id][key]] *)
Definition session_getitem (user_id : Z) (key : string) : M json :=
  d <- session_of user_id ;;
  match d !! key with
  | Some v => ret v
  | None => raise (Builtin (KeyError (JStr key)))
  end.

(** [self.user_data[user_id][key] = v] *)
Definition session_setitem (user_id : Z) (key : string) (v : json) : M unit :=
  d <- session_of user_id ;;
  modify (set_user_data (fun ud => <[user_id := <[key := v]> d]> ud)).

(** [self.user_data[user_id] = d] *)
Definition session_assign (user_id : Z) (d : gmap string json) : M unit :=
  modify (set_user_data (fun ud => <[user_id := d]> ud)).

(** [self.user_data.get(user_id, {})] *)
Definition session_get_or_empty (user_id : Z) : M (gmap string json) :=
  s <- get_system ;;
  ret (default ∅ (user_data s !! user_id)).

(** [d[key]] on one of the bot's own dictionaries *)
Definition dict_getitem (d : gmap string json) (key : string) : M json :=
  match d !! key with
  | Some v => ret v
  | None => raise (Builtin (KeyError (JStr key)))
  end.

(** An argument that [requests] takes as a URL: a string.  A string that
    [requests] refuses (no scheme, no host) or cannot reach makes the
    request raise an exception of [requests], the outcome [Fails]. *)
Definition as_url (v : json) : outcome string :=
  match v with
  | JStr u => Returns u
  | _ => Raises (Builtin RequestException)
  end.

(** The [data=] argument next to [files=]: a mapping of form fields, which
    is what the upload slot's [fields] decode to. *)
Definition as_form_data (v : json) : outcome json :=
  match v with
  | JObj _ => Returns v
  | _ => Raises (Builtin ValueError)
  end.

(** [message.text = v].  The objects of the chat library (python-telegram-bot
    20 and later, the versions that have [ApplicationBuilder] and [filters])
    are frozen: the assignment raises [AttributeError] and sets nothing. *)
Definition set_message_text (message_obj : message) (v : json) : M message :=
  raise (Builtin AttributeError).

(** Calling a method whose required parameter [message_obj] may be left
    out by the caller: Python raises [TypeError] before the body runs. *)
Definition call_with_message {A} (f : message -> M A) (message_obj : option message) : M A :=
  match message_obj with
  | Some m => f m
  | None => raise (Builtin TypeError)
  end.

(** ** The generation client *)

Definition max_attempts : nat := 30.
Definition poll_interval : Z := 2.

Definition scratch_payload (prompt : json) : json :=
  JObj [ ("height", JInt 512);
         ("width", JInt 1040);
         ("modelId", JStr "6b645e3a-d64f-4341-a6d8-7a3690fbf042");
         ("prompt", prompt);
         ("photoReal", JBool false);
         ("guidance_scale", JInt 8);
         ("num_images", JInt 1) ].

Definition reference_payload (prompt image_id : json) : json :=
  JObj [ ("height", JInt 512);
         ("width", JInt 1040);
         ("modelId", JStr "e71a1c2f-4f80-4800-934f-2c68979d8cc8");
         ("prompt", prompt);
         ("photoReal", JBool false);
         ("init_image_id", image_id);
         ("init_strength", JFloat 5 (-2));
         ("controlnets",
           JArr [ JObj [ ("initImageId", image_id);
                         ("initImageType", JStr "UPLOADED");
                         ("preprocessorId", JInt 67);
                         ("strengthType", JStr "Low") ] ]);
         ("guidance_scale", JInt 9);
         ("num_images", JInt 1);
         ("presetStyle", JStr "DYNAMIC") ].

(** The body of one iteration of the polling loop up to the sleep:
    [Some r] when the iteration executes [return r]. *)
Definition poll_once (results_response : response) : M (option gen_result) :=
  if Z.eqb (status_code results_response) 200 then
    generation_data <- lift (json_of results_response) ;;
    by_pk <- lift (dict_get generation_data "generations_by_pk" (JObj [])) ;;
    status <- lift (dict_get by_pk "status" JNull) ;;
    if eq_str status "COMPLETE" then
      by_pk' <- lift (dict_get generation_data "generations_by_pk" (JObj [])) ;;
      generated_images <- lift (dict_get by_pk' "generated_images" (JArr [])) ;;
      if truthy generated_images then
        first <- lift (getitem0 generated_images) ;;
        url <- lift (getitem first "url") ;;
        ret (Some (status_success url))
      else ret None
    else ret None
  else ret None.

(** [for attempt in range(attempts): ...] followed by the [return] after
    the loop. *)
Fixpoint poll_loop (generation_id : json) (attempts : nat) : M gen_result :=
  match attempts with
  | O => ret (status_error [Lit timed_out_error])
  | S n =>
      results_response <- request (requests_get (generation_by_id generation_id)) ;;
      found <- poll_once results_response ;;
      match found with
      | Some r => ret r
      | None => emit (asyncio_sleep poll_interval) ;;; poll_loop generation_id n
      end
  end.

Definition generate_image (prompt : json) (message_obj : message) : M gen_result :=
  try_except
    (emit (reply_text [Lit generating_text]) ;;;
     response <- request (requests_post generations (scratch_payload prompt)) ;;
     if negb (Z.eqb (status_code response) 200) then
       ret (status_error [Lit "Generation failed with status "; FmtInt (status_code response)])
     else
       body <- lift (json_of response) ;;
       job <- lift (getitem body "sdGenerationJob") ;;
       generation_id <- lift (getitem job "generationId") ;;
       poll_loop generation_id max_attempts)
    (fun e => ret (status_error (str_exn e))).

(** The single status check of the reference path, from the test of the
    status code to the [return] of a success: [Some r] when it executes
    [return r], [None] when it falls through to the final [return]. *)
Definition check_once (results_response : response) : M (option gen_result) :=
  if Z.eqb (status_code results_response) 200 then
    body <- lift (json_of results_response) ;;
    by_pk <- lift (dict_get body "generations_by_pk" (JObj [])) ;;
    generated_images <- lift (dict_get by_pk "generated_images" (JArr [])) ;;
    if truthy generated_images then
      first <- lift (getitem0 generated_images) ;;
      url <- lift (getitem first "url") ;;
      ret (Some (status_success url))
    else ret None
  else ret None.

Section Platform.

(** [json.loads] on a string, and [context.bot.get_file(file_id).file_path]:
    library and chat-transport functions the bot calls. *)
Variable json_loads : string -> option json.
Variable get_file_path : string -> json.

Definition loads (v : json) : outcome json :=
  match v with
  | JStr s => match json_loads s with
              | Some j => Returns j
              | None => Raises (Builtin JSONDecodeError)
              end
  | _ => Raises (Builtin TypeError)
  end.

Definition generate_image_with_reference (prompt image_url : json) (message_obj : message)
    : M gen_result :=
  try_except
    (emit (reply_text [Lit processing_reference_text]) ;;;
     (* Step 1: presigned URL *)
     upload_response <- request (requests_post init_image (JObj [("extension", JStr "jpg")])) ;;
     if negb (Z.eqb (status_code upload_response) 200) then
       raise (Exception [Lit "Failed to get presigned URL from Leonardo"])
     else
       b1 <- lift (json_of upload_response) ;;
       u1 <- lift (getitem b1 "uploadInitImage") ;;
       f1 <- lift (getitem u1 "fields") ;;
       fields <- lift (loads f1) ;;
       b2 <- lift (json_of upload_response) ;;
       u2 <- lift (getitem b2 "uploadInitImage") ;;
       url <- lift (getitem u2 "url") ;;
       b3 <- lift (json_of upload_response) ;;
       u3 <- lift (getitem b3 "uploadInitImage") ;;
       image_id <- lift (getitem u3 "id") ;;
       (* the image from Telegram *)
       src <- lift (as_url image_url) ;;
       image_response <- request (requests_get (absolute src)) ;;
       if negb (Z.eqb (status_code image_response) 200) then
         raise (Exception [Lit "Failed to download image from Telegram"])
       else
         target <- lift (as_url url) ;;
         data <- lift (as_form_data fields) ;;
         s3_response <- request (requests_post_files target data (content image_response)) ;;
         if negb (Z.eqb (status_code s3_response) 204) then
           raise (Exception [Lit "Failed to upload to S3"])
         else
           response <- request (requests_post generations (reference_payload prompt image_id)) ;;
           if negb (Z.eqb (status_code response) 200) then
             raise (Exception [Lit "Generation failed with status "; FmtInt (status_code response)])
           else
             body <- lift (json_of response) ;;
             job <- lift (getitem body "sdGenerationJob") ;;
             generation_id <- lift (getitem job "generationId") ;;
             emit (time_sleep 20) ;;;
             results_response <- request (requests_get (generation_by_id generation_id)) ;;
             found <- check_once results_response ;;
             match found with
             | Some r => ret r
             | None => ret (status_error [Lit no_image_error])
             end)
    (fun e => ret (status_error (str_exn e))).

(** ** The conversation handlers *)

Definition start (upd : update) : M States :=
  emit (reply_text [Lit welcome_message]) ;;;
  ret INITIAL_PROMPT.

Definition handle_initial_prompt (upd : update) : M States :=
  let user_text := text (update_message upd) in
  let user_id := effective_user_id upd in
  session_assign user_id {[ "original_prompt" := user_text ]} ;;;
  try_except
    (enhanced_prompt_response <-
       request (requests_post prompt_improve (JObj [("prompt", user_text)])) ;;
     if negb (Z.eqb (status_code enhanced_prompt_response) 200) then
       body <- lift (json_of enhanced_prompt_response) ;;
       error_msg <- lift (dict_get body "error" (JStr "Unknown error")) ;;
       lowered <- lift (lower error_msg) ;;
       (if contains "too long" lowered then
          emit (reply_text (too_long_text user_text))
        else
          emit (reply_text [Lit enhance_trouble_text])) ;;;
       ret INITIAL_PROMPT
     else
       body <- lift (json_of enhanced_prompt_response) ;;
       generation <- lift (getitem body "promptGeneration") ;;
       enhanced_prompt <- lift (getitem generation "prompt") ;;
       session_setitem user_id "enhanced_prompt" enhanced_prompt ;;;
       emit (reply_text (enhanced_choice_text user_text enhanced_prompt)) ;;;
       ret CHOOSING_PROMPT)
    (fun e =>
       emit (reply_text [Lit enhance_error_text]) ;;;
       ret INITIAL_PROMPT).

Definition start_image_generation (upd : update) : M States :=
  let user_id := effective_user_id upd in
  user_data <- session_get_or_empty user_id ;;
  try_except
    (result <-
       (if decide (is_Some (user_data !! "reference_image")) then
          prompt <- dict_getitem user_data "final_prompt" ;;
          reference <- dict_getitem user_data "reference_image" ;;
          image_url <- lift (getitem reference "file_path") ;;
          call_with_message (generate_image_with_reference prompt image_url)
            (Some (update_message upd))
        else
          prompt <- dict_getitem user_data "final_prompt" ;;
          call_with_message (generate_image prompt) (Some (update_message upd))) ;;
     match result with
     | status_success image_url =>
         emit (reply_photo image_url [Lit photo_caption]) ;;;
         ret ITERATING_IMAGE
     | status_error _ =>
         emit (reply_text [Lit generation_error_text]) ;;;
         ret ITERATING_IMAGE
     end)
    (fun e =>
       emit (reply_text [Lit generation_error_text]) ;;;
       ret ITERATING_IMAGE).

(** Both generation calls of this handler leave [message_obj] out. *)
Definition handle_image_generation (upd : update) : M States :=
  let user_id := effective_user_id upd in
  user_data <- session_get_or_empty user_id ;;
  try_except
    (result <-
       (if decide (is_Some (user_data !! "reference_image")) then
          (* the two values formatted into the log lines *)
          logged_reference <- dict_getitem user_data "reference_image" ;;
          logged_path <- lift (getitem logged_reference "file_path") ;;
          logged_prompt <- dict_getitem user_data "final_prompt" ;;
          prompt <- dict_getitem user_data "final_prompt" ;;
          reference <- dict_getitem user_data "reference_image" ;;
          image_url <- lift (getitem reference "file_path") ;;
          call_with_message (generate_image_with_reference prompt image_url) None
        else
          prompt <- dict_getitem user_data "final_prompt" ;;
          call_with_message (generate_image prompt) None) ;;
     match result with
     | status_success image_url =>
         session_setitem user_id "generated_images" (JArr [image_url]) ;;;
         emit (reply_photo image_url [Lit generated_caption]) ;;;
         emit (reply_text [Lit three_choice_text]) ;;;
         ret ITERATING_IMAGE
     | status_error error =>
         raise (Exception (Lit "Generation failed: " :: error))
     end)
    (fun e =>
       emit (reply_text [Lit generation_error_text_spaced]) ;;;
       ret GENERATING_IMAGE).

Definition handle_prompt_choice (upd : update) : M States :=
  let user_choice := text (update_message upd) in
  let user_id := effective_user_id upd in
  if negb (in_strs user_choice ["1"; "2"; "3"]) then
    emit (reply_text [Lit prompt_choice_again_text]) ;;;
    ret CHOOSING_PROMPT
  else if eq_str user_choice "2" then
    original_prompt <- session_getitem user_id "original_prompt" ;;
    modify (set_context_user_data (fun c =>
      <[user_id := <["original_text" := original_prompt]> (default ∅ (c !! user_id))]> c)) ;;;
    message' <- set_message_text (update_message upd) original_prompt ;;
    handle_initial_prompt
      {| effective_user_id := effective_user_id upd; update_message := message' |}
  else
    chosen_prompt <-
      (if eq_str user_choice "1" then session_getitem user_id "enhanced_prompt"
       else session_getitem user_id "original_prompt") ;;
    session_setitem user_id "final_prompt" chosen_prompt ;;;
    emit (reply_text [Lit reference_question_text]) ;;;
    ret REFERENCE_CHOICE.

Definition handle_reference_choice (upd : update) : M States :=
  let user_choice := text (update_message upd) in
  if negb (in_strs user_choice ["1"; "2"]) then
    emit (reply_text [Lit reference_choice_again_text]) ;;;
    ret REFERENCE_CHOICE
  else if eq_str user_choice "1" then
    emit (reply_text [Lit upload_request_text]) ;;;
    ret AWAITING_REFERENCE
  else
    start_image_generation upd.

(** [l[-1]] *)
Definition last_item (l : list string) : outcome string :=
  match last l with
  | Some x => Returns x
  | None => Raises (Builtin IndexError)
  end.

Definition handle_reference_image (upd : update) : M States :=
  let user_id := effective_user_id upd in
  s <- get_system ;;
  if match user_data s !! user_id with
     | None => true
     | Some d => negb (bool_decide (is_Some (d !! "final_prompt")))
     end
  then
    emit (reply_text [Lit lost_prompt_text]) ;;;
    ret INITIAL_PROMPT
  else
    file_id <- lift (last_item (photo (update_message upd))) ;;
    session_setitem user_id "reference_image"
      (JObj [("file_id", JStr file_id); ("file_path", get_file_path file_id)]) ;;;
    start_image_generation upd.

Definition handle_image_iteration (upd : update) : M States :=
  let user_choice := text (update_message upd) in
  let user_id := effective_user_id upd in
  if negb (in_strs user_choice ["1"; "2"]) then
    emit (reply_text [Lit iteration_again_text]) ;;;
    ret ITERATING_IMAGE
  else if eq_str user_choice "1" then
    start_image_generation upd
  else
    d <- session_of user_id ;;
    let original_prompt := default (JStr "") (d !! "original_prompt") in
    session_assign user_id {[ "original_prompt" := original_prompt ]} ;;;
    emit (reply_text [Lit new_prompt_text]) ;;;
    ret INITIAL_PROMPT.

(** Returns [ConversationHandler.END]. *)
Definition cancel (upd : update) : M unit :=
  emit (reply_text [Lit cancelled_text]).

(** ** The conversation handler of [main]

    [ConversationHandler] is built with its defaults ([per_chat] and
    [per_user]): a conversation belongs to a chat and a user, and its key is
    the pair of their ids.  The sessions in [self.user_data] belong to the
    user alone. *)

(** What a message is to the filters of the handlers. *)
Inductive message_content : Type :=
| Command (name : string)             (* /name *)
| TextMessage (t : string)            (* text that is not a command *)
| PhotoMessage (sizes : list string)  (* a photo, as the file ids of its sizes *)
| OtherMessage.                       (* anything else: sticker, document, ... *)

(** An update from a user in a chat: a new message, or the edit of a
    message.  The filters read [update.effective_message], which is the
    message in both; [update.message] is [None] in an edit. *)
Inductive inbound : Type :=
| Message (c : message_content)
| EditedMessage (c : message_content).

Coercion Message : message_content >-> inbound.

Definition update_of (user_id : Z) (c : message_content) : update :=
  {| effective_user_id := user_id;
     update_message :=
       match c with
       | Command name => {| text := JStr (String "/" name); photo := [] |}
       | TextMessage t => {| text := JStr t; photo := [] |}
       | PhotoMessage sizes => {| text := JNull; photo := sizes |}
       | OtherMessage => {| text := JNull; photo := [] |}
       end |}.

(** The content that the filters see. *)
Definition effective_message (m : inbound) : message_content :=
  match m with
  | Message c => c
  | EditedMessage c => c
  end.

(** The [states] table: the handler whose filter accepts the message. *)
Definition state_handler (st : States) (c : message_content) : option (update -> M States) :=
  match st, c with
  | INITIAL_PROMPT, TextMessage _ => Some handle_initial_prompt
  | CHOOSING_PROMPT, TextMessage _ => Some handle_prompt_choice
  | REFERENCE_CHOICE, TextMessage _ => Some handle_reference_choice
  | AWAITING_REFERENCE, PhotoMessage _ => Some handle_reference_image
  | GENERATING_IMAGE, (TextMessage _ | PhotoMessage _ | OtherMessage) =>
      Some start_image_generation
  | ITERATING_IMAGE, TextMessage _ => Some handle_image_iteration
  | _, _ => None
  end.

(** A callback called on the update of [m].  On an edit, [update.message] is
    [None]: every callback registered in [main] uses an attribute of
    [update.message] before it lets anything out or stores anything (the
    first statement of [start], of [cancel] and of the handlers of a choice
    and of the prompt; in [handle_reference_image] the reply of the guard
    or the read of the photo; in [start_image_generation] its replies, both
    generation methods having returned an error from their first
    statement), and that raises [AttributeError]. *)
Definition callback {A} (h : update -> M A) (user_id : Z) (m : inbound) : M A :=
  match m with
  | Message c => h (update_of user_id c)
  | EditedMessage _ => raise (Builtin AttributeError)
  end.

Record application : Type := {
  conversations : gmap (Z * Z) States;   (* by chat and user; absent: none running *)
  sys : system
}.

(** One update through the conversation handler.  A handler that raises
    leaves the conversation where it was; what it did before stays done. *)
Definition process_update (chat_id user_id : Z) (m : inbound) (a : application)
    : application * list event :=
  let key := (chat_id, user_id) in
  let run {A} (res : outcome A * system * list event)
          (next : A -> gmap (Z * Z) States) : application * list event :=
    match res with
    | (Returns x, s', out) => ({| conversations := next x; sys := s' |}, out)
    | (Raises _, s', out) => ({| conversations := conversations a; sys := s' |}, out)
    end in
  match conversations a !! key with
  | None =>
      (* entry points *)
      match effective_message m with
      | Command name =>
          if String.eqb name "start" then
            run (callback start user_id m (sys a))
                (fun st => <[key := st]> (conversations a))
          else (a, [])
      | _ => (a, [])
      end
  | Some st =>
      match state_handler st (effective_message m) with
      | Some h =>
          run (callback h user_id m (sys a))
              (fun st' => <[key := st']> (conversations a))
      | None =>
          (* fallbacks *)
          match effective_message m with
          | Command name =>
              if String.eqb name "cancel" then
                run (callback cancel user_id m (sys a))
                    (fun _ => delete key (conversations a))
              else (a, [])
          | _ => (a, [])
          end
      end
  end.

(** The remote services answer the requests of one update with [answers]. *)
Definition with_answers (answers : list http_outcome) (a : application) : application :=
  {| conversations := conversations a; sys := set_remote answers (sys a) |}.

Definition fresh : application :=
  {| conversations := ∅;
     sys := {| user_data := ∅; context_user_data := ∅; remote := [] |} |}.

(** What the bot can be brought to from a fresh start, by any users'
    messages in any chats and any answers of the remote services. *)
Inductive reachable : application -> Prop :=
| reachable_fresh : reachable fresh
| reachable_step a chat_id user_id m answers :
    reachable a ->
    reachable (fst (process_update chat_id user_id m (with_answers answers a))).

(** The same when every update, by its chat, its user and the answers it
    meets, is one that [allowed] admits. *)
Inductive reachable_when (allowed : Z -> Z -> list http_outcome -> Prop)
    : application -> Prop :=
| reachable_when_fresh : reachable_when allowed fresh
| reachable_when_step a chat_id user_id m answers :
    reachable_when allowed a ->
    allowed chat_id user_id answers ->
    reachable_when allowed (fst (process_update chat_id user_id m (with_answers answers a))).

End Platform.

(** * Vocabulary of the statements

    What the properties below are stated with: readings of the remote
    answers by the wire contract, independent of the client; shapes of
    event lists; the transitions of the conversations and the shapes of
    the sessions; and concrete data for the instances. *)

(** ** Frames *)

(** A computation that leaves [self.user_data] as it found it. *)
Definition keeps {A} (m : M A) : Prop :=
  forall s, user_data (m s).1.2 = user_data s.

(** ** What the answers of the generation service say

    These read an answer by the wire contract, independently of the
    client. *)

(** A 200 answer whose body carries the job object [by_pk]. *)
Inductive status_report : http_outcome -> list (string * json) -> Prop :=
| status_report_intro r top by_pk :
    status_code r = 200%Z ->
    json_body r = Some (JObj top) ->
    assoc "generations_by_pk" top = Some (JObj by_pk) ->
    status_report (Responds r) by_pk.

(** The job is reported [COMPLETE] with at least one image, the first of
    which has URL [u]. *)
Definition complete_with_image (a : http_outcome) (u : json) : Prop :=
  exists by_pk first more,
    status_report a by_pk /\
    assoc "status" by_pk = Some (JStr "COMPLETE") /\
    assoc "generated_images" by_pk = Some (JArr (JObj first :: more)) /\
    assoc "url" first = Some u.

(** The job is reported [COMPLETE] with an empty list of images. *)
Definition complete_without_images (a : http_outcome) : Prop :=
  exists by_pk,
    status_report a by_pk /\
    assoc "status" by_pk = Some (JStr "COMPLETE") /\
    assoc "generated_images" by_pk = Some (JArr []).

(** The answer is not a report of completion: a status code other than 200,
    a body without a job object, or a job in another status. *)
Definition not_complete (a : http_outcome) : Prop :=
  (exists r, a = Responds r /\ status_code r <> 200%Z) \/
  (exists r top, a = Responds r /\ status_code r = 200%Z /\
                 json_body r = Some (JObj top) /\
                 assoc "generations_by_pk" top = None) \/
  (exists by_pk, status_report a by_pk /\
                 assoc "status" by_pk <> Some (JStr "COMPLETE")).

(** The job has not reported completion with an image. *)
Definition still_pending (a : http_outcome) : Prop :=
  not_complete a \/ complete_without_images a.

(** [POST /generations] accepted the job and named it [gid]. *)
Definition submission_accepted (a : http_outcome) (gid : json) : Prop :=
  exists r body job,
    a = Responds r /\ status_code r = 200%Z /\
    json_body r = Some (JObj body) /\
    assoc "sdGenerationJob" body = Some (JObj job) /\
    assoc "generationId" job = Some gid.

(** [POST /prompt/improve] answered with the enhanced prompt [e]. *)
Definition refinement_succeeded (a : http_outcome) (e : json) : Prop :=
  exists r body generation,
    a = Responds r /\ status_code r = 200%Z /\
    json_body r = Some (JObj body) /\
    assoc "promptGeneration" body = Some (JObj generation) /\
    assoc "prompt" generation = Some e.

(** [POST /init-image] granted an upload slot: form fields [fields] (sent as
    a JSON string), the URL [target] to upload to, and the image id. *)
Definition upload_slot_granted (json_loads : string -> option json) (a : http_outcome)
    (fields : list (string * json)) (target : string) (image_id : json) : Prop :=
  exists r body slot f,
    a = Responds r /\ status_code r = 200%Z /\
    json_body r = Some (JObj body) /\
    assoc "uploadInitImage" body = Some (JObj slot) /\
    assoc "fields" slot = Some (JStr f) /\
    json_loads f = Some (JObj fields) /\
    assoc "url" slot = Some (JStr target) /\
    assoc "id" slot = Some image_id.

(** The answer to the single status check carries a first image with URL [u]. *)
Definition has_image (a : http_outcome) (u : json) : Prop :=
  exists by_pk first more,
    status_report a by_pk /\
    assoc "generated_images" by_pk = Some (JArr (JObj first :: more)) /\
    assoc "url" first = Some u.

(** ** Shapes of what the bot does *)

Definition poll (gid : json) : event := requests_get (generation_by_id gid).

(** [n] polls, each followed by the sleep of the loop. *)
Definition spaced_polls (gid : json) (n : nat) : list event :=
  concat (repeat [poll gid; asyncio_sleep 2] n).

Definition is_poll (ev : event) : bool :=
  match ev with
  | requests_get (generation_by_id _) => true
  | _ => false
  end.

Definition count_polls (evs : list event) : nat := length (filter is_poll evs).

(** A job submission, [POST /generations]. *)
Definition is_submission (ev : event) : Prop :=
  exists payload, ev = requests_post generations payload.

(** The last thing done in [out] is [ev]. *)
Definition ends_with (out : list event) (ev : event) : Prop :=
  exists before, out = before ++ [ev].

(** The states that wait for a numbered choice, with the choices they
    accept and the text they answer anything else with. *)
Definition choices_of (st : States) : option (list string) :=
  match st with
  | CHOOSING_PROMPT => Some ["1"; "2"; "3"]
  | REFERENCE_CHOICE => Some ["1"; "2"]
  | ITERATING_IMAGE => Some ["1"; "2"]
  | _ => None
  end.

Definition reminder_of (st : States) : string :=
  match st with
  | CHOOSING_PROMPT => prompt_choice_again_text
  | REFERENCE_CHOICE => reference_choice_again_text
  | ITERATING_IMAGE => iteration_again_text
  | _ => EmptyString
  end.

(** ** Concrete data *)

(** Stand-ins for [json.loads] and for the chat transport's file lookup. *)
Definition example_loads (s : string) : option json := Some (JObj [("key", JStr s)]).
Definition example_file_path (file_id : string) : json :=
  JStr (String.append "https://files/" file_id).

Definition answer (code : Z) (body : json) : http_outcome :=
  Responds {| status_code := code; content := EmptyString; json_body := Some body |}.

Definition bare_answer (code : Z) (raw : string) : http_outcome :=
  Responds {| status_code := code; content := raw; json_body := None |}.

Definition improve_answer (e : string) : http_outcome :=
  answer 200 (JObj [("promptGeneration", JObj [("prompt", JStr e)])]).

Definition submit_answer (gid : string) : http_outcome :=
  answer 200 (JObj [("sdGenerationJob", JObj [("generationId", JStr gid)])]).

Definition status_answer (status : string) (urls : list string) : http_outcome :=
  answer 200
    (JObj [("generations_by_pk",
            JObj [("status", JStr status);
                  ("generated_images", JArr (map (fun u => JObj [("url", JStr u)]) urls))])]).

Definition slot_answer : http_outcome :=
  answer 200
    (JObj [("uploadInitImage",
            JObj [("fields", JStr "{}");
                  ("url", JStr "https://s3/upload");
                  ("id", JStr "img-1")])]).

Definition example_message : message := {| text := JStr "2"; photo := [] |}.

Definition example_system (answers : list http_outcome) : system :=
  {| user_data := ∅; context_user_data := ∅; remote := answers |}.

(** One update in the private chat of a user, whose id is the user's. *)
Definition example_step (user_id : Z) (m : inbound) (answers : list http_outcome)
    (a : application) : application * list event :=
  process_update example_loads example_file_path user_id user_id m (with_answers answers a).

(** The scenario: start, a prompt that gets enhanced, 1, 2, and a job that
    is complete on the first poll. *)
Definition started : application :=
  (example_step 7 (Command "start") [] fresh).1.
Definition choosing : application :=
  (example_step 7 (TextMessage "a pixel-art frog astronaut")
     [improve_answer "a detailed pixel-art frog astronaut"] started).1.
Definition asked_reference : application * list event :=
  example_step 7 (TextMessage "1") [] choosing.
Definition generated : application * list event :=
  example_step 7 (TextMessage "2")
    [submit_answer "job-1"; status_answer "COMPLETE" ["http://img/1.png"]]
    asked_reference.1.

(** A conversation that waits for the photo, its session without a final
    prompt. *)
Definition lost_session : application :=
  {| conversations := {[ (7%Z, 7%Z) := AWAITING_REFERENCE ]};
     sys := {| user_data := {[ 7%Z := {[ "original_prompt" := JStr "a frog" ]} ]};
               context_user_data := ∅;
               remote := [slot_answer] |} |}.

(** ** What a run costs *)

Definition is_request (ev : event) : bool :=
  match ev with
  | requests_post _ _ | requests_get _ | requests_post_files _ _ _ => true
  | _ => false
  end.

Definition count_requests (evs : list event) : nat := length (List.filter is_request evs).

(** Seconds spent in [asyncio.sleep] and [time.sleep]. *)
Definition slept (ev : event) : Z :=
  match ev with
  | asyncio_sleep n | time_sleep n => n
  | _ => 0%Z
  end.

Definition total_sleep (evs : list event) : Z :=
  fold_right (fun ev acc => (slept ev + acc)%Z) 0%Z evs.

(** Whatever the state it starts in, [m] makes at most [r] requests and
    sleeps at most [z] seconds. *)
Definition within {A} (r z : nat) (m : M A) : Prop :=
  forall s, count_requests (m s).2 <= r /\
            (0 <= total_sleep (m s).2 <= Z.of_nat z)%Z.

(** ** The transitions of the conversation *)

(** The session that [handle_initial_prompt] leaves: the prompt, and the
    enhanced prompt when there is one. *)
Definition prompt_session (v : json) (enhanced : option json) : gmap string json :=
  match enhanced with
  | Some e => <["enhanced_prompt" := e]> {[ "original_prompt" := v ]}
  | None => {[ "original_prompt" := v ]}
  end.

Definition after_refinement (enhanced : option json) : States :=
  match enhanced with
  | Some _ => CHOOSING_PROMPT
  | None => INITIAL_PROMPT
  end.

(** What a handler registered for state [st], run for [user_id] on the
    sessions [ud], can return and leave as sessions. *)
Inductive transition (user_id : Z) (ud : gmap Z (gmap string json)) :
    States -> outcome States -> gmap Z (gmap string json) -> Prop :=
| handler_raised st e :
    transition user_id ud st (Raises e) ud
| prompt_sent v enhanced :
    transition user_id ud INITIAL_PROMPT
      (Returns (after_refinement enhanced))
      (<[user_id := prompt_session v enhanced]> ud)
| prompt_chosen d v :
    ud !! user_id = Some d ->
    d !! "enhanced_prompt" = Some v \/ d !! "original_prompt" = Some v ->
    transition user_id ud CHOOSING_PROMPT
      (Returns REFERENCE_CHOICE)
      (<[user_id := <["final_prompt" := v]> d]> ud)
| choice_invalid st :
    st = CHOOSING_PROMPT \/ st = REFERENCE_CHOICE \/ st = ITERATING_IMAGE ->
    transition user_id ud st (Returns st) ud
| upload_announced :
    transition user_id ud REFERENCE_CHOICE (Returns AWAITING_REFERENCE) ud
| generation_run st :
    st = REFERENCE_CHOICE \/ st = GENERATING_IMAGE \/ st = ITERATING_IMAGE ->
    transition user_id ud st (Returns ITERATING_IMAGE) ud
| prompt_lost :
    (ud !! user_id = None \/
     exists d, ud !! user_id = Some d /\ d !! "final_prompt" = None) ->
    transition user_id ud AWAITING_REFERENCE (Returns INITIAL_PROMPT) ud
| reference_stored d file_id path :
    ud !! user_id = Some d ->
    is_Some (d !! "final_prompt") ->
    transition user_id ud AWAITING_REFERENCE
      (Returns ITERATING_IMAGE)
      (<[user_id := <["reference_image" :=
                        JObj [("file_id", JStr file_id); ("file_path", path)]]> d]> ud)
| prompt_reset d :
    ud !! user_id = Some d ->
    transition user_id ud ITERATING_IMAGE
      (Returns INITIAL_PROMPT)
      (<[user_id := {[ "original_prompt" := default (JStr "") (d !! "original_prompt") ]}]> ud).

(** One update of [user_id] in [chat_id], seen from outside: ignored, a
    start, a cancellation, or a transition of the handler of the state of
    that conversation. *)
Inductive app_step (chat_id user_id : Z) (a a' : application) : Prop :=
| step_ignored :
    a' = a -> app_step chat_id user_id a a'
| step_started :
    conversations a !! (chat_id, user_id) = None ->
    conversations a' = <[(chat_id, user_id) := INITIAL_PROMPT]> (conversations a) ->
    user_data (sys a') = user_data (sys a) ->
    app_step chat_id user_id a a'
| step_cancelled :
    conversations a' = delete (chat_id, user_id) (conversations a) ->
    user_data (sys a') = user_data (sys a) ->
    app_step chat_id user_id a a'
| step_handled st r :
    conversations a !! (chat_id, user_id) = Some st ->
    transition user_id (user_data (sys a)) st r (user_data (sys a')) ->
    conversations a' =
      match r with
      | Returns st' => <[(chat_id, user_id) := st']> (conversations a)
      | Raises _ => conversations a
      end ->
    app_step chat_id user_id a a'.

(** The states that the return statements of the handler registered for
    [st] name, [st] itself apart. *)
Definition successors (st : States) : list States :=
  match st with
  | INITIAL_PROMPT => [CHOOSING_PROMPT]
  | CHOOSING_PROMPT => [INITIAL_PROMPT; REFERENCE_CHOICE]
  | REFERENCE_CHOICE => [AWAITING_REFERENCE; ITERATING_IMAGE]
  | AWAITING_REFERENCE => [INITIAL_PROMPT; ITERATING_IMAGE]
  | GENERATING_IMAGE => [ITERATING_IMAGE]
  | ITERATING_IMAGE => [INITIAL_PROMPT]
  end.

(** ** The shape of the sessions *)

Definition session_keys : list string :=
  ["original_prompt"; "enhanced_prompt"; "final_prompt"; "reference_image"].

(** What every stored session looks like. *)
Record well_formed (d : gmap string json) : Prop := {
  wf_original : is_Some (d !! "original_prompt");
  wf_keys : forall k, is_Some (d !! k) -> In k session_keys;
  wf_final : forall v, d !! "final_prompt" = Some v ->
               d !! "enhanced_prompt" = Some v \/ d !! "original_prompt" = Some v;
  wf_reference : is_Some (d !! "reference_image") -> is_Some (d !! "final_prompt")
}.

(** What holds of every conversation and every session, whatever the chats
    the users write in: the sessions are well formed, no conversation is in
    [GENERATING_IMAGE], and past [INITIAL_PROMPT] the user has a session. *)
Definition shaped (a : application) : Prop :=
  (forall user_id d, user_data (sys a) !! user_id = Some d -> well_formed d) /\
  (forall chat_id user_id st,
     conversations a !! (chat_id, user_id) = Some st ->
     st <> GENERATING_IMAGE /\
     (st <> INITIAL_PROMPT -> is_Some (user_data (sys a) !! user_id))).

(** What the session of a user looks like in each state of the
    conversation, for a user who writes in one chat. *)
Definition state_shape (st : States) (o : option (gmap string json)) : Prop :=
  match st with
  | INITIAL_PROMPT => True
  | CHOOSING_PROMPT =>
      exists d, o = Some d /\ is_Some (d !! "enhanced_prompt") /\
                d !! "final_prompt" = None /\ d !! "reference_image" = None
  | REFERENCE_CHOICE | AWAITING_REFERENCE =>
      exists d, o = Some d /\ is_Some (d !! "final_prompt") /\
                d !! "reference_image" = None
  | GENERATING_IMAGE => False
  | ITERATING_IMAGE =>
      exists d, o = Some d /\ is_Some (d !! "final_prompt")
  end.

(** The conversation of [user_id] in the chat [home] and the user's
    session fit. *)
Definition settled (home user_id : Z) (a : application) : Prop :=
  forall st, conversations a !! (home, user_id) = Some st ->
             state_shape st (user_data (sys a) !! user_id).

(** Every update of [user_id] comes from the chat [home]: the user talks to
    the bot in one chat, as in the private chat, whose id is the user's. *)
Definition one_chat (home user_id : Z) : Z -> Z -> list http_outcome -> Prop :=
  fun chat_id sender _ => sender = user_id -> chat_id = home.

(** A string. *)
Definition is_text (v : json) : Prop := exists p, v = JStr p.

(** An answer that, where it carries an enhanced prompt, carries a string. *)
Definition text_prompt (a : http_outcome) : Prop :=
  forall e, refinement_succeeded a e -> is_text e.

(** One chat for [user_id], and a prompt service that answers with
    strings. *)
Definition one_chat_and_text (home user_id : Z) : Z -> Z -> list http_outcome -> Prop :=
  fun chat_id sender answers =>
    one_chat home user_id chat_id sender answers /\ Forall text_prompt answers.

(** The prompts of a session are strings. *)
Definition text_prompts (d : gmap string json) : Prop :=
  forall k v, In k ["original_prompt"; "enhanced_prompt"; "final_prompt"] ->
              d !! k = Some v -> is_text v.

(** The prompts of every session are strings. *)
Definition all_text (a : application) : Prop :=
  forall user_id d, user_data (sys a) !! user_id = Some d -> text_prompts d.

(** How [start_image_generation] reports the result of a generation. *)
Definition report (r : gen_result) : event :=
  match r with
  | status_success image_url => reply_photo image_url [Lit photo_caption]
  | status_error _ => reply_text [Lit generation_error_text]
  end.

(** The request that [handle_initial_prompt] makes for a prompt. *)
Definition improve_request (prompt : json) : event :=
  requests_post prompt_improve (JObj [("prompt", prompt)]).

(** The texts [handle_initial_prompt] can answer with. *)
Definition refinement_reply (prompt : json) (enhanced : option json) (t : fstring) : Prop :=
  match enhanced with
  | Some e => t = enhanced_choice_text prompt e
  | None => t = too_long_text prompt \/ t = [Lit enhance_trouble_text] \/
            t = [Lit enhance_error_text]
  end.



(** ** Startup: [ContentGenerationBot.__init__] and [main]

    The environment is the process environment after [load_dotenv], as a
    map from names to values.  [ValueError] stands for the [ValueError]
    that [__init__] raises with its message. *)

Record bot : Type := {
  bot_user_data : gmap Z (gmap string json);
  leo_api_key : string;
  leo_api_url : string;
  leo_headers : list (string * string)
}.

(** [os.getenv(name)] *)
Definition getenv (env : gmap string string) (name : string) : option string :=
  env !! name.

(** [not v] for what [os.getenv] returns: [None] or the empty string. *)
Definition not_set (v : option string) : bool :=
  match v with
  | None => true
  | Some s => String.eqb s EmptyString
  end.

Definition init (env : gmap string string) : outcome bot :=
  let key := getenv env "LEO_API_KEY" in
  if not_set key then Raises (Builtin ValueError)
  else
    let k := default EmptyString key in
    Returns {| bot_user_data := ∅;
               leo_api_key := k;
               leo_api_url := "https://cloud.leonardo.ai/api/rest/v1";
               leo_headers := [("accept", "application/json");
                               ("content-type", "application/json");
                               ("authorization", String.append "Bearer " k)] |}.

(** How [main] ends: it returns at once, or it runs the polling of an
    application built with the token around the bot's handlers. *)
Inductive launch : Type :=
| returned
| run_polling (b : bot) (token : string).

Definition main (env : gmap string string) : outcome launch :=
  match init env with
  | Raises e => Raises e
  | Returns b =>
      let token := getenv env "TELEGRAM_TOKEN" in
      if not_set token then Returns returned
      else Returns (run_polling b (default EmptyString token))
  end.

(** ** More concrete data *)

(** The scenario again, the user now answering 1 to the question about the
    reference image. *)
Definition awaiting : application * list event :=
  example_step 7 (TextMessage "1") [] asked_reference.1.

Definition example_update (t : string) : update := update_of 7 (TextMessage t).

(** A session as [handle_initial_prompt] leaves it after an enhancement. *)
Definition chosen_session : gmap string json :=
  <["enhanced_prompt" := JStr "a detailed frog"]> {[ "original_prompt" := JStr "a frog" ]}.

Definition system_with (d : gmap string json) (answers : list http_outcome) : system :=
  {| user_data := {[ 7%Z := d ]}; context_user_data := ∅; remote := answers |}.

Definition refusal (msg : string) : response :=
  {| status_code := 400; content := EmptyString;
     json_body := Some (JObj [("error", JStr msg)]) |}.

Definition example_env : gmap string string :=
  <["LEO_API_KEY" := "key-1"]> (<["TELEGRAM_TOKEN" := "token-1"]> ∅).

(** The session of user 7 at the end of the scenario. *)
Definition generated_session : gmap string json :=
  <["final_prompt" := JStr "a detailed pixel-art frog astronaut"]>
    (<["enhanced_prompt" := JStr "a detailed pixel-art frog astronaut"]>
       {[ "original_prompt" := JStr "a pixel-art frog astronaut" ]}).

(** The user of the scenario, in [REFERENCE_CHOICE] in the private chat,
    starts a second conversation in the chat 100 and sends a prompt there
    while the prompt service is down. *)
Definition second_chat : application :=
  (process_update example_loads example_file_path 100 7 (TextMessage "a cat")
     (with_answers [Fails]
        (process_update example_loads example_file_path 100 7 (Command "start")
           (with_answers [] asked_reference.1)).1)).1.

(** A prompt service that answers [null] for the enhanced prompt, and the
    user who chooses it. *)
Definition null_answer : http_outcome :=
  answer 200 (JObj [("promptGeneration", JObj [("prompt", JNull)])]).

Definition null_chosen : application :=
  (example_step 7 (TextMessage "1") []
     (example_step 7 (TextMessage "a frog") [null_answer] started).1).1.

(** * Properties *)

(** ** Reasoning about [M] *)

Lemma after_nil {A} (x : outcome A * system * list event) : after [] x = x.
Proof. destruct x as [[r s] o]. reflexivity. Qed.

Lemma after_after {A} o1 o2 (x : outcome A * system * list event) :
  after o1 (after o2 x) = after (o1 ++ o2) x.
Proof. unfold after. simpl. rewrite app_assoc. reflexivity. Qed.

Lemma bind_returns {A B} (m : M A) (f : A -> M B) s a s1 o1 :
  m s = (Returns a, s1, o1) -> bind m f s = after o1 (f a s1).
Proof. intros H. unfold bind. rewrite H. reflexivity. Qed.

Lemma bind_raises {A B} (m : M A) (f : A -> M B) s e s1 o1 :
  m s = (Raises e, s1, o1) -> bind m f s = (Raises e, s1, o1).
Proof. intros H. unfold bind. rewrite H. reflexivity. Qed.

Lemma keeps_ret {A} (a : A) : keeps (ret a).
Proof. intros s; reflexivity. Qed.

Lemma keeps_raise {A} (e : exn) : keeps (@raise A e).
Proof. intros s; reflexivity. Qed.

Lemma keeps_lift {A} (o : outcome A) : keeps (lift o).
Proof. destruct o; intros s; reflexivity. Qed.

Lemma keeps_emit ev : keeps (emit ev).
Proof. intros s; reflexivity. Qed.

Lemma keeps_get_system : keeps get_system.
Proof. intros s; reflexivity. Qed.

Lemma keeps_request ev : keeps (request ev).
Proof.
  intros s. unfold request.
  destruct (remote s) as [|[r|] w]; reflexivity.
Qed.

Lemma keeps_bind {A B} (m : M A) (f : A -> M B) :
  keeps m -> (forall a, keeps (f a)) -> keeps (bind m f).
Proof.
  intros Hm Hf s. unfold bind.
  specialize (Hm s).
  destruct (m s) as [[[a|e] s1] o1]; simpl in *; [|assumption].
  rewrite (Hf a s1). assumption.
Qed.

Lemma keeps_try_except {A} (m : M A) (h : exn -> M A) :
  keeps m -> (forall e, keeps (h e)) -> keeps (try_except m h).
Proof.
  intros Hm Hh s. unfold try_except.
  specialize (Hm s).
  destruct (m s) as [[[a|e] s1] o1]; simpl in *; [assumption|].
  rewrite (Hh e s1). assumption.
Qed.

Lemma keeps_call_with_message {A} (f : message -> M A) o :
  (forall m, keeps (f m)) -> keeps (call_with_message f o).
Proof. intros Hf. destruct o; simpl; [apply Hf | apply keeps_raise]. Qed.

Lemma keeps_dict_getitem d key : keeps (dict_getitem d key).
Proof. unfold dict_getitem. destruct (d !! key); [apply keeps_ret | apply keeps_raise]. Qed.

Create HintDb keeps_db.
#[export] Hint Resolve keeps_ret keeps_raise keeps_lift keeps_emit keeps_get_system
  keeps_request keeps_dict_getitem : keeps_db.

(** Walks through a computation built from the combinators above. *)
Ltac keeps_tac :=
  repeat first
    [ progress intros
    | solve [auto with keeps_db]
    | match goal with
      | |- keeps (bind _ _) => apply keeps_bind
      | |- keeps (try_except _ _) => apply keeps_try_except
      | |- keeps (call_with_message _ _) => apply keeps_call_with_message
      | |- keeps (if ?b then _ else _) => destruct b
      | |- keeps (match ?x with _ => _ end) => destruct x
      end ].

Lemma keeps_poll_once r : keeps (poll_once r).
Proof. unfold poll_once. keeps_tac. Qed.

Lemma keeps_check_once r : keeps (check_once r).
Proof. unfold check_once. keeps_tac. Qed.

#[export] Hint Resolve keeps_poll_once keeps_check_once : keeps_db.

Lemma keeps_poll_loop gid n : keeps (poll_loop gid n).
Proof.
  induction n as [|n IH]; cbn [poll_loop]; keeps_tac.
Qed.

#[export] Hint Resolve keeps_poll_loop : keeps_db.

Lemma keeps_generate_image prompt msg : keeps (generate_image prompt msg).
Proof. unfold generate_image. keeps_tac. Qed.

Lemma keeps_generate_image_with_reference jl prompt image_url msg :
  keeps (generate_image_with_reference jl prompt image_url msg).
Proof. unfold generate_image_with_reference. keeps_tac. Qed.

#[export] Hint Resolve keeps_generate_image keeps_generate_image_with_reference : keeps_db.

(** ** The polling loop *)

Lemma eq_str_complete v :
  eq_str v "COMPLETE" = true <-> v = JStr "COMPLETE".
Proof.
  destruct v; simpl; try (split; [discriminate|discriminate]).
  rewrite String.eqb_eq. split; congruence.
Qed.

Lemma poll_once_pending r s :
  still_pending (Responds r) -> poll_once r s = (Returns None, s, []).
Proof.
  unfold poll_once.
  intros [[(r' & Hr & Hne) | [(r' & top & Hr & H200 & Hb & Hn) | (by_pk & Hrep & Hst)]]
         | (by_pk & Hrep & Hst & Himg)].
  - injection Hr as <-. apply Z.eqb_neq in Hne. rewrite Hne. reflexivity.
  - injection Hr as <-. rewrite H200. unfold bind, json_of. rewrite Hb.
    simpl. rewrite Hn. reflexivity.
  - inversion Hrep as [r0 top by_pk0 H200 Hb Hpk]; subst.
    rewrite H200. unfold bind, json_of. rewrite Hb. simpl. rewrite Hpk. simpl.
    destruct (eq_str _ "COMPLETE") eqn:E; [|reflexivity].
    apply eq_str_complete in E. destruct (assoc "status" by_pk) as [v|]; simpl in E;
      congruence.
  - inversion Hrep as [r0 top by_pk0 H200 Hb Hpk]; subst.
    rewrite H200. unfold bind, json_of. rewrite Hb. simpl. rewrite Hpk.
    repeat (simpl; rewrite ?Hst, ?Himg). reflexivity.
Qed.

Lemma poll_once_complete r u s :
  complete_with_image (Responds r) u ->
  poll_once r s = (Returns (Some (status_success u)), s, []).
Proof.
  intros (by_pk & first & more & Hrep & Hst & Himg & Hurl).
  inversion Hrep as [r0 top by_pk0 H200 Hb Hpk]; subst.
  unfold poll_once. rewrite H200. unfold bind, json_of. rewrite Hb. simpl.
  rewrite Hpk. repeat (simpl; rewrite ?Hst, ?Himg, ?Hurl). reflexivity.
Qed.

Lemma still_pending_responds a :
  still_pending a -> exists r, a = Responds r.
Proof.
  intros [[(r & -> & _) | [(r & top & -> & _) | (by_pk & Hrep & _)]] | (by_pk & Hrep & _)];
    try (eexists; reflexivity); inversion Hrep; eexists; reflexivity.
Qed.

(** A pending answer costs one attempt: the poll, the sleep, and on with
    the rest. *)
Lemma poll_loop_pending gid n s a rest :
  remote s = a :: rest -> still_pending a ->
  poll_loop gid (S n) s =
    after [poll gid; asyncio_sleep 2] (poll_loop gid n (set_remote rest s)).
Proof.
  intros Hs Hp. destruct (still_pending_responds a Hp) as [r ->].
  cbn [poll_loop].
  erewrite bind_returns; [|unfold request; rewrite Hs; reflexivity].
  erewrite bind_returns; [|apply (poll_once_pending r _ Hp)].
  reflexivity.
Qed.

Lemma poll_loop_pendings gid polls : forall n s rest,
  Forall still_pending polls -> remote s = polls ++ rest ->
  poll_loop gid (length polls + n) s =
    after (spaced_polls gid (length polls)) (poll_loop gid n (set_remote rest s)).
Proof.
  induction polls as [|a polls IH]; intros n s rest Hall Hs.
  - destruct s as [ud cud w]; simpl in *; subst.
    symmetry. apply after_nil.
  - inversion Hall as [|? ? Ha Hrest]; subst.
    change (length (a :: polls) + n) with (S (length polls + n)).
    rewrite (poll_loop_pending gid _ s a (polls ++ rest) Hs Ha).
    rewrite (IH n (set_remote (polls ++ rest) s) rest Hrest eq_refl).
    rewrite after_after. reflexivity.
Qed.

Lemma poll_loop_complete gid n s a u rest :
  remote s = a :: rest -> complete_with_image a u ->
  poll_loop gid (S n) s = (Returns (status_success u), set_remote rest s, [poll gid]).
Proof.
  intros Hs Hc.
  assert (exists r, a = Responds r) as [r ->].
  { destruct Hc as (? & ? & ? & Hrep & _). inversion Hrep. eexists; reflexivity. }
  cbn [poll_loop].
  erewrite bind_returns; [|unfold request; rewrite Hs; reflexivity].
  erewrite bind_returns; [|apply (poll_once_complete r u _ Hc)].
  reflexivity.
Qed.

Lemma count_polls_app l1 l2 : count_polls (l1 ++ l2) = count_polls l1 + count_polls l2.
Proof. unfold count_polls. rewrite filter_app, length_app. reflexivity. Qed.

Lemma count_polls_spaced gid n : count_polls (spaced_polls gid n) = n.
Proof.
  induction n as [|n IH]; [reflexivity|].
  unfold spaced_polls in *. simpl repeat. simpl concat.
  change (count_polls (poll gid :: asyncio_sleep 2 :: concat (repeat [poll gid; asyncio_sleep 2] n)))
    with (S (count_polls (concat (repeat [poll gid; asyncio_sleep 2] n)))).
  rewrite IH. reflexivity.
Qed.

(** Up to the polling loop, [generate_image] announces itself and submits. *)
Lemma generate_image_submitted prompt msg s submit gid rest :
  remote s = submit :: rest -> submission_accepted submit gid ->
  generate_image prompt msg s =
    try_except
      (fun s0 => after [reply_text [Lit generating_text];
                        requests_post generations (scratch_payload prompt)]
                   (poll_loop gid max_attempts (set_remote rest s0)))
      (fun e => ret (status_error (str_exn e))) s.
Proof.
  intros Hs (r & body & job & -> & H200 & Hb & Hjob & Hid).
  unfold generate_image. generalize max_attempts; intros n.
  unfold try_except.
  match goal with
  | |- match ?m s with _ => _ end = _ =>
      assert (m s = after [reply_text [Lit generating_text];
                           requests_post generations (scratch_payload prompt)]
                      (poll_loop gid n (set_remote rest s))) as ->
  end; [|reflexivity].
  erewrite bind_returns; [|reflexivity].
  erewrite bind_returns; [|unfold request; rewrite Hs; reflexivity].
  rewrite H200. change (negb (200 =? 200)%Z) with false. cbv iota.
  erewrite bind_returns; [|unfold json_of; rewrite Hb; reflexivity].
  erewrite bind_returns; [|cbn [getitem]; rewrite Hjob; reflexivity].
  erewrite bind_returns; [|cbn [getitem]; rewrite Hid; reflexivity].
  rewrite !after_nil, after_after. reflexivity.
Qed.

Lemma try_except_returns {A} (m : M A) h s a s1 o1 :
  m s = (Returns a, s1, o1) -> try_except m h s = (Returns a, s1, o1).
Proof. intros H. unfold try_except. rewrite H. reflexivity. Qed.

(** [generate_image] after [polls] pending answers: the loop has used up
    that many attempts and goes on with the others. *)
Lemma generate_image_pendings prompt msg s submit gid polls rest n :
  submission_accepted submit gid ->
  Forall still_pending polls ->
  length polls + n = max_attempts ->
  remote s = submit :: polls ++ rest ->
  generate_image prompt msg s =
    try_except
      (fun s0 => after ([reply_text [Lit generating_text];
                         requests_post generations (scratch_payload prompt)]
                        ++ spaced_polls gid (length polls))
                   (poll_loop gid n (set_remote rest s0)))
      (fun e => ret (status_error (str_exn e))) s.
Proof.
  intros Hsub Hall Hn Hs.
  rewrite (generate_image_submitted prompt msg s submit gid (polls ++ rest) Hs Hsub).
  unfold try_except. rewrite <- Hn.
  rewrite (poll_loop_pendings gid polls n (set_remote (polls ++ rest) s) rest Hall eq_refl).
  rewrite after_after. reflexivity.
Qed.

(** ** The claims about [generate_image] *)

(** C2.  When the job is first reported [COMPLETE] with an image on poll
    [k], for [k] from 1 to 30, [generate_image] returns that first image's
    URL after exactly [k] polls, a 2-second sleep between one poll and the
    next; when 30 polls go by without such a report, it returns the
    timed-out error after exactly 30 polls, each followed by its sleep. *)
Theorem generate_image_polling prompt msg s submit gid answers :
  submission_accepted submit gid ->
  remote s = submit :: answers ->
  (forall k polls last u rest,
     1 <= k <= 30 -> length polls = k - 1 ->
     Forall still_pending polls -> complete_with_image last u ->
     answers = polls ++ last :: rest ->
     let evs := [reply_text [Lit generating_text];
                 requests_post generations (scratch_payload prompt)]
                ++ spaced_polls gid (k - 1) ++ [poll gid] in
     generate_image prompt msg s = (Returns (status_success u), set_remote rest s, evs)
     /\ count_polls evs = k) /\
  (forall polls rest,
     length polls = 30 -> Forall still_pending polls ->
     answers = polls ++ rest ->
     let evs := [reply_text [Lit generating_text];
                 requests_post generations (scratch_payload prompt)]
                ++ spaced_polls gid 30 in
     generate_image prompt msg s =
       (Returns (status_error [Lit timed_out_error]), set_remote rest s, evs)
     /\ count_polls evs = 30).
Proof.
  intros Hsub Hs. split.
  - intros k polls last u rest Hk Hlen Hall Hc -> evs. split.
    + rewrite (generate_image_pendings prompt msg s submit gid polls (last :: rest)
                 (S (30 - k)) Hsub Hall); [|unfold max_attempts; lia|assumption].
      apply try_except_returns.
      rewrite (poll_loop_complete gid _ (set_remote (last :: rest) s) last u rest eq_refl Hc).
      unfold after, evs. cbn [fst snd]. rewrite Hlen, <- app_assoc. reflexivity.
    + unfold evs. rewrite !count_polls_app, count_polls_spaced.
      change (count_polls [poll gid]) with 1.
      change (count_polls [_; _]) with 0. lia.
  - intros polls rest Hlen Hall -> evs. split.
    + rewrite (generate_image_pendings prompt msg s submit gid polls rest 0 Hsub Hall);
        [|unfold max_attempts; lia|assumption].
      apply try_except_returns.
      unfold after, evs. cbn [poll_loop ret fst snd]. rewrite Hlen, app_nil_r. reflexivity.
    + unfold evs. rewrite count_polls_app, count_polls_spaced. reflexivity.
Qed.

(** C3, as amended.  A poll that reports the job [COMPLETE] with no image
    does not end [generate_image]: the sleep and the remaining attempts
    follow it; the timed-out error is returned when the polls after it, up
    to the 30th, bring no image either. *)
Theorem zero_images_poll_continues prompt msg s submit gid before zero rest :
  submission_accepted submit gid ->
  Forall still_pending before ->
  complete_without_images zero ->
  length before < 30 ->
  remote s = submit :: before ++ zero :: rest ->
  generate_image prompt msg s =
    try_except
      (fun s0 => after ([reply_text [Lit generating_text];
                         requests_post generations (scratch_payload prompt)]
                        ++ spaced_polls gid (length before)
                        ++ [poll gid; asyncio_sleep 2])
                   (poll_loop gid (29 - length before) (set_remote rest s0)))
      (fun e => ret (status_error (str_exn e))) s
  /\ (forall later rest',
        rest = later ++ rest' ->
        Forall still_pending later ->
        length before + 1 + length later = 30 ->
        generate_image prompt msg s =
          (Returns (status_error [Lit timed_out_error]), set_remote rest' s,
           [reply_text [Lit generating_text];
            requests_post generations (scratch_payload prompt)]
           ++ spaced_polls gid 30)).
Proof.
  intros Hsub Hall Hz Hlen Hs. split.
  - rewrite (generate_image_pendings prompt msg s submit gid before (zero :: rest)
               (S (29 - length before)) Hsub Hall); [|unfold max_attempts; lia|assumption].
    unfold try_except.
    rewrite (poll_loop_pending gid _ (set_remote (zero :: rest) s) zero rest eq_refl
               (or_intror Hz)).
    rewrite after_after, <- app_assoc. reflexivity.
  - intros later rest' -> Hlater Hcount.
    assert (Hpolls : Forall still_pending (before ++ zero :: later)).
    { apply Forall_app. split; [exact Hall|].
      apply List.Forall_cons; [right; exact Hz|exact Hlater]. }
    assert (Hlen' : length (before ++ zero :: later) = 30).
    { rewrite length_app. cbn [length]. lia. }
    rewrite (generate_image_pendings prompt msg s submit gid (before ++ zero :: later)
               rest' 0 Hsub Hpolls).
    + apply try_except_returns.
      unfold after. cbn [poll_loop ret fst snd]. rewrite Hlen', app_nil_r. reflexivity.
    + unfold max_attempts. lia.
    + rewrite Hs, <- app_assoc. reflexivity.
Qed.

(** ** The claims about [generate_image_with_reference] *)

(** Runs a computation on explicit data, using the equations in the context
    for the lookups it cannot decide. *)
Ltac mrun :=
  repeat (cbn [bind try_except ret raise lift emit modify get_system after fst snd List.app
               request call_with_message json_of getitem dict_get getitem0 loads
               as_url as_form_data truthy
               user_data context_user_data remote set_remote set_user_data
               set_context_user_data status_code content json_body
               text photo effective_user_id update_message negb Z.eqb Pos.eqb];
          repeat match goal with
                 | H : assoc _ _ = _ |- _ => rewrite H
                 | H : Z.eqb _ _ = _ |- _ => rewrite H
                 | H : ?f _ = Some _ |- context [?f _] => rewrite H
                 end).

(** C4.  When the direct upload of the reference image is answered with a
    status other than 204, [generate_image_with_reference] returns the
    upload-failure error; the upload is the last request it makes, so the
    job is never submitted. *)
Theorem upload_failure_stops jl prompt src msg s init fetch upload rest
    fields target image_id :
  upload_slot_granted jl init fields target image_id ->
  status_code fetch = 200%Z ->
  status_code upload <> 204%Z ->
  remote s = init :: Responds fetch :: Responds upload :: rest ->
  let evs := [reply_text [Lit processing_reference_text];
              requests_post init_image (JObj [("extension", JStr "jpg")]);
              requests_get (absolute src);
              requests_post_files target (JObj fields) (content fetch)] in
  generate_image_with_reference jl prompt (JStr src) msg s =
    (Returns (status_error [Lit "Failed to upload to S3"]), set_remote rest s, evs)
  /\ Forall (fun ev => ~ is_submission ev) evs.
Proof.
  intros (r & body & slot & f & -> & H200 & Hb & Hslot & Hf & Hl & Hurl & Hid)
         Hfetch Hup Hs evs.
  split.
  - destruct s as [ud cud w], r as [c1 t1 b1], fetch as [c2 t2 b2], upload as [c3 t3 b3].
    cbn [remote status_code json_body content] in *. subst.
    apply Z.eqb_neq in Hup.
    unfold generate_image_with_reference. mrun. reflexivity.
  - unfold evs, is_submission.
    repeat constructor; intros [p Hp]; discriminate.
Qed.

Lemma has_image_unique a u u' : has_image a u -> has_image a u' -> u = u'.
Proof.
  intros (p1 & f1 & m1 & H1 & Hi1 & Hu1) (p2 & f2 & m2 & H2 & Hi2 & Hu2).
  inversion H1 as [r top by_pk H200 Hb Hpk]; subst.
  inversion H2 as [r' top' by_pk' H200' Hb' Hpk']; subst.
  congruence.
Qed.

Lemma check_once_image r u s :
  has_image (Responds r) u ->
  check_once r s = (Returns (Some (status_success u)), s, []).
Proof.
  intros (by_pk & first & more & Hrep & Himg & Hurl).
  inversion Hrep as [r0 top by_pk0 H200 Hb Hpk]; subst.
  destruct r as [c t b]. cbn [status_code json_body] in *. subst.
  unfold check_once. mrun. reflexivity.
Qed.

(** Refutes [has_image] for an answer of a known, unfit shape. *)
Ltac no_image :=
  let Hrep := fresh "Hrep" in
  let Hi := fresh "Hi" in
  let Hu := fresh "Hu" in
  intros ? (? & ? & ? & Hrep & Hi & Hu);
  inversion Hrep; subst; cbn [status_code json_body] in *;
  congruence.

(** Either the answer carries an image, or the check returns nothing or
    raises; in no case does it change the system. *)
Lemma check_once_cases r s :
  (exists u, has_image (Responds r) u) \/
  ((forall u, ~ has_image (Responds r) u) /\
   (check_once r s = (Returns None, s, []) \/
    exists e, check_once r s = (Raises e, s, []))).
Proof.
  destruct r as [c t b]. unfold check_once. cbn [status_code].
  destruct (Z.eqb_spec c 200) as [->|Hc]; [|right; split; [no_image|left; reflexivity]].
  destruct b as [body|]; [|right; split; [no_image|right; eexists; reflexivity]].
  destruct body as [ | | | | | |top];
    try (right; split; [no_image|right; eexists; reflexivity]).
  mrun. destruct (assoc "generations_by_pk" top) as [by_pk|] eqn:Hpk;
    [|right; split; [no_image|left; reflexivity]].
  destruct by_pk as [ | | | | | |by_pk];
    try (right; split; [no_image|right; eexists; reflexivity]).
  mrun. destruct (assoc "generated_images" by_pk) as [imgs|] eqn:Himg;
    [|right; split; [no_image|left; reflexivity]].
  destruct imgs as [ |[]|n|m e|[|ch str]|[|first more]|[|kv o]];
    try (right; split; [no_image|left; reflexivity]);
    try (right; split; [no_image|right; eexists; reflexivity]).
  - right; split; [no_image|]. cbn [truthy negb Z.eqb].
    destruct n; try (left; reflexivity); right; eexists; reflexivity.
  - right; split; [no_image|]. cbn [truthy negb Z.eqb].
    destruct m; try (left; reflexivity); right; eexists; reflexivity.
  - mrun. destruct first as [ | | | | | |first];
      try (right; split; [no_image|right; eexists; reflexivity]).
    mrun. destruct (assoc "url" first) as [u|] eqn:Hu;
      [|right; split; [no_image|right; eexists; reflexivity]].
    left. exists u, by_pk, first, more.
    split; [|split]; [econstructor; eauto| |]; assumption.
Qed.

(** C5.  After the job is submitted, [generate_image_with_reference] sleeps
    20 seconds once and checks the status once, its last request: it returns
    the first image's URL exactly when that answer is a 200 with a non-empty
    list of images, and an error in every other case. *)
Theorem reference_single_check jl prompt src msg s init fetch upload submit check rest
    fields target image_id gid :
  upload_slot_granted jl init fields target image_id ->
  status_code fetch = 200%Z ->
  status_code upload = 204%Z ->
  submission_accepted submit gid ->
  remote s = init :: Responds fetch :: Responds upload :: submit :: check :: rest ->
  exists result,
    generate_image_with_reference jl prompt (JStr src) msg s =
      (Returns result, set_remote rest s,
       [reply_text [Lit processing_reference_text];
        requests_post init_image (JObj [("extension", JStr "jpg")]);
        requests_get (absolute src);
        requests_post_files target (JObj fields) (content fetch);
        requests_post generations (reference_payload prompt image_id);
        time_sleep 20;
        poll gid])
    /\ (forall u, has_image check u <-> result = status_success u)
    /\ ((forall u, ~ has_image check u) -> exists e, result = status_error e).
Proof.
  intros (r & body & slot & f & -> & H200 & Hb & Hslot & Hf & Hl & Hurl & Hid)
         Hfetch Hup (r4 & body4 & job & -> & H200' & Hb' & Hjob & Hgid) Hs.
  destruct s as [ud cud w], r as [c1 t1 b1], fetch as [c2 t2 b2], upload as [c3 t3 b3],
    r4 as [c4 t4 b4].
  cbn [remote status_code json_body content] in *. subst.
  unfold generate_image_with_reference.
  destruct check as [r5|].
  - mrun.
    match goal with
    | |- context [bind (check_once r5) _ ?st] =>
        destruct (check_once_cases r5 st) as [[u Hu]|[Hno [E|[e E]]]]
    end.
    + erewrite bind_returns; [|apply (check_once_image r5 u _ Hu)]. mrun.
      exists (status_success u). split; [reflexivity|]. split.
      * intros u'. split.
        -- intros Hu'. rewrite (has_image_unique _ _ _ Hu Hu'). reflexivity.
        -- injection 1 as <-. assumption.
      * intros Hnone. destruct (Hnone u Hu).
    + erewrite bind_returns; [|exact E]. mrun.
      exists (status_error [Lit no_image_error]). split; [reflexivity|]. split.
      * intros u; split; [intros Hu; destruct (Hno u Hu)|discriminate].
      * intros _. eexists; reflexivity.
    + erewrite bind_raises; [|exact E]. mrun.
      exists (status_error (str_exn e)). split; [reflexivity|]. split.
      * intros u; split; [intros Hu; destruct (Hno u Hu)|discriminate].
      * intros _. eexists; reflexivity.
  - mrun. exists (status_error [FmtErr RequestException]).
    split; [reflexivity|]. split.
    + intros u; split; [|discriminate].
      intros (? & ? & ? & Hrep & _). inversion Hrep.
    + intros _. eexists; reflexivity.
Qed.

(** ** Session access, run *)

Lemma session_of_some user_id s d :
  user_data s !! user_id = Some d ->
  session_of user_id s = (Returns d, s, []).
Proof. intros H. unfold session_of, bind, get_system. rewrite H. reflexivity. Qed.

Lemma session_of_none user_id s :
  user_data s !! user_id = None ->
  session_of user_id s = (Raises (Builtin (KeyError (JInt user_id))), s, []).
Proof. intros H. unfold session_of, bind, get_system. rewrite H. reflexivity. Qed.

Lemma session_getitem_some user_id key s d v :
  user_data s !! user_id = Some d -> d !! key = Some v ->
  session_getitem user_id key s = (Returns v, s, []).
Proof.
  intros H Hk. unfold session_getitem.
  rewrite (bind_returns _ _ _ _ _ _ (session_of_some _ _ _ H)).
  rewrite Hk. reflexivity.
Qed.

Lemma session_setitem_some user_id key v s d :
  user_data s !! user_id = Some d ->
  session_setitem user_id key v s =
    (Returns tt, set_user_data (fun ud => <[user_id := <[key := v]> d]> ud) s, []).
Proof.
  intros H. unfold session_setitem.
  rewrite (bind_returns _ _ _ _ _ _ (session_of_some _ _ _ H)). reflexivity.
Qed.

Lemma session_setitem_none user_id key v s :
  user_data s !! user_id = None ->
  session_setitem user_id key v s =
    (Raises (Builtin (KeyError (JInt user_id))), s, []).
Proof.
  intros H. unfold session_setitem.
  rewrite (bind_raises _ _ _ _ _ _ (session_of_none _ _ H)). reflexivity.
Qed.

(** ** The two generation handlers *)

(** [try: x = X; k x  except: h] around a call [X] that keeps the
    sessions: the three ways it can go. *)
Lemma try_bind_cases {A B} (X : M A) (k : A -> M B) (h : exn -> M B) s :
  keeps X ->
  exists r s1 o1,
    X s = (r, s1, o1) /\ user_data s1 = user_data s /\
    try_except (bind X k) h s =
      match r with
      | Returns a =>
          match k a s1 with
          | (Returns b, s2, o2) => (Returns b, s2, o1 ++ o2)
          | (Raises e, s2, o2) => after (o1 ++ o2) (h e s2)
          end
      | Raises e => after o1 (h e s1)
      end.
Proof.
  intros HX. pose proof (HX s) as Hk.
  destruct (X s) as [[r s1] o1] eqn:EX. cbn [fst snd] in Hk.
  exists r, s1, o1. split; [reflexivity|]. split; [assumption|].
  unfold try_except, bind. rewrite EX.
  destruct r as [a|e]; [|reflexivity].
  destruct (k a s1) as [[[b|e] s2] o2]; reflexivity.
Qed.

(** [start_image_generation] always ends in [ITERATING_IMAGE], with the
    sessions as they were, on a photo with the two-choice caption or on the
    two-choice error text. *)
Lemma start_image_generation_spec jl upd s :
  exists s' out,
    start_image_generation jl upd s = (Returns ITERATING_IMAGE, s', out) /\
    user_data s' = user_data s /\
    ((exists url, ends_with out (reply_photo url [Lit photo_caption])) \/
     ends_with out (reply_text [Lit generation_error_text])).
Proof.
  unfold start_image_generation, session_get_or_empty.
  rewrite (bind_returns _ _ s (default ∅ (user_data s !! effective_user_id upd)) s []);
    [|reflexivity].
  rewrite after_nil.
  match goal with
  | |- context [try_except (bind ?X ?k) ?h s] =>
      assert (HX : keeps X) by keeps_tac;
      destruct (try_bind_cases X k h s HX) as (r & s1 & o1 & EX & Hud & ->)
  end.
  destruct r as [[url|err]|e]; mrun.
  - exists s1, (o1 ++ [reply_photo url [Lit photo_caption]]).
    split; [reflexivity|]. split; [assumption|]. left. exists url, o1. reflexivity.
  - exists s1, (o1 ++ [reply_text [Lit generation_error_text]]).
    split; [reflexivity|]. split; [assumption|]. right. exists o1. reflexivity.
  - exists s1, (o1 ++ [reply_text [Lit generation_error_text]]).
    split; [reflexivity|]. split; [assumption|]. right. exists o1. reflexivity.
Qed.

(** [handle_image_generation] ends in [GENERATING_IMAGE] on its own error
    text with the sessions as they were, or in [ITERATING_IMAGE] having
    stored the image and sent it before the three-choice text. *)
Lemma handle_image_generation_spec jl upd s :
  exists s' out,
    (handle_image_generation jl upd s = (Returns GENERATING_IMAGE, s', out) /\
     user_data s' = user_data s /\
     ends_with out (reply_text [Lit generation_error_text_spaced])) \/
    (handle_image_generation jl upd s = (Returns ITERATING_IMAGE, s', out) /\
     exists url d,
       user_data s !! effective_user_id upd = Some d /\
       user_data s' =
         <[effective_user_id upd := <["generated_images" := JArr [url]]> d]> (user_data s) /\
       exists before,
         out = before ++ [reply_photo url [Lit generated_caption];
                          reply_text [Lit three_choice_text]]).
Proof.
  unfold handle_image_generation, session_get_or_empty.
  rewrite (bind_returns _ _ s (default ∅ (user_data s !! effective_user_id upd)) s []);
    [|reflexivity].
  rewrite after_nil.
  match goal with
  | |- context [try_except (bind ?X ?k) ?h s] =>
      assert (HX : keeps X) by keeps_tac;
      destruct (try_bind_cases X k h s HX) as (r & s1 & o1 & EX & Hud & ->)
  end.
  destruct r as [[url|err]|e]; mrun.
  - destruct (user_data s1 !! effective_user_id upd) as [d|] eqn:Hd.
    + rewrite (bind_returns _ _ _ _ _ _ (session_setitem_some _ _ _ _ _ Hd)). mrun.
      exists (set_user_data
                (fun ud => <[effective_user_id upd := <["generated_images" := JArr [url]]> d]> ud)
                s1),
             (o1 ++ [reply_photo url [Lit generated_caption];
                     reply_text [Lit three_choice_text]]).
      right. split; [reflexivity|].
      exists url, d. rewrite <- Hud. split; [assumption|]. split; [reflexivity|].
      exists o1. reflexivity.
    + rewrite (bind_raises _ _ _ _ _ _ (session_setitem_none _ _ _ _ Hd)). mrun.
      exists s1, ((o1 ++ []) ++ [reply_text [Lit generation_error_text_spaced]]).
      left. split; [reflexivity|]. split; [assumption|]. eexists; reflexivity.
  - exists s1, ((o1 ++ []) ++ [reply_text [Lit generation_error_text_spaced]]).
    left. split; [reflexivity|]. split; [assumption|]. eexists; reflexivity.
  - exists s1, (o1 ++ [reply_text [Lit generation_error_text_spaced]]).
    left. split; [reflexivity|]. split; [assumption|]. eexists; reflexivity.
Qed.

(** ** The prompt handlers *)

(** [handle_initial_prompt] never raises.  It leaves the user with a fresh
    session holding the text, and goes on to [CHOOSING_PROMPT] only after
    storing an enhanced prompt next to it. *)
Lemma handle_initial_prompt_spec upd s :
  exists st s' out,
    handle_initial_prompt upd s = (Returns st, s', out) /\
    ((st = INITIAL_PROMPT /\
      user_data s' =
        <[effective_user_id upd := {[ "original_prompt" := text (update_message upd) ]}]>
          (user_data s)) \/
     (st = CHOOSING_PROMPT /\
      exists enhanced,
        user_data s' =
          <[effective_user_id upd :=
              <["enhanced_prompt" := enhanced]>
                {[ "original_prompt" := text (update_message upd) ]}]>
            (user_data s))).
Proof.
  destruct upd as [uid [txt ph]], s as [ud cud w].
  unfold handle_initial_prompt, session_assign. mrun.
  destruct w as [|[[c t b]|] w];
    try (mrun; eexists _, _, _; split; [reflexivity|left; split; reflexivity]).
  destruct (Z.eqb c 200) eqn:Hc; mrun.
  - (* 200: the enhanced prompt is read and stored *)
    destruct b as [[ | | | | | |body]|];
      try (mrun; eexists _, _, _; split; [reflexivity|left; split; reflexivity]).
    mrun. destruct (assoc "promptGeneration" body) as [[ | | | | | |generation]|];
      try (mrun; eexists _, _, _; split; [reflexivity|left; split; reflexivity]).
    mrun. destruct (assoc "prompt" generation) as [enhanced|];
      try (mrun; eexists _, _, _; split; [reflexivity|left; split; reflexivity]).
    mrun.
    erewrite (bind_returns (session_setitem uid "enhanced_prompt" enhanced));
      [|apply session_setitem_some; apply lookup_insert_eq].
    mrun. eexists _, _, _. split; [reflexivity|]. right. split; [reflexivity|].
    exists enhanced. cbn [user_data set_user_data]. apply insert_insert_eq.
  - (* any other status: one of the two apologies *)
    destruct b as [[ | | | | | |body]|];
      try (mrun; eexists _, _, _; split; [reflexivity|left; split; reflexivity]).
    mrun.
    destruct (match assoc "error" body with Some v => v | None => JStr "Unknown error" end)
      as [ | | | |msg| | ];
      try (cbn [lower]; mrun; eexists _, _, _; split; [reflexivity|left; split; reflexivity]).
    cbn [lower]. mrun.
    destruct (contains "too long" (lower_string msg));
      mrun; eexists _, _, _; (split; [reflexivity|left; split; reflexivity]).
Qed.

(** ** Invalid choices *)

Lemma handle_prompt_choice_invalid upd s :
  in_strs (text (update_message upd)) ["1"; "2"; "3"] = false ->
  handle_prompt_choice upd s =
    (Returns CHOOSING_PROMPT, s, [reply_text [Lit prompt_choice_again_text]]).
Proof. intros H. unfold handle_prompt_choice. rewrite H. reflexivity. Qed.

Lemma handle_reference_choice_invalid jl upd s :
  in_strs (text (update_message upd)) ["1"; "2"] = false ->
  handle_reference_choice jl upd s =
    (Returns REFERENCE_CHOICE, s, [reply_text [Lit reference_choice_again_text]]).
Proof. intros H. unfold handle_reference_choice. rewrite H. reflexivity. Qed.

Lemma handle_image_iteration_invalid jl upd s :
  in_strs (text (update_message upd)) ["1"; "2"] = false ->
  handle_image_iteration jl upd s =
    (Returns ITERATING_IMAGE, s, [reply_text [Lit iteration_again_text]]).
Proof. intros H. unfold handle_image_iteration. rewrite H. reflexivity. Qed.

Lemma in_strs_false t choices :
  ~ In t choices -> in_strs (JStr t) choices = false.
Proof.
  intros Hn. unfold in_strs. apply not_true_is_false. intros H.
  apply existsb_exists in H as (c & Hc & Heq).
  cbn [eq_str] in Heq. apply String.eqb_eq in Heq. subst. contradiction.
Qed.

(** C7, as amended.  In a state that waits for a choice, a text outside the
    choices changes nothing, neither the state nor any session, and is
    answered with that state's reminder, one fixed text per state. *)
Theorem invalid_choice_stays jl gf a chat_id user_id st choices t :
  conversations a !! (chat_id, user_id) = Some st ->
  choices_of st = Some choices ->
  ~ In t choices ->
  process_update jl gf chat_id user_id (TextMessage t) a =
    (a, [reply_text [Lit (reminder_of st)]]).
Proof.
  intros Hst Hch Hn. unfold process_update. cbv zeta. rewrite Hst.
  pose proof (in_strs_false t choices Hn) as Hf.
  destruct a as [conv s]. cbn [conversations sys effective_message callback] in *.
  destruct st; try discriminate; injection Hch as <-; cbn [state_handler reminder_of].
  - rewrite handle_prompt_choice_invalid by exact Hf.
    rewrite (insert_id conv (chat_id, user_id) _ Hst). reflexivity.
  - rewrite handle_reference_choice_invalid by exact Hf.
    rewrite (insert_id conv (chat_id, user_id) _ Hst). reflexivity.
  - rewrite handle_image_iteration_invalid by exact Hf.
    rewrite (insert_id conv (chat_id, user_id) _ Hst). reflexivity.
Qed.

(** ** A photo without a prompt *)

(** C9.  A photo that arrives in [AWAITING_REFERENCE] for a user whose
    session is absent or has no final prompt is answered with the apology
    alone: nothing is stored, no request is made, and the conversation goes
    back to [INITIAL_PROMPT] without an exception. *)
Theorem photo_without_prompt_restarts jl gf a chat_id user_id sizes :
  conversations a !! (chat_id, user_id) = Some AWAITING_REFERENCE ->
  (user_data (sys a) !! user_id = None \/
   exists d, user_data (sys a) !! user_id = Some d /\ d !! "final_prompt" = None) ->
  handle_reference_image jl gf (update_of user_id (PhotoMessage sizes)) (sys a) =
    (Returns INITIAL_PROMPT, sys a, [reply_text [Lit lost_prompt_text]]) /\
  process_update jl gf chat_id user_id (PhotoMessage sizes) a =
    ({| conversations := <[(chat_id, user_id) := INITIAL_PROMPT]> (conversations a);
        sys := sys a |},
     [reply_text [Lit lost_prompt_text]]).
Proof.
  intros Hst Hmiss.
  assert (Hh : handle_reference_image jl gf (update_of user_id (PhotoMessage sizes)) (sys a) =
               (Returns INITIAL_PROMPT, sys a, [reply_text [Lit lost_prompt_text]])).
  { unfold handle_reference_image, update_of. cbn [effective_user_id].
    unfold bind at 1. cbn [get_system].
    destruct Hmiss as [Hn | (d & Hd & Hf)].
    - rewrite Hn. reflexivity.
    - rewrite Hd, Hf. reflexivity. }
  split; [exact Hh|].
  unfold process_update. cbv zeta. rewrite Hst.
  cbn [state_handler effective_message callback]. rewrite Hh. reflexivity.
Qed.

(** ** The claims about the conversation *)

Lemma handle_image_iteration_modify jl upd s d :
  text (update_message upd) = JStr "2" ->
  user_data s !! effective_user_id upd = Some d ->
  handle_image_iteration jl upd s =
    (Returns INITIAL_PROMPT,
     set_user_data
       (fun ud => <[effective_user_id upd :=
                      {[ "original_prompt" := default (JStr "") (d !! "original_prompt") ]}]> ud)
       s,
     [reply_text [Lit new_prompt_text]]).
Proof.
  intros Ht Hd. unfold handle_image_iteration. rewrite Ht.
  cbn [in_strs existsb eq_str String.eqb Ascii.eqb Bool.eqb orb negb].
  rewrite (bind_returns _ _ _ _ _ _ (session_of_some _ _ _ Hd)). reflexivity.
Qed.

(** ** The two generation handlers compared *)

Lemma error_texts_differ : generation_error_text <> generation_error_text_spaced.
Proof. apply String.eqb_neq. vm_compute. reflexivity. Qed.

(** C10, as amended.  The two handlers are not interchangeable.
    [start_image_generation] always ends in [ITERATING_IMAGE] with every
    session as it was, its last message the photo under the two-choice
    caption or the two-choice error text.  [handle_image_generation] either
    ends in [GENERATING_IMAGE] on its own error text with every session as
    it was, or ends in [ITERATING_IMAGE] having stored the image under
    [generated_images] and sent the photo and then the three-choice text. *)
Theorem generation_handlers_compared jl upd s :
  (exists s' out,
     start_image_generation jl upd s = (Returns ITERATING_IMAGE, s', out) /\
     user_data s' = user_data s /\
     ((exists url, ends_with out (reply_photo url [Lit photo_caption])) \/
      ends_with out (reply_text [Lit generation_error_text]))) /\
  (exists s' out,
     (handle_image_generation jl upd s = (Returns GENERATING_IMAGE, s', out) /\
      user_data s' = user_data s /\
      ends_with out (reply_text [Lit generation_error_text_spaced])) \/
     (handle_image_generation jl upd s = (Returns ITERATING_IMAGE, s', out) /\
      exists url d,
        user_data s !! effective_user_id upd = Some d /\
        user_data s' =
          <[effective_user_id upd := <["generated_images" := JArr [url]]> d]> (user_data s) /\
        exists before,
          out = before ++ [reply_photo url [Lit generated_caption];
                           reply_text [Lit three_choice_text]])) /\
  generation_error_text <> generation_error_text_spaced.
Proof.
  split; [apply start_image_generation_spec|].
  split; [apply handle_image_generation_spec|apply error_texts_differ].
Qed.

(** ** The scenario without a reference image *)

Lemma handle_initial_prompt_enhanced upd s improve e rest :
  refinement_succeeded improve e ->
  remote s = improve :: rest ->
  handle_initial_prompt upd s =
    (Returns CHOOSING_PROMPT,
     set_remote rest
       (set_user_data
          (fun ud => <[effective_user_id upd :=
                         <["enhanced_prompt" := e]>
                           {[ "original_prompt" := text (update_message upd) ]}]> ud) s),
     [requests_post prompt_improve (JObj [("prompt", text (update_message upd))]);
      reply_text (enhanced_choice_text (text (update_message upd)) e)]).
Proof.
  intros (r & body & generation & -> & H200 & Hb & Hg & Hp) Hs.
  destruct upd as [uid [txt ph]], s as [ud cud w], r as [c t b].
  cbn [remote status_code json_body] in *. subst.
  unfold handle_initial_prompt, session_assign. mrun.
  erewrite (bind_returns (session_setitem uid "enhanced_prompt" e));
    [|apply session_setitem_some; apply lookup_insert_eq].
  mrun. unfold set_remote, set_user_data. cbn [user_data context_user_data remote].
  rewrite insert_insert_eq. reflexivity.
Qed.

Lemma handle_prompt_choice_enhanced upd s d e :
  text (update_message upd) = JStr "1" ->
  user_data s !! effective_user_id upd = Some d ->
  d !! "enhanced_prompt" = Some e ->
  handle_prompt_choice upd s =
    (Returns REFERENCE_CHOICE,
     set_user_data (fun ud => <[effective_user_id upd := <["final_prompt" := e]> d]> ud) s,
     [reply_text [Lit reference_question_text]]).
Proof.
  intros Ht Hd He. unfold handle_prompt_choice. rewrite Ht.
  cbn [in_strs existsb eq_str String.eqb Ascii.eqb Bool.eqb orb negb].
  rewrite (bind_returns _ _ _ _ _ _ (session_getitem_some _ _ _ _ _ Hd He)), after_nil.
  rewrite (bind_returns _ _ _ _ _ _ (session_setitem_some _ _ _ _ _ Hd)), after_nil.
  reflexivity.
Qed.

(** Generation from scratch that completes on the first poll. *)
Lemma start_image_generation_first_poll jl upd s d prompt submit gid first u rest :
  user_data s !! effective_user_id upd = Some d ->
  d !! "reference_image" = None ->
  d !! "final_prompt" = Some prompt ->
  submission_accepted submit gid ->
  complete_with_image first u ->
  remote s = submit :: first :: rest ->
  start_image_generation jl upd s =
    (Returns ITERATING_IMAGE, set_remote rest s,
     [reply_text [Lit generating_text];
      requests_post generations (scratch_payload prompt);
      poll gid;
      reply_photo u [Lit photo_caption]]).
Proof.
  intros Hd Hr Hf Hsub Hc Hs.
  unfold start_image_generation, session_get_or_empty.
  rewrite (bind_returns _ _ s (default ∅ (user_data s !! effective_user_id upd)) s [])
    by reflexivity.
  rewrite after_nil, Hd. cbn [default from_option id]. rewrite Hr.
  destruct (decide (is_Some (@None json))) as [[? Hx]|_]; [discriminate|].
  unfold dict_getitem. rewrite Hf.
  assert (Hgen : generate_image prompt (update_message upd) s =
                 (Returns (status_success u), set_remote rest s,
                  [reply_text [Lit generating_text];
                   requests_post generations (scratch_payload prompt);
                   poll gid])).
  { rewrite (generate_image_pendings prompt _ s submit gid [] (first :: rest)
               max_attempts Hsub (List.Forall_nil _) eq_refl Hs).
    apply try_except_returns. unfold max_attempts.
    rewrite (poll_loop_complete gid _ (set_remote (first :: rest) s) first u rest eq_refl Hc).
    reflexivity. }
  unfold try_except.
  rewrite (bind_returns _ _ s (status_success u) (set_remote rest s)
             [reply_text [Lit generating_text];
              requests_post generations (scratch_payload prompt);
              poll gid]).
  - reflexivity.
  - rewrite (bind_returns _ _ s prompt s []) by reflexivity.
    rewrite after_nil. exact Hgen.
Qed.

(** C8, as amended.  A user starts, sends a prompt that the service
    enhances, answers 1 and then 2, and the job is complete on the first
    poll: the last answer of the bot is the notice that it is generating,
    then the image as a photo whose caption asks the two-choice question;
    the conversation is in [ITERATING_IMAGE]. *)
Theorem scratch_scenario jl gf chat_id user_id p improve e submit gid first u :
  refinement_succeeded improve e ->
  submission_accepted submit gid ->
  complete_with_image first u ->
  let a1 := (process_update jl gf chat_id user_id (Command "start") fresh).1 in
  let a2 := (process_update jl gf chat_id user_id (TextMessage p) (with_answers [improve] a1)).1 in
  let a3 := (process_update jl gf chat_id user_id (TextMessage "1") a2).1 in
  let last := process_update jl gf chat_id user_id (TextMessage "2")
                (with_answers [submit; first] a3) in
  conversations a2 !! (chat_id, user_id) = Some CHOOSING_PROMPT /\
  conversations a3 !! (chat_id, user_id) = Some REFERENCE_CHOICE /\
  last.2 = [reply_text [Lit generating_text];
            requests_post generations (scratch_payload e);
            poll gid;
            reply_photo u [Lit photo_caption]] /\
  conversations last.1 !! (chat_id, user_id) = Some ITERATING_IMAGE.
Proof.
  intros Himp Hsub Hc a1 a2 a3 last.
  assert (H1 : a1 = {| conversations := {[ (chat_id, user_id) := INITIAL_PROMPT ]};
                       sys := sys fresh |}).
  { unfold a1, process_update. cbv zeta. unfold fresh at 1. cbn [conversations].
    rewrite lookup_empty. reflexivity. }
  assert (H2 : a2 = {| conversations := <[(chat_id, user_id) := CHOOSING_PROMPT]>
                                          {[ (chat_id, user_id) := INITIAL_PROMPT ]};
                       sys := {| user_data :=
                                   {[ user_id :=
                                        <["enhanced_prompt" := e]>
                                          {[ "original_prompt" := JStr p ]} ]};
                                 context_user_data := ∅;
                                 remote := [] |} |}).
  { unfold a2. rewrite H1. unfold process_update. cbv zeta.
    cbn [with_answers conversations sys]. rewrite lookup_singleton_eq.
    cbn [state_handler effective_message callback].
    erewrite handle_initial_prompt_enhanced; [|exact Himp|reflexivity].
    reflexivity. }
  assert (H3 : a3 = {| conversations :=
                         <[(chat_id, user_id) := REFERENCE_CHOICE]> (conversations a2);
                       sys := {| user_data :=
                                   <[user_id :=
                                       <["final_prompt" := e]>
                                         (<["enhanced_prompt" := e]>
                                            {[ "original_prompt" := JStr p ]})]>
                                     (user_data (sys a2));
                                 context_user_data := ∅;
                                 remote := [] |} |}).
  { unfold a3. rewrite H2. unfold process_update. cbv zeta.
    cbn [conversations sys]. rewrite lookup_insert_eq. cbn [state_handler effective_message callback].
    rewrite (handle_prompt_choice_enhanced (update_of user_id (TextMessage "1")) _
               (<["enhanced_prompt" := e]> {[ "original_prompt" := JStr p ]}) e eq_refl).
    - reflexivity.
    - apply lookup_singleton_eq.
    - apply lookup_insert_eq. }
  assert (H4 : last =
               ({| conversations := <[(chat_id, user_id) := ITERATING_IMAGE]> (conversations a3);
                   sys := set_remote [] (sys a3) |},
                [reply_text [Lit generating_text];
                 requests_post generations (scratch_payload e);
                 poll gid;
                 reply_photo u [Lit photo_caption]])).
  { unfold last. rewrite H3. unfold process_update. cbv zeta.
    cbn [with_answers conversations sys]. rewrite lookup_insert_eq. cbn [state_handler effective_message callback].
    assert (Hin : in_strs (text (update_message (update_of user_id (TextMessage "2"))))
                    ["1"; "2"] = true) by reflexivity.
    unfold handle_reference_choice. rewrite Hin. cbn [negb].
    change (eq_str (text (update_message (update_of user_id (TextMessage "2")))) "1")
      with false. cbv iota.
    rewrite (start_image_generation_first_poll jl _ _
               (<["final_prompt" := e]>
                  (<["enhanced_prompt" := e]> {[ "original_prompt" := JStr p ]}))
               e submit gid first u []);
      try assumption; try reflexivity; apply lookup_insert_eq. }
  split; [rewrite H2; apply lookup_insert_eq|].
  split; [rewrite H3; apply lookup_insert_eq|].
  rewrite H4. split; [reflexivity|]. apply lookup_insert_eq.
Qed.

(** * Concrete runs *)

(** ** The data fits the vocabulary *)

Lemma reachable_asked_reference :
  reachable example_loads example_file_path asked_reference.1.
Proof. repeat apply reachable_step. apply reachable_fresh. Qed.

Lemma reachable_generated :
  reachable example_loads example_file_path generated.1.
Proof. apply reachable_step. apply reachable_asked_reference. Qed.

Lemma submit_answer_accepted gid : submission_accepted (submit_answer gid) (JStr gid).
Proof. eexists _, _, _. repeat split; reflexivity. Qed.

Lemma status_answer_report status urls :
  status_report (status_answer status urls)
    [("status", JStr status);
     ("generated_images", JArr (map (fun u => JObj [("url", JStr u)]) urls))].
Proof. econstructor; reflexivity. Qed.

Lemma complete_answer_with_image u urls :
  complete_with_image (status_answer "COMPLETE" (u :: urls)) (JStr u).
Proof.
  eexists _, _, _. split; [apply status_answer_report|]. repeat split; reflexivity.
Qed.

Lemma complete_answer_without_images :
  complete_without_images (status_answer "COMPLETE" []).
Proof. eexists. split; [apply status_answer_report|]. split; reflexivity. Qed.

Lemma pending_answer_still_pending : still_pending (status_answer "PENDING" []).
Proof.
  left. right. right. eexists. split; [apply status_answer_report|].
  cbn [assoc String.eqb Ascii.eqb Bool.eqb]. discriminate.
Qed.

Lemma slot_answer_granted :
  upload_slot_granted example_loads slot_answer [("key", JStr "{}")]
    "https://s3/upload" (JStr "img-1").
Proof. eexists _, _, _, _. repeat split; reflexivity. Qed.

Lemma improve_answer_succeeded e : refinement_succeeded (improve_answer e) (JStr e).
Proof. eexists _, _, _. repeat split; reflexivity. Qed.

(** ** Instances of the theorems *)

(** One pending answer and then the image: two polls.  Thirty pending
    answers: the timed-out error. *)
Lemma generate_image_polling_witness :
  generate_image (JStr "a frog") example_message
    (example_system [submit_answer "job-1"; status_answer "PENDING" [];
                     status_answer "COMPLETE" ["http://img/1.png"]]) =
    (Returns (status_success (JStr "http://img/1.png")), example_system [],
     [reply_text [Lit generating_text];
      requests_post generations (scratch_payload (JStr "a frog"))]
     ++ spaced_polls (JStr "job-1") (2 - 1) ++ [poll (JStr "job-1")]) /\
  generate_image (JStr "a frog") example_message
    (example_system (submit_answer "job-1" :: repeat (status_answer "PENDING" []) 30)) =
    (Returns (status_error [Lit timed_out_error]), example_system [],
     [reply_text [Lit generating_text];
      requests_post generations (scratch_payload (JStr "a frog"))]
     ++ spaced_polls (JStr "job-1") 30).
Proof.
  split.
  - refine (proj1 (proj1 (generate_image_polling (JStr "a frog") example_message
                     (example_system [submit_answer "job-1"; status_answer "PENDING" [];
                                      status_answer "COMPLETE" ["http://img/1.png"]])
                     (submit_answer "job-1") (JStr "job-1")
                     [status_answer "PENDING" [];
                      status_answer "COMPLETE" ["http://img/1.png"]]
                     (submit_answer_accepted "job-1") eq_refl)
                   2 [status_answer "PENDING" []]
                   (status_answer "COMPLETE" ["http://img/1.png"])
                   (JStr "http://img/1.png") [] _ eq_refl _ _ eq_refl)).
    + lia.
    + apply List.Forall_cons; [apply pending_answer_still_pending|apply List.Forall_nil].
    + apply complete_answer_with_image.
  - refine (proj1 (proj2 (generate_image_polling (JStr "a frog") example_message
                     (example_system (submit_answer "job-1"
                                        :: repeat (status_answer "PENDING" []) 30))
                     (submit_answer "job-1") (JStr "job-1")
                     (repeat (status_answer "PENDING" []) 30)
                     (submit_answer_accepted "job-1") eq_refl)
                   (repeat (status_answer "PENDING" []) 30) [] eq_refl _ _)).
    + apply List.Forall_forall. intros x Hx. apply repeat_spec in Hx. subst.
      apply pending_answer_still_pending.
    + symmetry. apply app_nil_r.
Defined.

(** C3, refuted as stated: a [COMPLETE] answer without images on the first
    poll, the image on the second, and [generate_image] returns the image. *)
Lemma zero_images_poll_not_final :
  ~ (forall prompt msg s submit gid before zero rest,
       submission_accepted submit gid ->
       Forall still_pending before ->
       length before < 30 ->
       complete_without_images zero ->
       remote s = submit :: before ++ zero :: rest ->
       (generate_image prompt msg s).1.1 = Returns (status_error [Lit timed_out_error])).
Proof.
  intros H.
  specialize (H (JStr "a frog") example_message
                (example_system [submit_answer "job-1"; status_answer "COMPLETE" [];
                                 status_answer "COMPLETE" ["http://img/1.png"]])
                (submit_answer "job-1") (JStr "job-1") []
                (status_answer "COMPLETE" [])
                [status_answer "COMPLETE" ["http://img/1.png"]]
                (submit_answer_accepted "job-1") (List.Forall_nil _)).
  cbn [length] in H. specialize (H ltac:(lia) complete_answer_without_images eq_refl).
  vm_compute in H. discriminate H.
Qed.

(** A job that is [COMPLETE] without images at every poll. *)
Lemma zero_images_poll_continues_witness :
  generate_image (JStr "a frog") example_message
    (example_system (submit_answer "job-1" :: repeat (status_answer "COMPLETE" []) 30)) =
    (Returns (status_error [Lit timed_out_error]), example_system [],
     [reply_text [Lit generating_text];
      requests_post generations (scratch_payload (JStr "a frog"))]
     ++ spaced_polls (JStr "job-1") 30).
Proof.
  refine (proj2 (zero_images_poll_continues (JStr "a frog") example_message
                   (example_system (submit_answer "job-1"
                                      :: repeat (status_answer "COMPLETE" []) 30))
                   (submit_answer "job-1") (JStr "job-1")
                   [] (status_answer "COMPLETE" [])
                   (repeat (status_answer "COMPLETE" []) 29)
                   (submit_answer_accepted "job-1") (List.Forall_nil _)
                   complete_answer_without_images _ eq_refl)
                (repeat (status_answer "COMPLETE" []) 29) [] _ _ eq_refl).
  - cbn [length]. lia.
  - symmetry. apply app_nil_r.
  - apply List.Forall_forall. intros x Hx. apply repeat_spec in Hx. subst.
    right. apply complete_answer_without_images.
Defined.

Lemma upload_failure_stops_witness :
  generate_image_with_reference example_loads (JStr "a frog")
    (JStr "https://files/photo-9") example_message
    (example_system [slot_answer; bare_answer 200 "JPEG"; bare_answer 403 "denied";
                     submit_answer "job-1"]) =
    (Returns (status_error [Lit "Failed to upload to S3"]),
     example_system [submit_answer "job-1"],
     [reply_text [Lit processing_reference_text];
      requests_post init_image (JObj [("extension", JStr "jpg")]);
      requests_get (absolute "https://files/photo-9");
      requests_post_files "https://s3/upload" (JObj [("key", JStr "{}")]) "JPEG"]).
Proof.
  refine (proj1 (upload_failure_stops example_loads (JStr "a frog") "https://files/photo-9"
                   example_message
                   (example_system [slot_answer; bare_answer 200 "JPEG";
                                    bare_answer 403 "denied"; submit_answer "job-1"])
                   slot_answer
                   {| status_code := 200; content := "JPEG"; json_body := None |}
                   {| status_code := 403; content := "denied"; json_body := None |}
                   [submit_answer "job-1"]
                   [("key", JStr "{}")] "https://s3/upload" (JStr "img-1")
                   slot_answer_granted eq_refl _ eq_refl)).
  cbn [status_code]. lia.
Defined.

Lemma reference_single_check_witness :
  exists result,
    generate_image_with_reference example_loads (JStr "a frog")
      (JStr "https://files/photo-9") example_message
      (example_system [slot_answer; bare_answer 200 "JPEG"; bare_answer 204 "";
                       submit_answer "job-1"; status_answer "PENDING" ["http://img/1.png"]]) =
      (Returns result, example_system [],
       [reply_text [Lit processing_reference_text];
        requests_post init_image (JObj [("extension", JStr "jpg")]);
        requests_get (absolute "https://files/photo-9");
        requests_post_files "https://s3/upload" (JObj [("key", JStr "{}")]) "JPEG";
        requests_post generations (reference_payload (JStr "a frog") (JStr "img-1"));
        time_sleep 20;
        poll (JStr "job-1")])
    /\ (forall u, has_image (status_answer "PENDING" ["http://img/1.png"]) u <->
                  result = status_success u)
    /\ ((forall u, ~ has_image (status_answer "PENDING" ["http://img/1.png"]) u) ->
        exists e, result = status_error e).
Proof.
  exact (reference_single_check example_loads (JStr "a frog") "https://files/photo-9"
           example_message
           (example_system [slot_answer; bare_answer 200 "JPEG"; bare_answer 204 "";
                            submit_answer "job-1";
                            status_answer "PENDING" ["http://img/1.png"]])
           slot_answer
           {| status_code := 200; content := "JPEG"; json_body := None |}
           {| status_code := 204; content := ""; json_body := None |}
           (submit_answer "job-1") (status_answer "PENDING" ["http://img/1.png"]) []
           [("key", JStr "{}")] "https://s3/upload" (JStr "img-1") (JStr "job-1")
           slot_answer_granted eq_refl eq_refl (submit_answer_accepted "job-1") eq_refl).
Defined.

Lemma invalid_choice_stays_witness :
  conversations asked_reference.1 !! (7%Z, 7%Z) = Some REFERENCE_CHOICE /\
  choices_of REFERENCE_CHOICE = Some ["1"; "2"] /\
  ~ In "maybe" ["1"; "2"] /\
  process_update example_loads example_file_path 7 7 (TextMessage "maybe") asked_reference.1 =
    (asked_reference.1, [reply_text [Lit (reminder_of REFERENCE_CHOICE)]]).
Proof.
  assert (H1 : conversations asked_reference.1 !! (7%Z, 7%Z) = Some REFERENCE_CHOICE)
    by (vm_compute; reflexivity).
  assert (H3 : ~ In "maybe" ["1"; "2"]).
  { intros [H|[H|[]]]; discriminate H. }
  split; [exact H1|]. split; [reflexivity|]. split; [exact H3|].
  exact (invalid_choice_stays example_loads example_file_path asked_reference.1 7 7
           REFERENCE_CHOICE ["1"; "2"] "maybe" H1 eq_refl H3).
Defined.

(** C7, refuted as stated: the question that brought the user to
    [REFERENCE_CHOICE] and the answer to an invalid choice there are two
    different texts. *)
Lemma reminder_is_not_the_question :
  asked_reference.2 = [reply_text [Lit reference_question_text]] /\
  conversations asked_reference.1 !! (7%Z, 7%Z) = Some REFERENCE_CHOICE /\
  ~ In "maybe" ["1"; "2"] /\
  (process_update example_loads example_file_path 7 7 (TextMessage "maybe")
     asked_reference.1).2 = [reply_text [Lit reference_choice_again_text]] /\
  [reply_text [Lit reference_choice_again_text]] <> asked_reference.2.
Proof.
  split; [vm_compute; reflexivity|].
  split; [vm_compute; reflexivity|].
  split; [intros [H|[H|[]]]; discriminate H|].
  split; [vm_compute; reflexivity|].
  intros H. vm_compute in H. discriminate H.
Qed.

Lemma photo_without_prompt_restarts_witness :
  conversations lost_session !! (7%Z, 7%Z) = Some AWAITING_REFERENCE /\
  (exists d, user_data (sys lost_session) !! 7%Z = Some d /\ d !! "final_prompt" = None) /\
  process_update example_loads example_file_path 7 7 (PhotoMessage ["small"; "large"])
    lost_session =
    ({| conversations := <[(7%Z, 7%Z) := INITIAL_PROMPT]> (conversations lost_session);
        sys := sys lost_session |},
     [reply_text [Lit lost_prompt_text]]).
Proof.
  assert (H1 : conversations lost_session !! (7%Z, 7%Z) = Some AWAITING_REFERENCE)
    by (vm_compute; reflexivity).
  assert (H2 : exists d, user_data (sys lost_session) !! 7%Z = Some d /\
                         d !! "final_prompt" = None).
  { exists {[ "original_prompt" := JStr "a frog" ]}. split; vm_compute; reflexivity. }
  split; [exact H1|]. split; [exact H2|].
  exact (proj2 (photo_without_prompt_restarts example_loads example_file_path lost_session 7 7
                  ["small"; "large"] H1 (or_intror H2))).
Defined.

Lemma scratch_scenario_witness :
  generated.2 =
    [reply_text [Lit generating_text];
     requests_post generations (scratch_payload (JStr "a detailed pixel-art frog astronaut"));
     poll (JStr "job-1");
     reply_photo (JStr "http://img/1.png") [Lit photo_caption]] /\
  conversations generated.1 !! (7%Z, 7%Z) = Some ITERATING_IMAGE.
Proof.
  exact (proj2 (proj2 (scratch_scenario example_loads example_file_path 7 7
                         "a pixel-art frog astronaut"
                         (improve_answer "a detailed pixel-art frog astronaut")
                         (JStr "a detailed pixel-art frog astronaut")
                         (submit_answer "job-1") (JStr "job-1")
                         (status_answer "COMPLETE" ["http://img/1.png"])
                         (JStr "http://img/1.png")
                         (improve_answer_succeeded _)
                         (submit_answer_accepted _)
                         (complete_answer_with_image _ _)))).
Defined.

(** C8, refuted as stated: in the scenario the photo is the last thing the
    bot sends; no three-choice text follows it, and its caption offers the
    choices 1 and 2 only. *)
Lemma no_three_choice_follow_up :
  generated.2 =
    [reply_text [Lit generating_text];
     requests_post generations (scratch_payload (JStr "a detailed pixel-art frog astronaut"));
     requests_get (generation_by_id (JStr "job-1"));
     reply_photo (JStr "http://img/1.png") [Lit photo_caption]] /\
  ~ (exists before caption,
       generated.2 = before ++ [reply_photo (JStr "http://img/1.png") caption;
                                reply_text [Lit three_choice_text]]) /\
  ~ In (reply_text [Lit three_choice_text]) generated.2 /\
  contains "3" photo_caption = false.
Proof.
  assert (H : generated.2 =
    [reply_text [Lit generating_text];
     requests_post generations (scratch_payload (JStr "a detailed pixel-art frog astronaut"));
     requests_get (generation_by_id (JStr "job-1"));
     reply_photo (JStr "http://img/1.png") [Lit photo_caption]])
    by (vm_compute; reflexivity).
  split; [exact H|]. rewrite H. split; [|split].
  - intros (before & caption & E).
    destruct before as [|e1 [|e2 [|e3 [|e4 [|e5 before]]]]]; discriminate E.
  - intros [E|[E|[E|[E|[]]]]]; discriminate E.
  - vm_compute. reflexivity.
Qed.

(** C10, refuted as stated: for a user without a session both handlers
    fail at the same lookup, and still they answer with different texts and
    return different states. *)
Lemma generation_handlers_differ :
  ~ (forall jl upd s,
       handle_image_generation jl upd s = start_image_generation jl upd s).
Proof.
  intros H.
  specialize (H example_loads
                {| effective_user_id := 7; update_message := example_message |}
                (example_system [])).
  apply (f_equal (fun res => res.1.1)) in H. vm_compute in H. discriminate H.
Qed.

(** * Further properties of the code *)

(** ** Requests and sleeps, bounded *)

Lemma count_requests_app l1 l2 :
  count_requests (l1 ++ l2) = count_requests l1 + count_requests l2.
Proof. unfold count_requests. rewrite List.filter_app, length_app. reflexivity. Qed.

Lemma total_sleep_app l1 l2 :
  total_sleep (l1 ++ l2) = (total_sleep l1 + total_sleep l2)%Z.
Proof.
  induction l1 as [|ev l1 IH]; cbn [total_sleep fold_right List.app].
  - reflexivity.
  - fold (total_sleep (l1 ++ l2)). fold (total_sleep l1). rewrite IH. lia.
Qed.

Lemma within_ret {A} (a : A) : within 0 0 (ret a).
Proof. intros s. cbn. split; [reflexivity|lia]. Qed.

Lemma within_raise {A} (e : exn) : within 0 0 (@raise A e).
Proof. intros s. cbn. split; [reflexivity|lia]. Qed.

Lemma within_lift {A} (o : outcome A) : within 0 0 (lift o).
Proof. destruct o; [apply within_ret|apply within_raise]. Qed.

Lemma within_get_system : within 0 0 get_system.
Proof. intros s. cbn. split; [reflexivity|lia]. Qed.

Lemma within_modify f : within 0 0 (modify f).
Proof. intros s. cbn. split; [reflexivity|lia]. Qed.

Lemma within_reply_text t : within 0 0 (emit (reply_text t)).
Proof. intros s. cbn. split; [reflexivity|lia]. Qed.

Lemma within_reply_photo p c : within 0 0 (emit (reply_photo p c)).
Proof. intros s. cbn. split; [reflexivity|lia]. Qed.

Lemma within_asyncio_sleep n :
  (0 <= n)%Z -> within 0 (Z.to_nat n) (emit (asyncio_sleep n)).
Proof. intros Hn s. cbn. split; [reflexivity|lia]. Qed.

Lemma within_time_sleep n :
  (0 <= n)%Z -> within 0 (Z.to_nat n) (emit (time_sleep n)).
Proof. intros Hn s. cbn. split; [reflexivity|lia]. Qed.

Lemma within_request ev :
  is_request ev = true -> within 1 0 (request ev).
Proof.
  intros Hev s. unfold request.
  destruct ev; try discriminate Hev;
    destruct (remote s) as [|[r|] w]; cbn; split; lia.
Qed.

Lemma within_weaken {A} r z r' z' (m : M A) :
  within r z m -> r <= r' -> z <= z' -> within r' z' m.
Proof. intros H Hr Hz s. destruct (H s) as [H1 H2]. split; lia. Qed.

Lemma within_bind {A B} r1 z1 r2 z2 (m : M A) (f : A -> M B) :
  within r1 z1 m -> (forall a, within r2 z2 (f a)) ->
  within (r1 + r2) (z1 + z2) (bind m f).
Proof.
  intros Hm Hf s. unfold bind. destruct (Hm s) as [H1 H2].
  destruct (m s) as [[[a|e] s1] o1]; cbn [fst snd] in *.
  - destruct (Hf a s1) as [H3 H4]. unfold after. cbn [snd].
    rewrite count_requests_app, total_sleep_app. split; lia.
  - split; lia.
Qed.

Lemma within_try_except {A} r1 z1 r2 z2 (m : M A) (h : exn -> M A) :
  within r1 z1 m -> (forall e, within r2 z2 (h e)) ->
  within (r1 + r2) (z1 + z2) (try_except m h).
Proof.
  intros Hm Hh s. unfold try_except. destruct (Hm s) as [H1 H2].
  destruct (m s) as [[[a|e] s1] o1]; cbn [fst snd] in *.
  - split; lia.
  - destruct (Hh e s1) as [H3 H4]. unfold after. cbn [snd].
    rewrite count_requests_app, total_sleep_app. split; lia.
Qed.

Lemma within_if {A} r1 z1 r2 z2 (b : bool) (m1 m2 : M A) :
  within r1 z1 m1 -> within r2 z2 m2 ->
  within (Nat.max r1 r2) (Nat.max z1 z2) (if b then m1 else m2).
Proof.
  intros H1 H2. destruct b; eapply within_weaken; eauto; lia.
Qed.

Lemma within_if_decide {A} r1 z1 r2 z2 (P : Prop) (b : {P} + {~ P}) (m1 m2 : M A) :
  within r1 z1 m1 -> within r2 z2 m2 ->
  within (Nat.max r1 r2) (Nat.max z1 z2) (if b then m1 else m2).
Proof.
  intros H1 H2. destruct b; eapply within_weaken; eauto; lia.
Qed.

Lemma within_match_option {A B} r1 z1 r2 z2 (o : option B) (f : B -> M A) (m : M A) :
  (forall b, within r1 z1 (f b)) -> within r2 z2 m ->
  within (Nat.max r1 r2) (Nat.max z1 z2) (match o with Some b => f b | None => m end).
Proof.
  intros H1 H2. destruct o; eapply within_weaken; eauto; lia.
Qed.

Lemma within_match_result {A} r1 z1 r2 z2 (g : gen_result)
    (f : json -> M A) (h : fstring -> M A) :
  (forall u, within r1 z1 (f u)) -> (forall e, within r2 z2 (h e)) ->
  within (Nat.max r1 r2) (Nat.max z1 z2)
    (match g with status_success u => f u | status_error e => h e end).
Proof.
  intros H1 H2. destruct g; eapply within_weaken; eauto; lia.
Qed.

Lemma within_call_with_message {A} r z (f : message -> M A) o :
  (forall m, within r z (f m)) -> within r z (call_with_message f o).
Proof.
  intros Hf. destruct o; cbn [call_with_message]; [apply Hf|].
  eapply within_weaken; [apply within_raise|lia|lia].
Qed.

Lemma within_dict_getitem d key : within 0 0 (dict_getitem d key).
Proof. unfold dict_getitem. destruct (d !! key); [apply within_ret|apply within_raise]. Qed.

Create HintDb within_db.
#[export] Hint Resolve within_ret within_raise within_lift within_get_system within_modify
  within_reply_text within_reply_photo within_dict_getitem : within_db.

(** Adds up the cost of a computation built from the combinators. *)
Ltac within_tac :=
  repeat first
    [ progress intros
    | solve [auto with within_db]
    | match goal with
      | |- within _ _ (bind _ _) => eapply within_bind
      | |- within _ _ (try_except _ _) => eapply within_try_except
      | |- within _ _ (call_with_message _ _) => eapply within_call_with_message
      | |- within _ _ (request _) => apply within_request; reflexivity
      | |- within _ _ (emit (asyncio_sleep _)) => apply within_asyncio_sleep; lia
      | |- within _ _ (emit (time_sleep _)) => apply within_time_sleep; lia
      | |- within _ _ (if ?b then _ else _) =>
          first [eapply within_if | eapply within_if_decide]
      | |- within _ _ (match ?o with Some _ => _ | None => _ end) =>
          eapply within_match_option
      | |- within _ _ (match ?g with status_success _ => _ | status_error _ => _ end) =>
          eapply within_match_result
      end ].

Lemma within_poll_once r : within 0 0 (poll_once r).
Proof.
  eapply within_weaken; [unfold poll_once; within_tac| |]; vm_compute; lia.
Qed.

Lemma within_check_once r : within 0 0 (check_once r).
Proof.
  eapply within_weaken; [unfold check_once; within_tac| |]; vm_compute; lia.
Qed.

#[export] Hint Resolve within_poll_once within_check_once : within_db.

Lemma within_poll_loop gid n : within n (2 * n) (poll_loop gid n).
Proof.
  induction n as [|n IH]; cbn [poll_loop].
  - apply within_ret.
  - eapply within_weaken.
    + eapply within_bind; [apply within_request; reflexivity|]. intros r.
      eapply within_bind; [apply within_poll_once|]. intros found.
      eapply within_match_option; [intros b; apply within_ret|].
      eapply within_bind; [apply within_asyncio_sleep; unfold poll_interval; lia|].
      intros _. exact IH.
    + lia.
    + unfold poll_interval. lia.
Qed.

#[export] Hint Resolve within_poll_loop : within_db.

Lemma within_generate_image prompt msg : within 31 60 (generate_image prompt msg).
Proof.
  eapply within_weaken; [unfold generate_image; within_tac| |];
    unfold max_attempts; vm_compute; lia.
Qed.

Lemma within_generate_image_with_reference jl prompt image_url msg :
  within 5 20 (generate_image_with_reference jl prompt image_url msg).
Proof.
  eapply within_weaken; [unfold generate_image_with_reference; within_tac| |];
    vm_compute; lia.
Qed.

#[export] Hint Resolve within_generate_image within_generate_image_with_reference
  : within_db.

(** X1.  Whatever the remote services answer, [generate_image] makes at most
    31 requests and sleeps at most 60 seconds, and
    [generate_image_with_reference] makes at most 5 requests and sleeps at
    most 20 seconds. *)
Theorem generation_cost_bounded jl prompt image_url msg s :
  count_requests (generate_image prompt msg s).2 <= 31 /\
  (total_sleep (generate_image prompt msg s).2 <= 60)%Z /\
  count_requests (generate_image_with_reference jl prompt image_url msg s).2 <= 5 /\
  (total_sleep (generate_image_with_reference jl prompt image_url msg s).2 <= 20)%Z.
Proof.
  destruct (within_generate_image prompt msg s) as [H1 H2].
  destruct (within_generate_image_with_reference jl prompt image_url msg s) as [H3 H4].
  repeat split; lia.
Qed.

(** ** The generation client never raises *)

Lemma try_except_ret_returns {A} (m : M A) (f : exn -> A) s :
  exists a s' o, try_except m (fun e => ret (f e)) s = (Returns a, s', o).
Proof.
  unfold try_except. destruct (m s) as [[[a|e] s1] o1]; eexists _, _, _; reflexivity.
Qed.

(** What a guarded block sends first stays first, whether the block
    returns or its handler runs. *)
Lemma try_except_first_event {A} ev (k : M A) (h : exn -> M A) s :
  exists o, (try_except (bind (emit ev) (fun _ => k)) h s).2 = ev :: o.
Proof.
  unfold try_except, bind, emit, after.
  destruct (k s) as [[[a|e] s1] o1]; cbn [fst snd List.app]; eexists; reflexivity.
Qed.

(** X2.  Neither generation method lets an exception out: each returns a
    result dictionary, has first of all sent its notice, and has left every
    session as it was. *)
Theorem generation_never_raises jl prompt image_url msg s :
  (exists r s' o,
     generate_image prompt msg s =
       (Returns r, s', reply_text [Lit generating_text] :: o) /\
     user_data s' = user_data s) /\
  (exists r s' o,
     generate_image_with_reference jl prompt image_url msg s =
       (Returns r, s', reply_text [Lit processing_reference_text] :: o) /\
     user_data s' = user_data s).
Proof.
  split.
  - pose proof (keeps_generate_image prompt msg s) as Hk.
    unfold generate_image in *.
    match goal with
    | |- context [try_except (bind (emit ?ev) (fun _ => ?k)) ?h s] =>
        destruct (try_except_first_event ev k h s) as [o Ho];
        destruct (try_except_ret_returns (bind (emit ev) (fun _ => k))
                    (fun e => status_error (str_exn e)) s) as (r & s' & o' & E)
    end.
    rewrite E in Ho, Hk. cbn [fst snd] in Ho, Hk. subst o'.
    exists r, s', o. split; [exact E|exact Hk].
  - pose proof (keeps_generate_image_with_reference jl prompt image_url msg s) as Hk.
    unfold generate_image_with_reference in *.
    match goal with
    | |- context [try_except (bind (emit ?ev) (fun _ => ?k)) ?h s] =>
        destruct (try_except_first_event ev k h s) as [o Ho];
        destruct (try_except_ret_returns (bind (emit ev) (fun _ => k))
                    (fun e => status_error (str_exn e)) s) as (r & s' & o' & E)
    end.
    rewrite E in Ho, Hk. cbn [fst snd] in Ho, Hk. subst o'.
    exists r, s', o. split; [exact E|exact Hk].
Qed.

(** ** Where the generation client gives up *)

(** X3.  When the job is not accepted, [generate_image] stops there: the
    submission is its only request, no poll follows, and it returns an
    error; for an answer with a status other than 200 the error names that
    status. *)
Theorem scratch_submission_rejected prompt msg s a rest :
  remote s = a :: rest ->
  (forall gid, ~ submission_accepted a gid) ->
  (exists e,
     generate_image prompt msg s =
       (Returns (status_error e), set_remote rest s,
        [reply_text [Lit generating_text];
         requests_post generations (scratch_payload prompt)])) /\
  (forall r, a = Responds r -> status_code r <> 200%Z ->
     generate_image prompt msg s =
       (Returns (status_error [Lit "Generation failed with status ";
                               FmtInt (status_code r)]),
        set_remote rest s,
        [reply_text [Lit generating_text];
         requests_post generations (scratch_payload prompt)])).
Proof.
  intros Hs Hno.
  assert (Hcode : forall r, a = Responds r -> status_code r <> 200%Z ->
     generate_image prompt msg s =
       (Returns (status_error [Lit "Generation failed with status ";
                               FmtInt (status_code r)]),
        set_remote rest s,
        [reply_text [Lit generating_text];
         requests_post generations (scratch_payload prompt)])).
  { intros r -> Hc. apply Z.eqb_neq in Hc.
    destruct s as [ud cud w], r as [c t b]. cbn [remote status_code] in *. subst.
    unfold generate_image. mrun. reflexivity. }
  split; [|exact Hcode].
  destruct a as [r|].
  - destruct (Z.eq_dec (status_code r) 200%Z) as [H200|Hc];
      [|eexists; apply (Hcode r eq_refl Hc)].
    destruct s as [ud cud w], r as [c t b]. cbn [remote status_code] in *. subst.
    unfold generate_image.
    destruct b as [[ | | | | | |body]|];
      try (mrun; eexists; reflexivity).
    mrun. destruct (assoc "sdGenerationJob" body) as [[ | | | | | |job]|] eqn:Hjob;
      try (mrun; eexists; reflexivity).
    mrun. destruct (assoc "generationId" job) as [gid|] eqn:Hgid;
      [|mrun; eexists; reflexivity].
    exfalso. apply (Hno gid). eexists _, body, job. repeat split; eauto.
  - destruct s as [ud cud w]. cbn [remote] in *. subst.
    unfold generate_image. mrun. eexists; reflexivity.
Qed.

(** X4.  A poll that cannot be made, or whose 200 answer is not JSON, ends
    [generate_image] at once with the exception as the error: no sleep and
    no further poll follow it. *)
Theorem poll_failure_aborts prompt msg s submit gid polls bad err rest :
  submission_accepted submit gid ->
  Forall still_pending polls ->
  length polls < 30 ->
  (bad = Fails /\ err = RequestException) \/
  (exists r, bad = Responds r /\ status_code r = 200%Z /\ json_body r = None /\
             err = JSONDecodeError) ->
  remote s = submit :: polls ++ bad :: rest ->
  generate_image prompt msg s =
    (Returns (status_error [FmtErr err]), set_remote rest s,
     [reply_text [Lit generating_text];
      requests_post generations (scratch_payload prompt)]
     ++ spaced_polls gid (length polls) ++ [poll gid]).
Proof.
  intros Hsub Hall Hlen Hbad Hs.
  rewrite (generate_image_pendings prompt msg s submit gid polls (bad :: rest)
             (S (29 - length polls)) Hsub Hall); [|unfold max_attempts; lia|assumption].
  unfold try_except.
  assert (Hloop : poll_loop gid (S (29 - length polls)) (set_remote (bad :: rest) s) =
                  (Raises (Builtin err), set_remote rest s, [poll gid])).
  { cbn [poll_loop].
    destruct Hbad as [[-> ->] | (r & -> & H200 & Hb & ->)].
    - erewrite bind_raises; [reflexivity|]. reflexivity.
    - erewrite bind_returns; [|reflexivity].
      erewrite bind_raises; [reflexivity|].
      unfold poll_once. rewrite H200. cbn [Z.eqb Pos.eqb].
      erewrite bind_raises; [reflexivity|].
      unfold json_of. rewrite Hb. reflexivity. }
  rewrite Hloop. unfold after. cbn [fst snd ret str_exn].
  rewrite app_nil_r, <- app_assoc. reflexivity.
Qed.

(** X5.  An answer that carries an image while the job is not yet
    [COMPLETE] means "not yet" to the polling loop of [generate_image] and
    success to the single check of [generate_image_with_reference], which
    does not look at the status. *)
Theorem image_before_complete r by_pk u s :
  status_report (Responds r) by_pk ->
  assoc "status" by_pk <> Some (JStr "COMPLETE") ->
  has_image (Responds r) u ->
  poll_once r s = (Returns None, s, []) /\
  check_once r s = (Returns (Some (status_success u)), s, []).
Proof.
  intros Hrep Hst Himg. split.
  - apply poll_once_pending. left. right. right. exists by_pk. split; assumption.
  - apply check_once_image. exact Himg.
Qed.

(** X6.  When the upload slot is refused (any status other than 200),
    [generate_image_with_reference] returns the presigned-URL error after
    that one request: the image is neither fetched nor uploaded. *)
Theorem upload_slot_refused jl prompt image_url msg s r rest :
  remote s = Responds r :: rest ->
  status_code r <> 200%Z ->
  generate_image_with_reference jl prompt image_url msg s =
    (Returns (status_error [Lit "Failed to get presigned URL from Leonardo"]),
     set_remote rest s,
     [reply_text [Lit processing_reference_text];
      requests_post init_image (JObj [("extension", JStr "jpg")])]).
Proof.
  intros Hs Hc. apply Z.eqb_neq in Hc.
  destruct s as [ud cud w], r as [c t b]. cbn [remote status_code] in *. subst.
  unfold generate_image_with_reference. mrun. reflexivity.
Qed.

(** X7.  When the reference image cannot be downloaded (any status other
    than 200), [generate_image_with_reference] returns the download error:
    nothing is uploaded and no job is submitted. *)
Theorem reference_download_failed jl prompt src msg s init fetch rest
    fields target image_id :
  upload_slot_granted jl init fields target image_id ->
  status_code fetch <> 200%Z ->
  remote s = init :: Responds fetch :: rest ->
  generate_image_with_reference jl prompt (JStr src) msg s =
    (Returns (status_error [Lit "Failed to download image from Telegram"]),
     set_remote rest s,
     [reply_text [Lit processing_reference_text];
      requests_post init_image (JObj [("extension", JStr "jpg")]);
      requests_get (absolute src)]).
Proof.
  intros (r & body & slot & f & -> & H200 & Hb & Hslot & Hf & Hl & Hurl & Hid) Hc Hs.
  apply Z.eqb_neq in Hc.
  destruct s as [ud cud w], r as [c1 t1 b1], fetch as [c2 t2 b2].
  cbn [remote status_code json_body content] in *. subst.
  unfold generate_image_with_reference. mrun. reflexivity.
Qed.

(** X8.  When the job is refused after a successful upload (any status
    other than 200), [generate_image_with_reference] returns an error that
    names the status, without sleeping and without asking for the result. *)
Theorem reference_submission_rejected jl prompt src msg s init fetch upload submit rest
    fields target image_id :
  upload_slot_granted jl init fields target image_id ->
  status_code fetch = 200%Z ->
  status_code upload = 204%Z ->
  status_code submit <> 200%Z ->
  remote s = init :: Responds fetch :: Responds upload :: Responds submit :: rest ->
  generate_image_with_reference jl prompt (JStr src) msg s =
    (Returns (status_error [Lit "Generation failed with status ";
                            FmtInt (status_code submit)]),
     set_remote rest s,
     [reply_text [Lit processing_reference_text];
      requests_post init_image (JObj [("extension", JStr "jpg")]);
      requests_get (absolute src);
      requests_post_files target (JObj fields) (content fetch);
      requests_post generations (reference_payload prompt image_id)]).
Proof.
  intros (r & body & slot & f & -> & H200 & Hb & Hslot & Hf & Hl & Hurl & Hid)
         Hfetch Hup Hc Hs.
  apply Z.eqb_neq in Hc.
  destruct s as [ud cud w], r as [c1 t1 b1], fetch as [c2 t2 b2], upload as [c3 t3 b3],
    submit as [c4 t4 b4].
  cbn [remote status_code json_body content] in *. subst.
  unfold generate_image_with_reference. mrun. reflexivity.
Qed.

(** ** The handlers as transitions *)

Lemma session_getitem_no_session user_id key s :
  user_data s !! user_id = None ->
  session_getitem user_id key s =
    (Raises (Builtin (KeyError (JInt user_id))), s, []).
Proof.
  intros H. unfold session_getitem.
  rewrite (bind_raises _ _ _ _ _ _ (session_of_none _ _ H)). reflexivity.
Qed.

Lemma session_getitem_no_key user_id key s d :
  user_data s !! user_id = Some d -> d !! key = None ->
  session_getitem user_id key s =
    (Raises (Builtin (KeyError (JStr key))), s, []).
Proof.
  intros H Hk. unfold session_getitem.
  rewrite (bind_returns _ _ _ _ _ _ (session_of_some _ _ _ H)).
  rewrite Hk. reflexivity.
Qed.

(** Reading a session either gives the value or raises, and changes
    nothing. *)
Lemma session_getitem_cases user_id key s :
  (exists d v, user_data s !! user_id = Some d /\ d !! key = Some v /\
               session_getitem user_id key s = (Returns v, s, [])) \/
  (exists e, session_getitem user_id key s = (Raises e, s, [])).
Proof.
  destruct (user_data s !! user_id) as [d|] eqn:Hd.
  - destruct (d !! key) as [v|] eqn:Hk.
    + left. exists d, v. split; [reflexivity|]. split; [exact Hk|].
      apply (session_getitem_some _ _ _ d v Hd Hk).
    + right. eexists. apply (session_getitem_no_key _ _ _ d Hd Hk).
  - right. eexists. apply (session_getitem_no_session _ _ _ Hd).
Qed.

Lemma transition_initial_prompt upd s :
  transition (effective_user_id upd) (user_data s) INITIAL_PROMPT
    (handle_initial_prompt upd s).1.1 (user_data (handle_initial_prompt upd s).1.2).
Proof.
  destruct (handle_initial_prompt_spec upd s)
    as (st' & s' & out & -> & [[-> Hud] | [-> [e Hud]]]); cbn [fst snd]; rewrite Hud.
  - apply (prompt_sent _ _ (text (update_message upd)) None).
  - apply (prompt_sent _ _ (text (update_message upd)) (Some e)).
Qed.

Lemma transition_start_image_generation jl st upd s :
  st = REFERENCE_CHOICE \/ st = GENERATING_IMAGE \/ st = ITERATING_IMAGE ->
  transition (effective_user_id upd) (user_data s) st
    (start_image_generation jl upd s).1.1
    (user_data (start_image_generation jl upd s).1.2).
Proof.
  intros Hst.
  destruct (start_image_generation_spec jl upd s) as (s' & out & -> & Hud & _).
  cbn [fst snd]. rewrite Hud. apply generation_run. exact Hst.
Qed.

Lemma transition_prompt_choice upd s :
  transition (effective_user_id upd) (user_data s) CHOOSING_PROMPT
    (handle_prompt_choice upd s).1.1 (user_data (handle_prompt_choice upd s).1.2).
Proof.
  unfold handle_prompt_choice.
  destruct (in_strs (text (update_message upd)) ["1"; "2"; "3"]); cbn [negb].
  2:{ apply choice_invalid. left. reflexivity. }
  destruct (eq_str (text (update_message upd)) "2").
  - destruct (session_getitem_cases (effective_user_id upd) "original_prompt" s)
      as [(d & p & Hd & Hp & E) | [e E]].
    + rewrite (bind_returns _ _ _ _ _ _ E), after_nil.
      unfold bind, modify, set_message_text, raise, after.
      cbn [fst snd user_data set_context_user_data]. apply handler_raised.
    + rewrite (bind_raises _ _ _ _ _ _ E). apply handler_raised.
  - destruct (eq_str (text (update_message upd)) "1").
    + destruct (session_getitem_cases (effective_user_id upd) "enhanced_prompt" s)
        as [(d & v & Hd & Hv & E) | [e E]].
      * rewrite (bind_returns _ _ _ _ _ _ E), after_nil.
        rewrite (bind_returns _ _ _ _ _ _ (session_setitem_some _ _ _ _ _ Hd)), after_nil.
        apply (prompt_chosen _ _ d v Hd). left. exact Hv.
      * rewrite (bind_raises _ _ _ _ _ _ E). apply handler_raised.
    + destruct (session_getitem_cases (effective_user_id upd) "original_prompt" s)
        as [(d & v & Hd & Hv & E) | [e E]].
      * rewrite (bind_returns _ _ _ _ _ _ E), after_nil.
        rewrite (bind_returns _ _ _ _ _ _ (session_setitem_some _ _ _ _ _ Hd)), after_nil.
        apply (prompt_chosen _ _ d v Hd). right. exact Hv.
      * rewrite (bind_raises _ _ _ _ _ _ E). apply handler_raised.
Qed.

Lemma transition_reference_choice jl upd s :
  transition (effective_user_id upd) (user_data s) REFERENCE_CHOICE
    (handle_reference_choice jl upd s).1.1
    (user_data (handle_reference_choice jl upd s).1.2).
Proof.
  unfold handle_reference_choice.
  destruct (in_strs (text (update_message upd)) ["1"; "2"]); cbn [negb].
  2:{ apply choice_invalid. right. left. reflexivity. }
  destruct (eq_str (text (update_message upd)) "1").
  - apply upload_announced.
  - apply transition_start_image_generation. left. reflexivity.
Qed.

Lemma handle_reference_image_lost jl gf upd s :
  (user_data s !! effective_user_id upd = None \/
   exists d, user_data s !! effective_user_id upd = Some d /\
             d !! "final_prompt" = None) ->
  handle_reference_image jl gf upd s =
    (Returns INITIAL_PROMPT, s, [reply_text [Lit lost_prompt_text]]).
Proof.
  intros Hmiss. unfold handle_reference_image. unfold bind at 1. cbn [get_system].
  destruct Hmiss as [Hn | (d & Hd & Hf)].
  - rewrite Hn. reflexivity.
  - rewrite Hd, Hf. reflexivity.
Qed.

(** With a final prompt in the session, the handler stores the last photo
    size and runs the generation, or raises on a photo without sizes. *)
Lemma handle_reference_image_run jl gf upd s d f :
  user_data s !! effective_user_id upd = Some d ->
  d !! "final_prompt" = Some f ->
  handle_reference_image jl gf upd s =
    match last_item (photo (update_message upd)) with
    | Returns file_id =>
        start_image_generation jl upd
          (set_user_data
             (fun ud => <[effective_user_id upd :=
                            <["reference_image" :=
                                JObj [("file_id", JStr file_id);
                                      ("file_path", gf file_id)]]> d]> ud) s)
    | Raises e => (Raises e, s, [])
    end.
Proof.
  intros Hd Hf. unfold handle_reference_image. unfold bind at 1. cbn [get_system].
  rewrite Hd, Hf.
  change (bool_decide (is_Some (Some f))) with true. cbn [negb]. rewrite after_nil.
  destruct (last_item (photo (update_message upd))) as [file_id|e] eqn:Hl.
  - rewrite (bind_returns _ _ s file_id s []) by reflexivity. rewrite after_nil.
    rewrite (bind_returns _ _ _ _ _ _ (session_setitem_some _ _ _ _ _ Hd)), after_nil.
    reflexivity.
  - reflexivity.
Qed.

Lemma transition_reference_image jl gf upd s :
  transition (effective_user_id upd) (user_data s) AWAITING_REFERENCE
    (handle_reference_image jl gf upd s).1.1
    (user_data (handle_reference_image jl gf upd s).1.2).
Proof.
  destruct (user_data s !! effective_user_id upd) as [d|] eqn:Hd.
  2:{ rewrite handle_reference_image_lost by (left; exact Hd).
      apply prompt_lost. left. exact Hd. }
  destruct (d !! "final_prompt") as [f|] eqn:Hf.
  2:{ rewrite handle_reference_image_lost by (right; exists d; split; assumption).
      apply prompt_lost. right. exists d. split; assumption. }
  rewrite (handle_reference_image_run jl gf upd s d f Hd Hf).
  destruct (last_item (photo (update_message upd))) as [file_id|e] eqn:Hl.
  2:{ apply handler_raised. }
  match goal with
  | |- context [start_image_generation jl upd ?s1] =>
      destruct (start_image_generation_spec jl upd s1) as (s' & out & -> & Hud & _)
  end.
  cbn [fst snd]. rewrite Hud. cbn [user_data set_user_data].
  apply (reference_stored _ _ d file_id (gf file_id) Hd). eexists; exact Hf.
Qed.

Lemma transition_image_iteration jl upd s :
  transition (effective_user_id upd) (user_data s) ITERATING_IMAGE
    (handle_image_iteration jl upd s).1.1
    (user_data (handle_image_iteration jl upd s).1.2).
Proof.
  unfold handle_image_iteration.
  destruct (in_strs (text (update_message upd)) ["1"; "2"]); cbn [negb].
  2:{ apply choice_invalid. right. right. reflexivity. }
  destruct (eq_str (text (update_message upd)) "1").
  - apply transition_start_image_generation. right. right. reflexivity.
  - destruct (user_data s !! effective_user_id upd) as [d|] eqn:Hd.
    + rewrite (bind_returns _ _ _ _ _ _ (session_of_some _ _ _ Hd)), after_nil.
      apply (prompt_reset _ _ d Hd).
    + rewrite (bind_raises _ _ _ _ _ _ (session_of_none _ _ Hd)). apply handler_raised.
Qed.

(** Every handler that [main] registers for a state acts as one of the
    transitions of [transition]. *)
Lemma state_handler_transition jl gf st m h user_id s :
  state_handler jl gf st m = Some h ->
  transition user_id (user_data s) st
    (h (update_of user_id m) s).1.1 (user_data (h (update_of user_id m) s).1.2).
Proof.
  intros Hh.
  destruct st, m; cbn [state_handler] in Hh; try discriminate; injection Hh as <-.
  - apply (transition_initial_prompt (update_of user_id (TextMessage t))).
  - apply (transition_prompt_choice (update_of user_id (TextMessage t))).
  - apply (transition_reference_choice jl (update_of user_id (TextMessage t))).
  - apply (transition_reference_image jl gf (update_of user_id (PhotoMessage sizes))).
  - apply (transition_start_image_generation jl _ (update_of user_id (TextMessage t))).
    right. left. reflexivity.
  - apply (transition_start_image_generation jl _ (update_of user_id (PhotoMessage sizes))).
    right. left. reflexivity.
  - apply (transition_start_image_generation jl _ (update_of user_id OtherMessage)).
    right. left. reflexivity.
  - apply (transition_image_iteration jl (update_of user_id (TextMessage t))).
Qed.

(** ** One update, seen from outside *)

(** An edit of a message changes nothing and is not answered: whatever
    callback it selects raises at once. *)
Lemma process_update_edited jl gf chat_id user_id c a :
  process_update jl gf chat_id user_id (EditedMessage c) a = (a, []).
Proof.
  unfold process_update. cbv zeta. cbn [effective_message callback].
  destruct a as [conv s]; cbn [conversations sys].
  destruct (conv !! (chat_id, user_id)) as [st|].
  - destruct (state_handler jl gf st c); [reflexivity|].
    destruct c as [name| | | ]; try reflexivity.
    destruct (String.eqb name "cancel"); reflexivity.
  - destruct c as [name| | | ]; try reflexivity.
    destruct (String.eqb name "start"); reflexivity.
Qed.

Lemma process_update_step jl gf chat_id user_id m a :
  app_step chat_id user_id a (process_update jl gf chat_id user_id m a).1.
Proof.
  destruct m as [c|c].
  2:{ rewrite process_update_edited. apply step_ignored. reflexivity. }
  unfold process_update. cbv zeta. cbn [effective_message callback].
  destruct (conversations a !! (chat_id, user_id)) as [st|] eqn:Hst.
  - destruct (state_handler jl gf st c) as [h|] eqn:Hh.
    + pose proof (state_handler_transition jl gf st c h user_id (sys a) Hh) as Ht.
      destruct (h (update_of user_id c) (sys a)) as [[[st'|e] s'] out];
        cbn [fst snd] in *.
      * apply (step_handled _ _ _ _ st (Returns st') Hst); [exact Ht|reflexivity].
      * apply (step_handled _ _ _ _ st (Raises e) Hst); [exact Ht|reflexivity].
    + destruct c as [name| | | ]; try (apply step_ignored; reflexivity).
      destruct (String.eqb name "cancel"); [|apply step_ignored; reflexivity].
      apply step_cancelled; reflexivity.
  - destruct c as [name| | | ]; try (apply step_ignored; reflexivity).
    destruct (String.eqb name "start"); [|apply step_ignored; reflexivity].
    apply step_started; [exact Hst|reflexivity|reflexivity].
Qed.

Lemma transition_successor user_id ud st st' ud' :
  transition user_id ud st (Returns st') ud' -> In st' (st :: successors st).
Proof.
  intros Ht. inversion Ht; subst; cbn [successors In];
    try match goal with
        | e : option json |- _ => destruct e; cbn [after_refinement]
        end;
    try match goal with
        | H : _ \/ _ |- _ => destruct H as [-> | [-> | ->]]; cbn [successors In]
        end;
    tauto.
Qed.

(** X9.  A conversation moves along the edges that the return statements of
    the registered handlers draw: after any update a conversation in state
    [st] is still in [st] or in one of [successors st], and it ends on
    [/cancel] only. *)
Theorem conversation_moves_along_edges jl gf chat_id user_id m a st :
  conversations a !! (chat_id, user_id) = Some st ->
  match conversations (process_update jl gf chat_id user_id m a).1 !! (chat_id, user_id) with
  | Some st' => In st' (st :: successors st)
  | None => m = Message (Command "cancel")
  end.
Proof.
  intros Hst.
  assert (Hsame : match conversations a !! (chat_id, user_id) with
                  | Some st' => In st' (st :: successors st)
                  | None => m = Message (Command "cancel")
                  end) by (rewrite Hst; left; reflexivity).
  destruct m as [c|c].
  2:{ rewrite process_update_edited. exact Hsame. }
  unfold process_update. cbv zeta. cbn [effective_message callback]. rewrite Hst.
  destruct (state_handler jl gf st c) as [h|] eqn:Hh.
  - pose proof (state_handler_transition jl gf st c h user_id (sys a) Hh) as Ht.
    destruct (h (update_of user_id c) (sys a)) as [[[st'|e] s'] out];
      cbn [fst snd conversations] in *.
    + rewrite lookup_insert_eq. exact (transition_successor _ _ _ _ _ Ht).
    + rewrite Hst. left. reflexivity.
  - destruct c as [name| | | ]; try exact Hsame.
    destruct (String.eqb name "cancel") eqn:Hn; [|exact Hsame].
    apply String.eqb_eq in Hn. subst name.
    unfold cancel, emit. cbn [fst snd conversations].
    rewrite lookup_delete_eq. reflexivity.
Qed.

(** A transition writes to the session of its user only. *)
Lemma transition_frame user_id ud st r ud' other :
  transition user_id ud st r ud' -> other <> user_id -> ud' !! other = ud !! other.
Proof.
  intros Ht Hne.
  destruct Ht; try reflexivity; apply lookup_insert_ne; congruence.
Qed.

(** X10.  Handling an update of one user changes neither the conversation
    state, in any chat, nor the session of any other user. *)
Theorem other_users_untouched jl gf chat_id user_id m a other :
  other <> user_id ->
  (forall c, conversations (process_update jl gf chat_id user_id m a).1 !! (c, other) =
             conversations a !! (c, other)) /\
  user_data (sys (process_update jl gf chat_id user_id m a).1) !! other =
    user_data (sys a) !! other.
Proof.
  intros Hne.
  destruct (process_update_step jl gf chat_id user_id m a)
    as [-> | Hn Hc Hu | Hc Hu | st r Hst Ht Hc].
  - split; reflexivity.
  - rewrite Hc, Hu. split; [intros c; apply lookup_insert_ne; congruence|reflexivity].
  - rewrite Hc, Hu. split; [intros c; apply lookup_delete_ne; congruence|reflexivity].
  - split.
    + intros c. rewrite Hc. destruct r; [apply lookup_insert_ne; congruence|reflexivity].
    + apply (transition_frame _ _ _ _ _ other Ht Hne).
Qed.

(** ** The shape of the sessions, kept *)

Lemma well_formed_prompt_session v enhanced : well_formed (prompt_session v enhanced).
Proof.
  destruct enhanced as [e|]; cbn [prompt_session]; split.
  - eexists. rewrite lookup_insert_ne by discriminate. apply lookup_singleton_eq.
  - intros k [x Hk]. apply lookup_insert_Some in Hk as [[<- _]|[_ Hk]].
    + right. left. reflexivity.
    + apply lookup_singleton_Some in Hk as [<- _]. left. reflexivity.
  - intros x Hx. rewrite lookup_insert_ne in Hx by discriminate.
    apply lookup_singleton_Some in Hx as [Hx _]. discriminate Hx.
  - intros [x Hx]. rewrite lookup_insert_ne in Hx by discriminate.
    apply lookup_singleton_Some in Hx as [Hx _]. discriminate Hx.
  - eexists. apply lookup_singleton_eq.
  - intros k [x Hk]. apply lookup_singleton_Some in Hk as [<- _]. left. reflexivity.
  - intros x Hx. apply lookup_singleton_Some in Hx as [Hx _]. discriminate Hx.
  - intros [x Hx]. apply lookup_singleton_Some in Hx as [Hx _]. discriminate Hx.
Qed.

Lemma well_formed_chosen d v :
  well_formed d ->
  d !! "enhanced_prompt" = Some v \/ d !! "original_prompt" = Some v ->
  well_formed (<["final_prompt" := v]> d).
Proof.
  intros [Ho Hk Hf Hr] Hv. split.
  - rewrite lookup_insert_ne by discriminate. exact Ho.
  - intros k [x Hx]. apply lookup_insert_Some in Hx as [[<- _]|[_ Hx]].
    + right. right. left. reflexivity.
    + apply Hk. eexists; exact Hx.
  - intros x Hx. rewrite lookup_insert_eq in Hx. injection Hx as <-.
    rewrite !lookup_insert_ne by discriminate. exact Hv.
  - intros _. eexists. apply lookup_insert_eq.
Qed.

Lemma well_formed_reference d x :
  well_formed d -> is_Some (d !! "final_prompt") ->
  well_formed (<["reference_image" := x]> d).
Proof.
  intros [Ho Hk Hf Hr] Hfin. split.
  - rewrite lookup_insert_ne by discriminate. exact Ho.
  - intros k [y Hy]. apply lookup_insert_Some in Hy as [[<- _]|[_ Hy]].
    + right. right. right. left. reflexivity.
    + apply Hk. eexists; exact Hy.
  - intros y Hy. rewrite lookup_insert_ne in Hy by discriminate.
    rewrite !lookup_insert_ne by discriminate. apply Hf. exact Hy.
  - intros _. rewrite lookup_insert_ne by discriminate. exact Hfin.
Qed.

Lemma state_shape_after_refinement v enhanced :
  state_shape (after_refinement enhanced) (Some (prompt_session v enhanced)).
Proof.
  destruct enhanced as [e|]; cbn [after_refinement state_shape prompt_session];
    [|exact I].
  eexists. split; [reflexivity|]. split; [eexists; apply lookup_insert_eq|].
  split; rewrite lookup_insert_ne by discriminate; apply lookup_singleton_ne; discriminate.
Qed.

(** Writing one session keeps every session well formed when the new one
    is. *)
Lemma well_formed_insert (ud : gmap Z (gmap string json)) user_id d' :
  (forall u d, ud !! u = Some d -> well_formed d) ->
  well_formed d' ->
  forall u d, <[user_id := d']> ud !! u = Some d -> well_formed d.
Proof.
  intros Hall Hd' u d Hu.
  apply lookup_insert_Some in Hu as [[_ <-]|[_ Hu]]; [exact Hd'|].
  apply (Hall u d Hu).
Qed.

(** The sessions stay well formed under every transition. *)
Lemma transition_well_formed user_id ud st r ud' :
  transition user_id ud st r ud' ->
  (forall u d, ud !! u = Some d -> well_formed d) ->
  forall u d, ud' !! u = Some d -> well_formed d.
Proof.
  intros Ht Hall.
  destruct Ht as [st e | v enhanced | d v Hd Hv | st Hc |
                  | st Hg | Hl | d file_id path Hd Hfin | d Hd]; try exact Hall.
  - apply well_formed_insert; [exact Hall|apply well_formed_prompt_session].
  - apply well_formed_insert; [exact Hall|].
    apply well_formed_chosen; [apply (Hall _ _ Hd)|exact Hv].
  - apply well_formed_insert; [exact Hall|].
    apply well_formed_reference; [apply (Hall _ _ Hd)|exact Hfin].
  - apply well_formed_insert; [exact Hall|].
    apply (well_formed_prompt_session _ None).
Qed.

(** No transition removes a session, none leads to [GENERATING_IMAGE], and
    past [INITIAL_PROMPT] the user has a session. *)
Lemma transition_kept user_id ud st r ud' :
  transition user_id ud st r ud' ->
  (forall u, is_Some (ud !! u) -> is_Some (ud' !! u)) /\
  (st <> GENERATING_IMAGE ->
   (st <> INITIAL_PROMPT -> is_Some (ud !! user_id)) ->
   match r with Returns st' => st' | Raises _ => st end <> GENERATING_IMAGE /\
   (match r with Returns st' => st' | Raises _ => st end <> INITIAL_PROMPT ->
    is_Some (ud' !! user_id))).
Proof.
  intros Ht.
  assert (Hgrow : forall d' u, is_Some (ud !! u) -> is_Some (<[user_id := d']> ud !! u)).
  { intros d' u Hu. destruct (decide (u = user_id)) as [->|Hne].
    - rewrite lookup_insert_eq. eexists; reflexivity.
    - rewrite lookup_insert_ne by congruence. exact Hu. }
  destruct Ht as [st e | v enhanced | d v Hd Hv | st Hc |
                  | st Hg | Hl | d file_id path Hd Hfin | d Hd];
    (split; [try (intros u Hu; exact Hu); try (apply Hgrow)|]); intros Hng Hs.
  - split; assumption.
  - split; [destruct enhanced; discriminate|].
    intros _. rewrite lookup_insert_eq. eexists; reflexivity.
  - split; [discriminate|]. intros _. rewrite lookup_insert_eq. eexists; reflexivity.
  - split; assumption.
  - split; [discriminate|]. intros _. apply Hs. discriminate.
  - split; [discriminate|]. intros _. apply Hs.
    destruct Hg as [-> | [-> | ->]]; discriminate.
  - split; [discriminate|]. intros H. contradiction H. reflexivity.
  - split; [discriminate|]. intros _. rewrite lookup_insert_eq. eexists; reflexivity.
  - split; [discriminate|]. intros H. contradiction H. reflexivity.
Qed.

(** For the user of the transition, state and session stay fit. *)
Lemma transition_state_shape user_id ud st r ud' :
  transition user_id ud st r ud' ->
  state_shape st (ud !! user_id) ->
  state_shape (match r with Returns st' => st' | Raises _ => st end) (ud' !! user_id).
Proof.
  intros Ht Hst.
  destruct Ht as [st e | v enhanced | d v Hd Hv | st Hc |
                  | st Hg | Hl | d file_id path Hd Hfin | d Hd].
  - exact Hst.
  - rewrite lookup_insert_eq. apply state_shape_after_refinement.
  - destruct Hst as (d0 & Hd0 & He & Hf & Hr). rewrite Hd in Hd0. injection Hd0 as <-.
    rewrite lookup_insert_eq. eexists. split; [reflexivity|].
    split; [eexists; apply lookup_insert_eq|].
    rewrite lookup_insert_ne by discriminate. exact Hr.
  - exact Hst.
  - exact Hst.
  - destruct Hg as [-> | [-> | ->]]; cbn [state_shape] in *.
    + destruct Hst as (d & Hd & Hf & _). eauto.
    + destruct Hst.
    + exact Hst.
  - exact I.
  - destruct Hst as (d0 & Hd0 & Hf & Hr). rewrite Hd in Hd0. injection Hd0 as <-.
    rewrite lookup_insert_eq. eexists. split; [reflexivity|].
    rewrite lookup_insert_ne by discriminate. exact Hf.
  - exact I.
Qed.

Lemma shaped_step chat_id user_id a a' :
  app_step chat_id user_id a a' -> shaped a -> shaped a'.
Proof.
  intros [-> | Hn Hc Hu | Hc Hu | st r Hst Ht Hc] [Hwf Hsh]; [split; assumption| | |].
  - split; [rewrite Hu; exact Hwf|].
    intros c u st0 H0. rewrite Hc in H0. rewrite Hu.
    apply lookup_insert_Some in H0 as [[_ <-]|[_ H0]]; [|apply (Hsh _ _ _ H0)].
    split; [discriminate|]. intros H. contradiction H. reflexivity.
  - split; [rewrite Hu; exact Hwf|].
    intros c u st0 H0. rewrite Hc in H0. rewrite Hu.
    apply lookup_delete_Some in H0 as [_ H0]. apply (Hsh _ _ _ H0).
  - split; [exact (transition_well_formed _ _ _ _ _ Ht Hwf)|].
    destruct (transition_kept _ _ _ _ _ Ht) as [Hgrow Hkept].
    destruct (Hsh _ _ _ Hst) as [Hng Hs]. specialize (Hkept Hng Hs).
    intros c u st0 H0. rewrite Hc in H0.
    destruct (decide ((c, u) = (chat_id, user_id))) as [Heq|Hne].
    + injection Heq as -> ->. destruct r as [st'|e].
      * rewrite lookup_insert_eq in H0. injection H0 as <-. exact Hkept.
      * rewrite Hst in H0. injection H0 as <-. exact Hkept.
    + assert (H1 : conversations a !! (c, u) = Some st0).
      { destruct r; [rewrite lookup_insert_ne in H0 by congruence|]; exact H0. }
      destruct (Hsh _ _ _ H1) as [Hng1 Hs1].
      split; [exact Hng1|]. intros Hi. apply Hgrow, Hs1, Hi.
Qed.

Lemma reachable_shaped jl gf a : reachable jl gf a -> shaped a.
Proof.
  induction 1 as [|a chat_id user_id m answers _ IH].
  - split.
    + intros u d H. unfold fresh in H. cbn [sys user_data] in H.
      rewrite lookup_empty in H. discriminate H.
    + intros c u st H. unfold fresh in H. cbn [conversations] in H.
      rewrite lookup_empty in H. discriminate H.
  - apply (shaped_step chat_id user_id (with_answers answers a)).
    + apply process_update_step.
    + exact IH.
Qed.

(** ** One chat *)

Lemma reachable_when_reachable jl gf allowed a :
  reachable_when jl gf allowed a -> reachable jl gf a.
Proof.
  induction 1 as [|a chat_id user_id m answers _ IH _].
  - apply reachable_fresh.
  - apply reachable_step. exact IH.
Qed.

Lemma settled_step home user_id chat_id sender a a' :
  app_step chat_id sender a a' ->
  (sender = user_id -> chat_id = home) ->
  settled home user_id a -> settled home user_id a'.
Proof.
  intros [-> | Hn Hc Hu | Hc Hu | st r Hst Ht Hc] Hone Hs; [exact Hs| | |];
    intros st0 H0; rewrite Hc in H0.
  - rewrite Hu. apply lookup_insert_Some in H0 as [[_ <-]|[_ H0]]; [exact I|apply Hs, H0].
  - rewrite Hu. apply lookup_delete_Some in H0 as [_ H0]. apply Hs, H0.
  - destruct (decide (sender = user_id)) as [->|Hne].
    + rewrite (Hone eq_refl) in *.
      pose proof (transition_state_shape _ _ _ _ _ Ht (Hs _ Hst)) as Hshape.
      destruct r as [st'|e].
      * rewrite lookup_insert_eq in H0. injection H0 as <-. exact Hshape.
      * rewrite Hst in H0. injection H0 as <-. exact Hshape.
    + rewrite (transition_frame _ _ _ _ _ user_id Ht) by congruence.
      apply Hs. destruct r; [rewrite lookup_insert_ne in H0 by congruence|]; exact H0.
Qed.

(** A user who writes in one chat has, in every state, a session that fits
    it. *)
Lemma reachable_when_settled jl gf allowed home user_id a :
  (forall c u w, allowed c u w -> one_chat home user_id c u w) ->
  reachable_when jl gf allowed a -> settled home user_id a.
Proof.
  intros Hsub. induction 1 as [|a chat_id sender m answers _ IH Hal].
  - intros st H. unfold fresh in H. cbn [conversations] in H.
    rewrite lookup_empty in H. discriminate H.
  - apply (settled_step home user_id chat_id sender (with_answers answers a)).
    + apply process_update_step.
    + exact (Hsub _ _ _ Hal).
    + exact IH.
Qed.

(** ** The prompts are strings *)

(** What [handle_initial_prompt] stores: the text as original prompt, and
    beside it an enhanced prompt only when the service answered with one. *)
Lemma handle_initial_prompt_stores upd s :
  exists enhanced,
    (handle_initial_prompt upd s).1.1 = Returns (after_refinement enhanced) /\
    user_data (handle_initial_prompt upd s).1.2 =
      <[effective_user_id upd := prompt_session (text (update_message upd)) enhanced]>
        (user_data s) /\
    forall e, enhanced = Some e ->
              exists a rest, remote s = a :: rest /\ refinement_succeeded a e.
Proof.
  destruct upd as [uid [txt ph]], s as [ud cud w].
  unfold handle_initial_prompt, session_assign. mrun.
  destruct w as [|[[c t b]|] w];
    try solve [mrun; exists None; split; [reflexivity|]; split; [reflexivity|];
               intros ? H; discriminate H].
  destruct (Z.eqb c 200) eqn:Hc; mrun.
  - destruct b as [[ | | | | | |body]|];
      try solve [mrun; exists None; split; [reflexivity|]; split; [reflexivity|];
                 intros ? H; discriminate H].
    mrun. destruct (assoc "promptGeneration" body) as [[ | | | | | |generation]|] eqn:Hpg;
      try solve [mrun; exists None; split; [reflexivity|]; split; [reflexivity|];
                 intros ? H; discriminate H].
    mrun. destruct (assoc "prompt" generation) as [enhanced|] eqn:Hp;
      try solve [mrun; exists None; split; [reflexivity|]; split; [reflexivity|];
                 intros ? H; discriminate H].
    mrun.
    erewrite (bind_returns (session_setitem uid "enhanced_prompt" enhanced));
      [|apply session_setitem_some; apply lookup_insert_eq].
    mrun. exists (Some enhanced). split; [reflexivity|]. split.
    + cbn [user_data set_user_data prompt_session]. apply insert_insert_eq.
    + intros e He. injection He as <-. eexists _, _. split; [reflexivity|].
      eexists _, body, generation. split; [reflexivity|].
      cbn [status_code json_body]. apply Z.eqb_eq in Hc.
      repeat split; assumption || reflexivity.
  - destruct b as [[ | | | | | |body]|];
      try solve [mrun; exists None; split; [reflexivity|]; split; [reflexivity|];
                 intros ? H; discriminate H].
    mrun.
    destruct (match assoc "error" body with Some v => v | None => JStr "Unknown error" end)
      as [ | | | |msg| | ];
      try solve [cbn [lower]; mrun; exists None; split; [reflexivity|];
                 split; [reflexivity|]; intros ? H; discriminate H].
    cbn [lower]. mrun.
    destruct (contains "too long" (lower_string msg));
      mrun; exists None; (split; [reflexivity|]); (split; [reflexivity|]);
      intros ? H; discriminate H.
Qed.

Lemma text_prompts_prompt_session v enhanced :
  is_text v -> (forall e, enhanced = Some e -> is_text e) ->
  text_prompts (prompt_session v enhanced).
Proof.
  intros Hv He k x _ Hx. destruct enhanced as [e|]; cbn [prompt_session] in Hx.
  - apply lookup_insert_Some in Hx as [[_ <-]|[_ Hx]]; [apply He; reflexivity|].
    apply lookup_singleton_Some in Hx as [_ <-]. exact Hv.
  - apply lookup_singleton_Some in Hx as [_ <-]. exact Hv.
Qed.

Lemma text_prompts_insert (ud : gmap Z (gmap string json)) user_id d' :
  (forall u d, ud !! u = Some d -> text_prompts d) ->
  text_prompts d' ->
  forall u d, <[user_id := d']> ud !! u = Some d -> text_prompts d.
Proof.
  intros Hall Hd' u d Hu.
  apply lookup_insert_Some in Hu as [[_ <-]|[_ Hu]]; [exact Hd'|].
  apply (Hall u d Hu).
Qed.

(** Past [INITIAL_PROMPT] the handlers store no prompt but one that is in
    the session already. *)
Lemma transition_text user_id ud st r ud' :
  transition user_id ud st r ud' ->
  st <> INITIAL_PROMPT ->
  (forall u d, ud !! u = Some d -> text_prompts d) ->
  forall u d, ud' !! u = Some d -> text_prompts d.
Proof.
  intros Ht Hst Hall.
  destruct Ht as [st e | v enhanced | d v Hd Hv | st Hc |
                  | st Hg | Hl | d file_id path Hd Hfin | d Hd]; try exact Hall.
  - contradiction Hst. reflexivity.
  - apply text_prompts_insert; [exact Hall|].
    intros k x Hk Hx. apply lookup_insert_Some in Hx as [[_ <-]|[_ Hx]].
    + destruct Hv as [Hv|Hv]; apply (Hall _ _ Hd _ _) in Hv; try exact Hv;
        cbn [In]; tauto.
    + apply (Hall _ _ Hd k x Hk Hx).
  - apply text_prompts_insert; [exact Hall|].
    intros k x Hk Hx. apply lookup_insert_Some in Hx as [[<- _]|[_ Hx]].
    + cbn [In] in Hk. destruct Hk as [H|[H|[H|[]]]]; discriminate H.
    + apply (Hall _ _ Hd k x Hk Hx).
  - apply text_prompts_insert; [exact Hall|].
    intros k x Hk Hx. apply lookup_singleton_Some in Hx as [<- <-].
    destruct (d !! "original_prompt") as [v|] eqn:Hv; cbn [default from_option id].
    + apply (Hall _ _ Hd "original_prompt" v); [cbn [In]; tauto|exact Hv].
    + eexists; reflexivity.
Qed.

Lemma all_text_process_update jl gf chat_id user_id m a answers :
  Forall text_prompt answers ->
  all_text a ->
  all_text (process_update jl gf chat_id user_id m (with_answers answers a)).1.
Proof.
  intros Hans Hall.
  assert (Hall' : all_text (with_answers answers a)) by exact Hall.
  destruct m as [c|c]; [|rewrite process_update_edited; exact Hall'].
  unfold process_update. cbv zeta. cbn [effective_message callback].
  destruct (conversations (with_answers answers a) !! (chat_id, user_id)) as [st|].
  - destruct (state_handler jl gf st c) as [h|] eqn:Hh.
    + assert (Hnew : forall u d,
                 user_data (h (update_of user_id c) (sys (with_answers answers a))).1.2
                   !! u = Some d -> text_prompts d).
      { assert (Hdec : st = INITIAL_PROMPT \/ st <> INITIAL_PROMPT)
          by (destruct st; (left; reflexivity) || (right; discriminate)).
        destruct Hdec as [->|Hne].
        - destruct c; cbn [state_handler] in Hh; try discriminate Hh.
          injection Hh as <-.
          destruct (handle_initial_prompt_stores (update_of user_id (TextMessage t))
                      (sys (with_answers answers a))) as (enhanced & _ & E & He).
          rewrite E. apply text_prompts_insert; [exact Hall'|].
          apply text_prompts_prompt_session.
          + eexists; reflexivity.
          + intros e Hen. destruct (He e Hen) as (a0 & rest & Hr & Hs).
            cbn [with_answers sys remote set_remote] in Hr. subst answers.
            apply List.Forall_cons_iff in Hans as [Ha0 _]. exact (Ha0 e Hs).
        - apply (transition_text user_id _ st _ _
                   (state_handler_transition jl gf st c h user_id _ Hh) Hne Hall'). }
      destruct (h (update_of user_id c) (sys (with_answers answers a)))
        as [[[st'|e] s'] out]; exact Hnew.
    + destruct c as [name| | | ]; try exact Hall'.
      destruct (String.eqb name "cancel"); exact Hall'.
  - destruct c as [name| | | ]; try exact Hall'.
    destruct (String.eqb name "start"); exact Hall'.
Qed.

Lemma reachable_when_all_text jl gf allowed a :
  (forall c u w, allowed c u w -> Forall text_prompt w) ->
  reachable_when jl gf allowed a -> all_text a.
Proof.
  intros Hsub. induction 1 as [|a chat_id sender m answers _ IH Hal].
  - intros u d H. unfold fresh in H. cbn [sys user_data] in H.
    rewrite lookup_empty in H. discriminate H.
  - apply all_text_process_update; [exact (Hsub _ _ _ Hal)|exact IH].
Qed.

(** ** The claims about the sessions *)

(** C1, as amended.  For a user who writes to the bot in one chat, with a
    prompt service whose answers carry strings: in everything the bot can
    be brought to from a fresh start, while the user's conversation is in
    [REFERENCE_CHOICE], [AWAITING_REFERENCE], [GENERATING_IMAGE] or
    [ITERATING_IMAGE], the user's session has a final prompt, a string,
    which is the enhanced or the original prompt of that session. *)
Theorem final_prompt_defined jl gf a home user_id st :
  reachable_when jl gf (one_chat_and_text home user_id) a ->
  conversations a !! (home, user_id) = Some st ->
  In st [REFERENCE_CHOICE; AWAITING_REFERENCE; GENERATING_IMAGE; ITERATING_IMAGE] ->
  exists d p,
    user_data (sys a) !! user_id = Some d /\
    d !! "final_prompt" = Some (JStr p) /\
    (d !! "enhanced_prompt" = Some (JStr p) \/ d !! "original_prompt" = Some (JStr p)).
Proof.
  intros Hr Hst Hin.
  pose proof (reachable_when_settled jl gf _ home user_id a
                (fun _ _ _ H => proj1 H) Hr st Hst) as Hshape.
  pose proof (reachable_when_all_text jl gf _ a (fun _ _ _ H => proj2 H) Hr) as Htext.
  destruct (reachable_shaped jl gf a (reachable_when_reachable jl gf _ a Hr)) as [Hwf _].
  assert (Hd : exists d, user_data (sys a) !! user_id = Some d /\
                         is_Some (d !! "final_prompt")).
  { destruct st; cbn [In] in Hin; cbn [state_shape] in Hshape;
      try (exfalso; intuition discriminate); try contradiction.
    - destruct Hshape as (d & Hd & Hf & _). exists d; split; assumption.
    - destruct Hshape as (d & Hd & Hf & _). exists d; split; assumption.
    - destruct Hshape as (d & Hd & Hf). exists d; split; assumption. }
  destruct Hd as (d & Hd & [v Hv]).
  destruct (Htext _ _ Hd "final_prompt" v) as [p ->]; [cbn [In]; tauto|exact Hv|].
  exists d, p. split; [exact Hd|]. split; [exact Hv|].
  apply (wf_final d (Hwf _ _ Hd)). exact Hv.
Qed.

(** C6.  Wherever the bot has been brought to, a user in [ITERATING_IMAGE]
    who answers 2 is taken to [INITIAL_PROMPT] with a session that holds the
    original prompt it held before and nothing else: no enhanced prompt, no
    final prompt, no reference image, no generated images. *)
Theorem modify_prompt_resets jl gf a chat_id user_id :
  reachable jl gf a ->
  conversations a !! (chat_id, user_id) = Some ITERATING_IMAGE ->
  exists d d' a',
    user_data (sys a) !! user_id = Some d /\
    process_update jl gf chat_id user_id (TextMessage "2") a =
      (a', [reply_text [Lit new_prompt_text]]) /\
    conversations a' !! (chat_id, user_id) = Some INITIAL_PROMPT /\
    user_data (sys a') !! user_id = Some d' /\
    is_Some (d !! "original_prompt") /\
    d' !! "original_prompt" = d !! "original_prompt" /\
    d' !! "enhanced_prompt" = None /\
    d' !! "final_prompt" = None /\
    d' !! "reference_image" = None /\
    d' !! "generated_images" = None.
Proof.
  intros Hr Hst.
  destruct (reachable_shaped jl gf a Hr) as [Hwf Hsh].
  destruct (Hsh _ _ _ Hst) as [_ Hs].
  destruct Hs as [d Hd]; [discriminate|].
  destruct (wf_original d (Hwf _ _ Hd)) as [p Hp].
  exists d, {[ "original_prompt" := p ]}. eexists.
  split; [exact Hd|]. split.
  - unfold process_update. cbv zeta. rewrite Hst.
    cbn [state_handler effective_message callback].
    rewrite (handle_image_iteration_modify jl (update_of user_id (TextMessage "2"))
               (sys a) d eq_refl Hd).
    rewrite Hp. reflexivity.
  - cbn [conversations sys user_data set_user_data update_of effective_user_id default].
    rewrite !lookup_insert_eq, Hp.
    repeat split; try reflexivity. eexists; reflexivity.
Qed.

(** X11.  No conversation is ever in [GENERATING_IMAGE]: no registered
    handler returns that state, so the handler registered for it never
    runs. *)
Theorem generating_image_unreachable jl gf a chat_id user_id :
  reachable jl gf a ->
  conversations a !! (chat_id, user_id) <> Some GENERATING_IMAGE.
Proof.
  intros Hr H. destruct (reachable_shaped jl gf a Hr) as [_ Hsh].
  destruct (Hsh _ _ _ H) as [Hng _]. apply Hng. reflexivity.
Qed.

(** X12.  Every session the bot ever stores holds an original prompt and
    nothing beyond the original, enhanced and final prompt and the
    reference image; in particular no generated image is ever stored. *)
Theorem sessions_hold_known_keys jl gf a user_id d :
  reachable jl gf a ->
  user_data (sys a) !! user_id = Some d ->
  is_Some (d !! "original_prompt") /\
  (forall k, is_Some (d !! k) -> In k session_keys) /\
  d !! "generated_images" = None.
Proof.
  intros Hr Hd. destruct (reachable_shaped jl gf a Hr) as [Hwf _].
  destruct (Hwf user_id d Hd) as [Ho Hk _ _].
  split; [exact Ho|]. split; [exact Hk|].
  destruct (d !! "generated_images") as [x|] eqn:Hx; [|reflexivity].
  exfalso. assert (Hin : In "generated_images" session_keys)
    by (apply Hk; rewrite Hx; eexists; reflexivity).
  cbn [session_keys In] in Hin.
  destruct Hin as [H|[H|[H|[H|[]]]]]; discriminate H.
Qed.

(** X13.  A final prompt in a session is always the enhanced prompt or the
    original prompt of that same session, and a session with a reference
    image has a final prompt. *)
Theorem final_prompt_is_a_prompt jl gf a user_id d :
  reachable jl gf a ->
  user_data (sys a) !! user_id = Some d ->
  (forall v, d !! "final_prompt" = Some v ->
             d !! "enhanced_prompt" = Some v \/ d !! "original_prompt" = Some v) /\
  (is_Some (d !! "reference_image") -> is_Some (d !! "final_prompt")).
Proof.
  intros Hr Hd. destruct (reachable_shaped jl gf a Hr) as [Hwf _].
  destruct (Hwf user_id d Hd) as [_ _ Hf Href]. split; assumption.
Qed.

(** ** Which generation runs, and how it is reported *)

Lemma generate_image_returns prompt msg s :
  exists r s' o, generate_image prompt msg s = (Returns r, s', o).
Proof. unfold generate_image. apply try_except_ret_returns. Qed.

Lemma generate_image_with_reference_returns jl prompt image_url msg s :
  exists r s' o,
    generate_image_with_reference jl prompt image_url msg s = (Returns r, s', o).
Proof. unfold generate_image_with_reference. apply try_except_ret_returns. Qed.

Lemma report_run r s :
  match r with
  | status_success image_url =>
      bind (emit (reply_photo image_url [Lit photo_caption])) (fun _ => ret ITERATING_IMAGE)
  | status_error _ =>
      bind (emit (reply_text [Lit generation_error_text])) (fun _ => ret ITERATING_IMAGE)
  end s = (Returns ITERATING_IMAGE, s, [report r]).
Proof. destruct r; reflexivity. Qed.

Lemma start_image_generation_scratch jl upd s d v :
  user_data s !! effective_user_id upd = Some d ->
  d !! "reference_image" = None ->
  d !! "final_prompt" = Some v ->
  exists r s' o,
    generate_image v (update_message upd) s = (Returns r, s', o) /\
    start_image_generation jl upd s = (Returns ITERATING_IMAGE, s', o ++ [report r]).
Proof.
  intros Hd Hr Hf.
  destruct (generate_image_returns v (update_message upd) s) as (r & s' & o & E).
  exists r, s', o. split; [exact E|].
  unfold start_image_generation, session_get_or_empty.
  rewrite (bind_returns _ _ s (default ∅ (user_data s !! effective_user_id upd)) s [])
    by reflexivity.
  rewrite after_nil, Hd. cbn [default from_option id]. rewrite Hr.
  destruct (decide (is_Some (@None json))) as [[? Hx]|_]; [discriminate|].
  unfold dict_getitem. rewrite Hf.
  apply try_except_returns.
  erewrite bind_returns.
  2:{ rewrite (bind_returns _ _ s v s []) by reflexivity. rewrite after_nil. exact E. }
  rewrite report_run. reflexivity.
Qed.

Lemma start_image_generation_reference jl upd s d v members path :
  user_data s !! effective_user_id upd = Some d ->
  d !! "reference_image" = Some (JObj members) ->
  assoc "file_path" members = Some path ->
  d !! "final_prompt" = Some v ->
  exists r s' o,
    generate_image_with_reference jl v path (update_message upd) s = (Returns r, s', o) /\
    start_image_generation jl upd s = (Returns ITERATING_IMAGE, s', o ++ [report r]).
Proof.
  intros Hd Hr Hp Hf.
  destruct (generate_image_with_reference_returns jl v path (update_message upd) s)
    as (r & s' & o & E).
  exists r, s', o. split; [exact E|].
  unfold start_image_generation, session_get_or_empty.
  rewrite (bind_returns _ _ s (default ∅ (user_data s !! effective_user_id upd)) s [])
    by reflexivity.
  rewrite after_nil, Hd. cbn [default from_option id]. rewrite Hr.
  destruct (decide (is_Some (Some (JObj members)))) as [_|Hn];
    [|exfalso; apply Hn; eexists; reflexivity].
  unfold dict_getitem. rewrite Hf, Hr.
  apply try_except_returns.
  erewrite bind_returns.
  2:{ rewrite (bind_returns _ _ s v s []) by reflexivity. rewrite after_nil.
      rewrite (bind_returns _ _ s (JObj members) s []) by reflexivity. rewrite after_nil.
      rewrite (bind_returns _ _ s path s []);
        [|cbn [getitem]; rewrite Hp; reflexivity].
      rewrite after_nil. exact E. }
  rewrite report_run. reflexivity.
Qed.

(** X14.  [start_image_generation] runs exactly one generation and reports
    it with one message: without a reference image in the session it is
    [generate_image] on the final prompt, with one it is
    [generate_image_with_reference] on the final prompt and the stored file
    path; the photo with the two-choice caption on success, the error text
    otherwise. *)
Theorem start_image_generation_runs jl upd s d v :
  user_data s !! effective_user_id upd = Some d ->
  d !! "final_prompt" = Some v ->
  (d !! "reference_image" = None ->
   exists r s' o,
     generate_image v (update_message upd) s = (Returns r, s', o) /\
     start_image_generation jl upd s = (Returns ITERATING_IMAGE, s', o ++ [report r])) /\
  (forall members path,
     d !! "reference_image" = Some (JObj members) ->
     assoc "file_path" members = Some path ->
     exists r s' o,
       generate_image_with_reference jl v path (update_message upd) s =
         (Returns r, s', o) /\
       start_image_generation jl upd s = (Returns ITERATING_IMAGE, s', o ++ [report r])).
Proof.
  intros Hd Hf. split.
  - intros Hr. apply (start_image_generation_scratch jl upd s d v Hd Hr Hf).
  - intros members path Hr Hp.
    apply (start_image_generation_reference jl upd s d v members path Hd Hr Hp Hf).
Qed.

(** X15.  For a user who writes to the bot in one chat: wherever the bot
    has been brought to, in [REFERENCE_CHOICE] the user's session has a
    final prompt and no reference image, so the answer 2 runs
    [generate_image] on the final prompt, reports it with one message and
    leads to [ITERATING_IMAGE]. *)
Theorem no_reference_generates_from_scratch jl gf a home user_id :
  reachable_when jl gf (one_chat home user_id) a ->
  conversations a !! (home, user_id) = Some REFERENCE_CHOICE ->
  exists d v r s' o,
    user_data (sys a) !! user_id = Some d /\
    d !! "final_prompt" = Some v /\
    d !! "reference_image" = None /\
    generate_image v (update_message (update_of user_id (TextMessage "2"))) (sys a) =
      (Returns r, s', o) /\
    process_update jl gf home user_id (TextMessage "2") a =
      ({| conversations := <[(home, user_id) := ITERATING_IMAGE]> (conversations a);
          sys := s' |},
       o ++ [report r]).
Proof.
  intros Hr Hst.
  destruct (reachable_when_settled jl gf _ home user_id a (fun _ _ _ H => H) Hr _ Hst)
    as (d & Hd & [v Hf] & Href).
  destruct (start_image_generation_scratch jl (update_of user_id (TextMessage "2"))
              (sys a) d v Hd Href Hf) as (r & s' & o & E & Es).
  exists d, v, r, s', o. repeat (split; [assumption|]).
  unfold process_update. cbv zeta. rewrite Hst.
  cbn [state_handler effective_message callback].
  unfold handle_reference_choice.
  change (in_strs (text (update_message (update_of user_id (TextMessage "2")))) ["1"; "2"])
    with true.
  change (eq_str (text (update_message (update_of user_id (TextMessage "2")))) "1")
    with false.
  cbn [negb]. rewrite Es. reflexivity.
Qed.

(** X16.  For a user who writes to the bot in one chat: wherever the bot
    has been brought to, a photo sent in [AWAITING_REFERENCE] is stored in
    the session as the file id of its last size with the path the transport
    gives for it; then [generate_image_with_reference] runs on the final
    prompt and that path, its result is reported with one message, and the
    conversation is in [ITERATING_IMAGE] with the reference image still in
    the session. *)
Theorem reference_photo_is_used jl gf a home user_id sizes file_id :
  reachable_when jl gf (one_chat home user_id) a ->
  conversations a !! (home, user_id) = Some AWAITING_REFERENCE ->
  last sizes = Some file_id ->
  let stored := JObj [("file_id", JStr file_id); ("file_path", gf file_id)] in
  let upd := update_of user_id (PhotoMessage sizes) in
  exists d v r s' o,
    user_data (sys a) !! user_id = Some d /\
    d !! "final_prompt" = Some v /\
    generate_image_with_reference jl v (gf file_id) (update_message upd)
      (set_user_data (fun ud => <[user_id := <["reference_image" := stored]> d]> ud) (sys a)) =
      (Returns r, s', o) /\
    process_update jl gf home user_id (PhotoMessage sizes) a =
      ({| conversations := <[(home, user_id) := ITERATING_IMAGE]> (conversations a);
          sys := s' |},
       o ++ [report r]) /\
    user_data s' !! user_id = Some (<["reference_image" := stored]> d).
Proof.
  intros Hr Hst Hlast stored upd.
  destruct (reachable_when_settled jl gf _ home user_id a (fun _ _ _ H => H) Hr _ Hst)
    as (d & Hd & [v Hf] & Href).
  pose (s1 := set_user_data
                (fun ud => <[user_id := <["reference_image" := stored]> d]> ud) (sys a)).
  destruct (start_image_generation_reference jl upd s1
              (<["reference_image" := stored]> d) v
              [("file_id", JStr file_id); ("file_path", gf file_id)] (gf file_id))
    as (r & s' & o & E & Es).
  { apply lookup_insert_eq. }
  { apply lookup_insert_eq. }
  { reflexivity. }
  { rewrite lookup_insert_ne by discriminate. exact Hf. }
  exists d, v, r, s', o. split; [exact Hd|]. split; [exact Hf|]. split; [exact E|].
  split.
  - unfold process_update. cbv zeta. rewrite Hst.
    cbn [state_handler effective_message callback].
    fold upd. rewrite (handle_reference_image_run jl gf upd (sys a) d v Hd Hf).
    assert (Hl : last_item (photo (update_message upd)) = Returns file_id)
      by (unfold last_item; cbn [upd update_of update_message photo];
          rewrite Hlast; reflexivity).
    rewrite Hl.
    match goal with
    | |- context [start_image_generation jl upd ?s0] =>
        change (start_image_generation jl upd s0)
          with (start_image_generation jl upd s1)
    end.
    rewrite Es. reflexivity.
  - pose proof (keeps_generate_image_with_reference jl v (gf file_id)
                  (update_message upd) s1) as Hk.
    rewrite E in Hk. cbn [fst snd] in Hk. rewrite Hk.
    apply lookup_insert_eq.
Qed.

(** ** The prompt handlers, in full *)

Lemma handle_initial_prompt_run upd s :
  exists enhanced s' t,
    handle_initial_prompt upd s =
      (Returns (after_refinement enhanced), s',
       [improve_request (text (update_message upd)); reply_text t]) /\
    user_data s' =
      <[effective_user_id upd := prompt_session (text (update_message upd)) enhanced]>
        (user_data s) /\
    context_user_data s' = context_user_data s /\
    refinement_reply (text (update_message upd)) enhanced t.
Proof.
  destruct upd as [uid [txt ph]], s as [ud cud w].
  unfold handle_initial_prompt, session_assign, improve_request. mrun.
  destruct w as [|[[c t b]|] w];
    try solve [mrun; exists None; eexists _, _; repeat split; cbn; auto].
  destruct (Z.eqb c 200) eqn:Hc; mrun.
  - destruct b as [[ | | | | | |body]|];
      try solve [mrun; exists None; eexists _, _; repeat split; cbn; auto].
    mrun. destruct (assoc "promptGeneration" body) as [[ | | | | | |generation]|];
      try solve [mrun; exists None; eexists _, _; repeat split; cbn; auto].
    mrun. destruct (assoc "prompt" generation) as [enhanced|];
      try solve [mrun; exists None; eexists _, _; repeat split; cbn; auto].
    mrun.
    erewrite (bind_returns (session_setitem uid "enhanced_prompt" enhanced));
      [|apply session_setitem_some; apply lookup_insert_eq].
    mrun. exists (Some enhanced). eexists _, _. split; [reflexivity|].
    split; [|split; reflexivity].
    cbn [user_data set_user_data prompt_session]. apply insert_insert_eq.
  - destruct b as [[ | | | | | |body]|];
      try solve [mrun; exists None; eexists _, _; repeat split; cbn; auto].
    mrun.
    destruct (match assoc "error" body with Some v => v | None => JStr "Unknown error" end)
      as [ | | | |msg| | ];
      try solve [cbn [lower]; mrun; exists None; eexists _, _; repeat split; cbn; auto].
    cbn [lower]. mrun.
    destruct (contains "too long" (lower_string msg));
      mrun; exists None; eexists _, _; repeat split; cbn; auto.
Qed.

(** X17.  On an update that carries its message, [handle_initial_prompt]
    never raises.  Whatever the service answers, it makes exactly one
    request, for the improvement of the text it was sent, and answers with
    exactly one message; it replaces the user's session by one holding that
    text as the original prompt, with the enhanced prompt beside it exactly
    when it goes on to [CHOOSING_PROMPT], so that an earlier final prompt or
    reference image is gone.  So a new text message in [INITIAL_PROMPT]
    always moves the conversation to the state the handler returns; the
    edit of a message, whose update carries no message, makes the handler
    raise at once: nothing is sent and nothing changes. *)
Theorem initial_prompt_resets_session jl gf chat_id user_id t a :
  conversations a !! (chat_id, user_id) = Some INITIAL_PROMPT ->
  (forall upd s,
     exists enhanced s' reply d',
       handle_initial_prompt upd s =
         (Returns (after_refinement enhanced), s',
          [improve_request (text (update_message upd)); reply_text reply]) /\
       refinement_reply (text (update_message upd)) enhanced reply /\
       user_data s' = <[effective_user_id upd := d']> (user_data s) /\
       d' !! "original_prompt" = Some (text (update_message upd)) /\
       d' !! "enhanced_prompt" = enhanced /\
       d' !! "final_prompt" = None /\
       d' !! "reference_image" = None) /\
  (exists st' s' out,
     handle_initial_prompt (update_of user_id (TextMessage t)) (sys a) =
       (Returns st', s', out) /\
     process_update jl gf chat_id user_id (TextMessage t) a =
       ({| conversations := <[(chat_id, user_id) := st']> (conversations a); sys := s' |},
        out)) /\
  callback handle_initial_prompt user_id (EditedMessage (TextMessage t)) (sys a) =
    (Raises (Builtin AttributeError), sys a, []) /\
  process_update jl gf chat_id user_id (EditedMessage (TextMessage t)) a = (a, []).
Proof.
  intros Hst. split; [|split; [|split]].
  - intros upd s.
    destruct (handle_initial_prompt_run upd s) as (enhanced & s' & reply & E & Hud & _ & Ht).
    exists enhanced, s', reply, (prompt_session (text (update_message upd)) enhanced).
    split; [exact E|]. split; [exact Ht|]. split; [exact Hud|].
    destruct enhanced as [e|]; cbn [prompt_session]; repeat split.
  - destruct (handle_initial_prompt_run (update_of user_id (TextMessage t)) (sys a))
      as (enhanced & s' & reply & E & _).
    eexists _, _, _. split; [exact E|].
    unfold process_update. cbv zeta. rewrite Hst.
    cbn [state_handler effective_message callback]. rewrite E. reflexivity.
  - reflexivity.
  - apply process_update_edited.
Qed.

Lemma is_prefix_spec p : forall s,
  is_prefix p s = true <-> exists post, s = String.append p post.
Proof.
  induction p as [|a p IH]; intros s; cbn [is_prefix String.append].
  - split; [intros _; exists s; reflexivity|reflexivity].
  - destruct s as [|b s].
    + split; [discriminate|intros [post H]; discriminate H].
    + rewrite andb_true_iff, Ascii.eqb_eq, IH. split.
      * intros [-> [post ->]]. exists post. reflexivity.
      * intros [post H]. injection H as -> ->. split; [reflexivity|eexists; reflexivity].
Qed.

(** [contains p s] is Python's [p in s]: [p] occurs somewhere in [s]. *)
Lemma contains_spec p : forall s,
  contains p s = true <->
  exists pre post, s = String.append pre (String.append p post).
Proof.
  induction s as [|b s IH]; cbn [contains]; rewrite orb_true_iff, is_prefix_spec.
  - split.
    + intros [[post H]|H]; [|discriminate H].
      exists EmptyString, post. exact H.
    + intros (pre & post & H). left.
      destruct pre as [|c pre]; [exists post; exact H|discriminate H].
  - rewrite IH. split.
    + intros [[post H]|(pre & post & H)].
      * exists EmptyString, post. exact H.
      * exists (String b pre), post. cbn [String.append]. rewrite H. reflexivity.
    + intros (pre & post & H). destruct pre as [|c pre].
      * left. exists post. exact H.
      * right. cbn [String.append] in H. injection H as -> ->.
        exists pre, post. reflexivity.
Qed.

(** X18.  A refusal of the improvement (any status other than 200) whose
    JSON body carries an error text is answered according to that text: if
    it contains "too long" in any letter case, with the advice to stay
    under 200 characters and the length of the prompt, otherwise with the
    general apology; either way the conversation stays in
    [INITIAL_PROMPT]. *)
Theorem refinement_refused upd s r body msg rest :
  remote s = Responds r :: rest ->
  status_code r <> 200%Z ->
  json_body r = Some (JObj body) ->
  assoc "error" body = Some (JStr msg) ->
  handle_initial_prompt upd s =
    (Returns INITIAL_PROMPT,
     set_remote rest
       (set_user_data
          (fun ud => <[effective_user_id upd :=
                         {[ "original_prompt" := text (update_message upd) ]}]> ud) s),
     [improve_request (text (update_message upd));
      reply_text (if contains "too long" (lower_string msg)
                  then too_long_text (text (update_message upd))
                  else [Lit enhance_trouble_text])]) /\
  (contains "too long" (lower_string msg) = true <->
   exists pre post,
     lower_string msg = String.append pre (String.append "too long" post)).
Proof.
  intros Hs Hc Hb He. split; [|apply contains_spec]. apply Z.eqb_neq in Hc.
  destruct upd as [uid [txt ph]], s as [ud cud w], r as [c t b].
  cbn [remote status_code json_body] in *. subst.
  unfold handle_initial_prompt, session_assign, improve_request. mrun.
  cbn [lower]. mrun.
  destruct (contains "too long" (lower_string msg)); reflexivity.
Qed.

Lemma handle_prompt_choice_original upd s d p :
  text (update_message upd) = JStr "3" ->
  user_data s !! effective_user_id upd = Some d ->
  d !! "original_prompt" = Some p ->
  handle_prompt_choice upd s =
    (Returns REFERENCE_CHOICE,
     set_user_data (fun ud => <[effective_user_id upd := <["final_prompt" := p]> d]> ud) s,
     [reply_text [Lit reference_question_text]]).
Proof.
  intros Ht Hd Hp. unfold handle_prompt_choice. rewrite Ht.
  cbn [in_strs existsb eq_str String.eqb Ascii.eqb Bool.eqb orb negb].
  rewrite (bind_returns _ _ _ _ _ _ (session_getitem_some _ _ _ _ _ Hd Hp)), after_nil.
  rewrite (bind_returns _ _ _ _ _ _ (session_setitem_some _ _ _ _ _ Hd)), after_nil.
  reflexivity.
Qed.

(** X19.  In [handle_prompt_choice] the answer 1 makes the enhanced prompt
    the final prompt and the answer 3 makes the original prompt the final
    prompt, the very value that is stored; the rest of the session stays,
    no request is made, and the question about the reference image is asked
    on the way to [REFERENCE_CHOICE]. *)
Theorem prompt_choice_sets_final upd s d choice v :
  text (update_message upd) = JStr choice ->
  user_data s !! effective_user_id upd = Some d ->
  (choice = "1"%string /\ d !! "enhanced_prompt" = Some v) \/
  (choice = "3"%string /\ d !! "original_prompt" = Some v) ->
  handle_prompt_choice upd s =
    (Returns REFERENCE_CHOICE,
     set_user_data (fun ud => <[effective_user_id upd := <["final_prompt" := v]> d]> ud) s,
     [reply_text [Lit reference_question_text]]).
Proof.
  intros Ht Hd [[-> Hv] | [-> Hv]].
  - apply (handle_prompt_choice_enhanced upd s d v Ht Hd Hv).
  - apply (handle_prompt_choice_original upd s d v Ht Hd Hv).
Qed.

(** The answer 2: the original prompt is read and noted, then the
    assignment to the text of the message raises. *)
Lemma handle_prompt_choice_again upd s :
  text (update_message upd) = JStr "2" ->
  handle_prompt_choice upd s =
    match user_data s !! effective_user_id upd with
    | Some d =>
        match d !! "original_prompt" with
        | Some p =>
            (Raises (Builtin AttributeError),
             set_context_user_data
               (fun c => <[effective_user_id upd :=
                             <["original_text" := p]>
                               (default ∅ (c !! effective_user_id upd))]> c) s,
             [])
        | None => (Raises (Builtin (KeyError (JStr "original_prompt"))), s, [])
        end
    | None => (Raises (Builtin (KeyError (JInt (effective_user_id upd)))), s, [])
    end.
Proof.
  intros Ht. unfold handle_prompt_choice. rewrite Ht.
  cbn [in_strs existsb eq_str String.eqb Ascii.eqb Bool.eqb orb negb].
  destruct (user_data s !! effective_user_id upd) as [d|] eqn:Hd.
  - destruct (d !! "original_prompt") as [p|] eqn:Hp.
    + rewrite (bind_returns _ _ _ _ _ _ (session_getitem_some _ _ _ _ _ Hd Hp)), after_nil.
      reflexivity.
    + rewrite (bind_raises _ _ _ _ _ _ (session_getitem_no_key _ _ _ _ Hd Hp)).
      reflexivity.
  - rewrite (bind_raises _ _ _ _ _ _ (session_getitem_no_session _ _ _ Hd)).
    reflexivity.
Qed.

(** X20.  In [handle_prompt_choice] the answer 2 never reaches the second
    improvement.  The original prompt is read and noted in
    [context.user_data]; then the assignment to the text of the message
    raises [AttributeError], the message being frozen.  No request is made
    and nothing is sent, and through the conversation handler the
    conversation stays in [CHOOSING_PROMPT] with every session and every
    pending answer as they were. *)
Theorem another_enhancement_raises jl gf a chat_id user_id :
  conversations a !! (chat_id, user_id) = Some CHOOSING_PROMPT ->
  exists e a',
    (handle_prompt_choice (update_of user_id (TextMessage "2")) (sys a)).1.1 = Raises e /\
    process_update jl gf chat_id user_id (TextMessage "2") a = (a', []) /\
    conversations a' = conversations a /\
    user_data (sys a') = user_data (sys a) /\
    remote (sys a') = remote (sys a) /\
    (forall d p,
       user_data (sys a) !! user_id = Some d ->
       d !! "original_prompt" = Some p ->
       e = Builtin AttributeError /\
       context_user_data (sys a') !! user_id =
         Some (<["original_text" := p]>
                 (default ∅ (context_user_data (sys a) !! user_id)))).
Proof.
  intros Hst.
  pose proof (handle_prompt_choice_again (update_of user_id (TextMessage "2")) (sys a)
                eq_refl) as E.
  cbn [update_of effective_user_id] in E.
  unfold process_update. cbv zeta. rewrite Hst.
  cbn [state_handler effective_message callback].
  change (effective_user_id (update_of user_id (TextMessage "2"))) with user_id in E.
  destruct (user_data (sys a) !! user_id) as [d|] eqn:Hd.
  - destruct (d !! "original_prompt") as [p|] eqn:Hp; rewrite E;
      eexists _, _; cbn [fst snd conversations sys user_data remote set_context_user_data];
      do 5 (split; [reflexivity|]).
    + intros d0 p0 H0 Hp0. injection H0 as <-. rewrite Hp in Hp0. injection Hp0 as <-.
      split; [reflexivity|]. cbn [context_user_data]. apply lookup_insert_eq.
    + intros d0 p0 H0 Hp0. injection H0 as <-. rewrite Hp in Hp0. discriminate Hp0.
  - rewrite E. eexists _, _.
    cbn [fst snd conversations sys user_data remote set_context_user_data].
    do 5 (split; [reflexivity|]).
    intros d0 p0 H0. discriminate H0.
Qed.

(** ** Every handled message is answered *)









(** ** Cancelling *)

Lemma no_handler_for_commands jl gf st name :
  state_handler jl gf st (Command name) = None.
Proof. destruct st; reflexivity. Qed.

(** X22.  [/cancel] in a conversation ends it with the one farewell and
    leaves the user's session in [user_data]; a [/start] after it opens a
    new conversation in [INITIAL_PROMPT] over that same session. *)
Theorem cancel_keeps_session jl gf a chat_id user_id st :
  conversations a !! (chat_id, user_id) = Some st ->
  let cancelled := process_update jl gf chat_id user_id (Command "cancel") a in
  let restarted := process_update jl gf chat_id user_id (Command "start") cancelled.1 in
  cancelled = ({| conversations := delete (chat_id, user_id) (conversations a);
                  sys := sys a |},
               [reply_text [Lit cancelled_text]]) /\
  restarted = ({| conversations := <[(chat_id, user_id) := INITIAL_PROMPT]> (conversations a);
                  sys := sys a |},
               [reply_text [Lit welcome_message]]).
Proof.
  intros Hst cancelled restarted.
  assert (Hc : cancelled =
               ({| conversations := delete (chat_id, user_id) (conversations a);
                   sys := sys a |},
                [reply_text [Lit cancelled_text]])).
  { unfold cancelled, process_update. cbv zeta. rewrite Hst.
    cbn [effective_message callback].
    rewrite no_handler_for_commands. reflexivity. }
  split; [exact Hc|].
  unfold restarted. rewrite Hc. unfold process_update. cbv zeta.
  cbn [fst conversations sys effective_message callback]. rewrite lookup_delete_eq.
  cbn [String.eqb Ascii.eqb Bool.eqb start bind emit ret after fst snd List.app].
  rewrite insert_delete_eq. reflexivity.
Qed.

(** ** The cost of one update *)

Lemma within_session_of user_id : within 0 0 (session_of user_id).
Proof.
  eapply within_weaken; [unfold session_of; within_tac| |]; vm_compute; lia.
Qed.

#[export] Hint Resolve within_session_of : within_db.

Lemma within_session_getitem user_id key : within 0 0 (session_getitem user_id key).
Proof.
  eapply within_weaken; [unfold session_getitem; within_tac| |]; vm_compute; lia.
Qed.

Lemma within_session_setitem user_id key v : within 0 0 (session_setitem user_id key v).
Proof.
  eapply within_weaken; [unfold session_setitem; within_tac| |]; vm_compute; lia.
Qed.

Lemma within_session_assign user_id d : within 0 0 (session_assign user_id d).
Proof. unfold session_assign. apply within_modify. Qed.

Lemma within_session_get_or_empty user_id : within 0 0 (session_get_or_empty user_id).
Proof.
  eapply within_weaken; [unfold session_get_or_empty; within_tac| |]; vm_compute; lia.
Qed.

#[export] Hint Resolve within_session_getitem within_session_setitem within_session_assign
  within_session_get_or_empty : within_db.

Lemma within_handle_initial_prompt upd : within 1 0 (handle_initial_prompt upd).
Proof.
  eapply within_weaken; [unfold handle_initial_prompt; within_tac| |]; vm_compute; lia.
Qed.

Lemma within_start_image_generation jl upd :
  within 31 60 (start_image_generation jl upd).
Proof.
  eapply within_weaken; [unfold start_image_generation; within_tac| |]; vm_compute; lia.
Qed.

#[export] Hint Resolve within_handle_initial_prompt within_start_image_generation
  : within_db.

Lemma within_set_message_text message_obj v :
  within 0 0 (set_message_text message_obj v).
Proof. apply within_raise. Qed.

#[export] Hint Resolve within_set_message_text : within_db.

Lemma within_handle_prompt_choice upd : within 1 0 (handle_prompt_choice upd).
Proof.
  eapply within_weaken; [unfold handle_prompt_choice; within_tac| |]; vm_compute; lia.
Qed.

Lemma within_handle_reference_choice jl upd :
  within 31 60 (handle_reference_choice jl upd).
Proof.
  eapply within_weaken; [unfold handle_reference_choice; within_tac| |]; vm_compute; lia.
Qed.

Lemma within_handle_reference_image jl gf upd :
  within 31 60 (handle_reference_image jl gf upd).
Proof.
  eapply within_weaken; [unfold handle_reference_image; within_tac| |]; vm_compute; lia.
Qed.

Lemma within_handle_image_iteration jl upd :
  within 31 60 (handle_image_iteration jl upd).
Proof.
  eapply within_weaken; [unfold handle_image_iteration; within_tac| |]; vm_compute; lia.
Qed.

Lemma within_state_handler jl gf st m h upd :
  state_handler jl gf st m = Some h -> within 31 60 (h upd).
Proof.
  intros Hh.
  destruct st, m; cbn [state_handler] in Hh; try discriminate; injection Hh as <-;
    try apply within_start_image_generation;
    try apply within_handle_reference_choice;
    try apply within_handle_reference_image;
    try apply within_handle_image_iteration;
    (eapply within_weaken;
     [first [apply within_handle_initial_prompt | apply within_handle_prompt_choice]
     |lia|lia]).
Qed.

(** X23.  Handling one update, whatever the state, the message and the
    answers of the remote services, takes at most 31 requests and at most
    60 seconds of sleep; the prompt handlers make at most one request and
    never sleep. *)
Theorem update_cost_bounded jl gf chat_id user_id m a upd s :
  count_requests (process_update jl gf chat_id user_id m a).2 <= 31 /\
  (total_sleep (process_update jl gf chat_id user_id m a).2 <= 60)%Z /\
  count_requests (handle_initial_prompt upd s).2 <= 1 /\
  (total_sleep (handle_initial_prompt upd s).2 <= 0)%Z /\
  count_requests (handle_prompt_choice upd s).2 <= 1 /\
  (total_sleep (handle_prompt_choice upd s).2 <= 0)%Z.
Proof.
  assert (Hp : count_requests (process_update jl gf chat_id user_id m a).2 <= 31 /\
               (total_sleep (process_update jl gf chat_id user_id m a).2 <= 60)%Z).
  { destruct m as [c|c].
    2:{ rewrite process_update_edited. cbn. split; lia. }
    unfold process_update. cbv zeta. cbn [effective_message callback].
    destruct (conversations a !! (chat_id, user_id)) as [st|].
    - destruct (state_handler jl gf st c) as [h|] eqn:Hh.
      + destruct (within_state_handler jl gf st c h (update_of user_id c) Hh (sys a))
          as [H1 H2].
        destruct (h (update_of user_id c) (sys a)) as [[[st'|e] s'] out];
          cbn [fst snd] in *; split; lia.
      + destruct c as [name| | | ]; try (cbn; split; lia).
        destruct (String.eqb name "cancel"); cbn; split; lia.
    - destruct c as [name| | | ]; try (cbn; split; lia).
      destruct (String.eqb name "start"); cbn; split; lia. }
  destruct (within_handle_initial_prompt upd s) as [H1 H2].
  destruct (within_handle_prompt_choice upd s) as [H3 H4].
  destruct Hp as [H5 H6]. repeat split; lia.
Qed.

(** ** Startup *)

(** X24.  [main] runs the bot exactly when both [LEO_API_KEY] and
    [TELEGRAM_TOKEN] are set and not empty, with no session stored and the
    key as bearer credential.  The key is looked at first: without it
    [main] raises [ValueError] whether or not there is a token; with the
    key but without the token it returns without running. *)
Theorem main_needs_both_secrets env :
  (not_set (getenv env "LEO_API_KEY") = true -> main env = Raises (Builtin ValueError)) /\
  (not_set (getenv env "LEO_API_KEY") = false ->
   not_set (getenv env "TELEGRAM_TOKEN") = true -> main env = Returns returned) /\
  (forall key token,
     getenv env "LEO_API_KEY" = Some key -> key <> EmptyString ->
     getenv env "TELEGRAM_TOKEN" = Some token -> token <> EmptyString ->
     exists b,
       main env = Returns (run_polling b token) /\
       bot_user_data b = ∅ /\
       leo_api_key b = key /\
       In ("authorization", String.append "Bearer " key) (leo_headers b)).
Proof.
  unfold main, init. split; [|split].
  - intros ->. reflexivity.
  - intros -> ->. reflexivity.
  - intros key token Hk Hkne Ht Htne. rewrite Hk, Ht. cbn [not_set default from_option id].
    apply String.eqb_neq in Hkne, Htne. rewrite Hkne, Htne.
    eexists. split; [reflexivity|]. split; [reflexivity|]. split; [reflexivity|].
    cbn [leo_headers In]. right. right. left. reflexivity.
Qed.

(** ** Missing keys *)

(** X25.  Without a final prompt in the session (or without a session),
    [start_image_generation] generates nothing: it makes no request, sends
    no notice, answers with the error text alone and returns
    [ITERATING_IMAGE], with or without a reference image in the session. *)
Theorem generation_without_prompt jl upd s :
  (user_data s !! effective_user_id upd = None \/
   exists d, user_data s !! effective_user_id upd = Some d /\
             d !! "final_prompt" = None) ->
  start_image_generation jl upd s =
    (Returns ITERATING_IMAGE, s, [reply_text [Lit generation_error_text]]).
Proof.
  intros Hmiss.
  assert (Hf : default ∅ (user_data s !! effective_user_id upd) !! "final_prompt"
               = @None json).
  { destruct Hmiss as [-> | (d & -> & Hf)]; [apply lookup_empty|exact Hf]. }
  unfold start_image_generation, session_get_or_empty.
  rewrite (bind_returns _ _ s (default ∅ (user_data s !! effective_user_id upd)) s [])
    by reflexivity.
  rewrite after_nil.
  destruct (decide (is_Some (default ∅ (user_data s !! effective_user_id upd)
                             !! "reference_image")));
    unfold dict_getitem; rewrite Hf; reflexivity.
Qed.

(** X26.  [handle_image_generation] calls both generation methods without
    their [message_obj], so it never generates: whatever the session and
    the remote services, it makes no request, changes nothing, answers
    with its error text alone and returns [GENERATING_IMAGE]. *)
Theorem handle_image_generation_always_fails jl upd s :
  handle_image_generation jl upd s =
    (Returns GENERATING_IMAGE, s, [reply_text [Lit generation_error_text_spaced]]).
Proof.
  unfold handle_image_generation, session_get_or_empty.
  rewrite (bind_returns _ _ s (default ∅ (user_data s !! effective_user_id upd)) s [])
    by reflexivity.
  rewrite after_nil.
  set (d := default ∅ (user_data s !! effective_user_id upd)).
  destruct (decide (is_Some (d !! "reference_image"))) as [[ref Href]|_];
    unfold dict_getitem.
  - rewrite Href.
    destruct (d !! "final_prompt") as [v|];
      destruct ref as [ | | | | | |members]; try reflexivity;
      destruct (assoc "file_path" members) eqn:Hp;
      unfold try_except, bind; cbn [ret lift getitem after fst snd];
      rewrite ?Hp; reflexivity.
  - destruct (d !! "final_prompt") as [v|]; reflexivity.
Qed.

(** X27.  The answer 2 in [handle_image_iteration] replaces the session by
    one that holds only an original prompt: the one it held, or the empty
    string when it held none; without a session the handler raises
    [KeyError] and changes nothing. *)
Theorem iteration_reset_defaults jl upd s :
  text (update_message upd) = JStr "2" ->
  (forall d, user_data s !! effective_user_id upd = Some d ->
     handle_image_iteration jl upd s =
       (Returns INITIAL_PROMPT,
        set_user_data
          (fun ud => <[effective_user_id upd :=
                         {[ "original_prompt" :=
                              default (JStr "") (d !! "original_prompt") ]}]> ud) s,
        [reply_text [Lit new_prompt_text]])) /\
  (user_data s !! effective_user_id upd = None ->
     handle_image_iteration jl upd s =
       (Raises (Builtin (KeyError (JInt (effective_user_id upd)))), s, [])).
Proof.
  intros Ht. split.
  - intros d Hd. apply (handle_image_iteration_modify jl upd s d Ht Hd).
  - intros Hn. unfold handle_image_iteration. rewrite Ht.
    cbn [in_strs existsb eq_str String.eqb Ascii.eqb Bool.eqb orb negb].
    rewrite (bind_raises _ _ _ _ _ _ (session_of_none _ _ Hn)). reflexivity.
Qed.

(** * Concrete runs of the further properties *)

Lemma reachable_awaiting : reachable example_loads example_file_path awaiting.1.
Proof. apply reachable_step. apply reachable_asked_reference. Qed.

Lemma scratch_submission_rejected_witness :
  generate_image (JStr "a frog") example_message
    (example_system [bare_answer 429 "slow down"; status_answer "COMPLETE" ["u"]]) =
    (Returns (status_error [Lit "Generation failed with status "; FmtInt 429]),
     example_system [status_answer "COMPLETE" ["u"]],
     [reply_text [Lit generating_text];
      requests_post generations (scratch_payload (JStr "a frog"))]).
Proof.
  refine (proj2 (scratch_submission_rejected (JStr "a frog") example_message
                   (example_system [bare_answer 429 "slow down";
                                    status_answer "COMPLETE" ["u"]])
                   (bare_answer 429 "slow down") [status_answer "COMPLETE" ["u"]]
                   eq_refl _)
                {| status_code := 429; content := "slow down"; json_body := None |}
                eq_refl _).
  - intros gid (r & body & job & Hr & H200 & _). injection Hr as <-.
    cbn [status_code] in H200. discriminate H200.
  - cbn [status_code]. lia.
Defined.

Lemma poll_failure_aborts_witness :
  generate_image (JStr "a frog") example_message
    (example_system [submit_answer "job-1"; status_answer "PENDING" []; Fails;
                     status_answer "COMPLETE" ["u"]]) =
    (Returns (status_error [FmtErr RequestException]),
     example_system [status_answer "COMPLETE" ["u"]],
     [reply_text [Lit generating_text];
      requests_post generations (scratch_payload (JStr "a frog"))]
     ++ spaced_polls (JStr "job-1") 1 ++ [poll (JStr "job-1")]).
Proof.
  refine (poll_failure_aborts (JStr "a frog") example_message
            (example_system [submit_answer "job-1"; status_answer "PENDING" []; Fails;
                             status_answer "COMPLETE" ["u"]])
            (submit_answer "job-1") (JStr "job-1") [status_answer "PENDING" []]
            Fails RequestException [status_answer "COMPLETE" ["u"]]
            (submit_answer_accepted "job-1") _ _ (or_introl (conj eq_refl eq_refl)) eq_refl).
  - apply List.Forall_cons; [apply pending_answer_still_pending|apply List.Forall_nil].
  - cbn [length]. lia.
Defined.

Lemma image_before_complete_witness :
  poll_once {| status_code := 200; content := EmptyString;
               json_body := Some (JObj [("generations_by_pk",
                                   JObj [("status", JStr "PENDING");
                                         ("generated_images",
                                          JArr [JObj [("url", JStr "u")]])])]) |}
    (example_system []) = (Returns None, example_system [], []) /\
  check_once {| status_code := 200; content := EmptyString;
                json_body := Some (JObj [("generations_by_pk",
                                    JObj [("status", JStr "PENDING");
                                          ("generated_images",
                                           JArr [JObj [("url", JStr "u")]])])]) |}
    (example_system []) =
    (Returns (Some (status_success (JStr "u"))), example_system [], []).
Proof.
  refine (image_before_complete _
            [("status", JStr "PENDING");
             ("generated_images", JArr [JObj [("url", JStr "u")]])]
            (JStr "u") (example_system []) _ _ _).
  - econstructor; reflexivity.
  - cbn [assoc String.eqb Ascii.eqb Bool.eqb]. discriminate.
  - eexists _, _, _. split; [econstructor; reflexivity|]. split; reflexivity.
Defined.

Lemma upload_slot_refused_witness :
  generate_image_with_reference example_loads (JStr "a frog")
    (JStr "https://files/photo-9") example_message
    (example_system [bare_answer 401 "no"; bare_answer 200 "JPEG"]) =
    (Returns (status_error [Lit "Failed to get presigned URL from Leonardo"]),
     example_system [bare_answer 200 "JPEG"],
     [reply_text [Lit processing_reference_text];
      requests_post init_image (JObj [("extension", JStr "jpg")])]).
Proof.
  refine (upload_slot_refused example_loads (JStr "a frog")
            (JStr "https://files/photo-9") example_message
            (example_system [bare_answer 401 "no"; bare_answer 200 "JPEG"])
            {| status_code := 401; content := "no"; json_body := None |}
            [bare_answer 200 "JPEG"] eq_refl _).
  cbn [status_code]. lia.
Defined.

Lemma reference_download_failed_witness :
  generate_image_with_reference example_loads (JStr "a frog")
    (JStr "https://files/photo-9") example_message
    (example_system [slot_answer; bare_answer 404 "gone"; bare_answer 204 ""]) =
    (Returns (status_error [Lit "Failed to download image from Telegram"]),
     example_system [bare_answer 204 ""],
     [reply_text [Lit processing_reference_text];
      requests_post init_image (JObj [("extension", JStr "jpg")]);
      requests_get (absolute "https://files/photo-9")]).
Proof.
  refine (reference_download_failed example_loads (JStr "a frog") "https://files/photo-9"
            example_message
            (example_system [slot_answer; bare_answer 404 "gone"; bare_answer 204 ""])
            slot_answer
            {| status_code := 404; content := "gone"; json_body := None |}
            [bare_answer 204 ""]
            [("key", JStr "{}")] "https://s3/upload" (JStr "img-1")
            slot_answer_granted _ eq_refl).
  cbn [status_code]. lia.
Defined.

Lemma reference_submission_rejected_witness :
  generate_image_with_reference example_loads (JStr "a frog")
    (JStr "https://files/photo-9") example_message
    (example_system [slot_answer; bare_answer 200 "JPEG"; bare_answer 204 "";
                     bare_answer 500 "oops"; status_answer "COMPLETE" ["u"]]) =
    (Returns (status_error [Lit "Generation failed with status "; FmtInt 500]),
     example_system [status_answer "COMPLETE" ["u"]],
     [reply_text [Lit processing_reference_text];
      requests_post init_image (JObj [("extension", JStr "jpg")]);
      requests_get (absolute "https://files/photo-9");
      requests_post_files "https://s3/upload" (JObj [("key", JStr "{}")]) "JPEG";
      requests_post generations (reference_payload (JStr "a frog") (JStr "img-1"))]).
Proof.
  refine (reference_submission_rejected example_loads (JStr "a frog")
            "https://files/photo-9" example_message
            (example_system [slot_answer; bare_answer 200 "JPEG"; bare_answer 204 "";
                             bare_answer 500 "oops"; status_answer "COMPLETE" ["u"]])
            slot_answer
            {| status_code := 200; content := "JPEG"; json_body := None |}
            {| status_code := 204; content := ""; json_body := None |}
            {| status_code := 500; content := "oops"; json_body := None |}
            [status_answer "COMPLETE" ["u"]]
            [("key", JStr "{}")] "https://s3/upload" (JStr "img-1")
            slot_answer_granted eq_refl eq_refl _ eq_refl).
  cbn [status_code]. lia.
Defined.

Lemma generated_session_stored :
  user_data (sys generated.1) !! 7%Z = Some generated_session.
Proof. vm_compute. reflexivity. Qed.

Lemma sessions_hold_known_keys_witness :
  is_Some (generated_session !! "original_prompt") /\
  (forall k, is_Some (generated_session !! k) -> In k session_keys) /\
  generated_session !! "generated_images" = None.
Proof.
  exact (sessions_hold_known_keys example_loads example_file_path generated.1 7
           generated_session reachable_generated generated_session_stored).
Defined.

Lemma final_prompt_is_a_prompt_witness :
  (forall v, generated_session !! "final_prompt" = Some v ->
             generated_session !! "enhanced_prompt" = Some v \/
             generated_session !! "original_prompt" = Some v) /\
  (is_Some (generated_session !! "reference_image") ->
   is_Some (generated_session !! "final_prompt")).
Proof.
  exact (final_prompt_is_a_prompt example_loads example_file_path generated.1 7
           generated_session reachable_generated generated_session_stored).
Defined.

Lemma start_image_generation_runs_witness :
  exists r s' o,
    generate_image (JStr "a detailed pixel-art frog astronaut")
      (update_message (example_update "2"))
      (system_with generated_session
         [submit_answer "job-1"; status_answer "COMPLETE" ["u"]]) = (Returns r, s', o) /\
    start_image_generation example_loads (example_update "2")
      (system_with generated_session
         [submit_answer "job-1"; status_answer "COMPLETE" ["u"]]) =
      (Returns ITERATING_IMAGE, s', o ++ [report r]).
Proof.
  refine (proj1 (start_image_generation_runs example_loads (example_update "2")
                   (system_with generated_session
                      [submit_answer "job-1"; status_answer "COMPLETE" ["u"]])
                   generated_session (JStr "a detailed pixel-art frog astronaut") _ _) _);
    vm_compute; reflexivity.
Defined.

Lemma refinement_refused_witness :
  handle_initial_prompt (example_update "a frog")
    (example_system [Responds (refusal "Prompt is TOO LONG"); Fails]) =
    (Returns INITIAL_PROMPT,
     set_remote [Fails]
       (set_user_data
          (fun ud => <[7%Z := {[ "original_prompt" := JStr "a frog" ]}]> ud)
          (example_system [Responds (refusal "Prompt is TOO LONG"); Fails])),
     [improve_request (JStr "a frog"); reply_text (too_long_text (JStr "a frog"))]).
Proof.
  refine (proj1 (refinement_refused (example_update "a frog")
                   (example_system [Responds (refusal "Prompt is TOO LONG"); Fails])
                   (refusal "Prompt is TOO LONG")
                   [("error", JStr "Prompt is TOO LONG")] "Prompt is TOO LONG" [Fails]
                   eq_refl _ eq_refl eq_refl)).
  cbn [refusal status_code]. lia.
Defined.

Lemma prompt_choice_sets_final_witness :
  handle_prompt_choice (example_update "3") (system_with chosen_session []) =
    (Returns REFERENCE_CHOICE,
     set_user_data
       (fun ud => <[7%Z := <["final_prompt" := JStr "a frog"]> chosen_session]> ud)
       (system_with chosen_session []),
     [reply_text [Lit reference_question_text]]).
Proof.
  refine (prompt_choice_sets_final (example_update "3") (system_with chosen_session [])
            chosen_session "3" (JStr "a frog") eq_refl _ (or_intror (conj eq_refl _)));
    vm_compute; reflexivity.
Defined.

Lemma main_needs_both_secrets_witness :
  exists b,
    main example_env = Returns (run_polling b "token-1") /\
    bot_user_data b = ∅ /\
    leo_api_key b = "key-1"%string /\
    In ("authorization", String.append "Bearer " "key-1") (leo_headers b).
Proof.
  refine (proj2 (proj2 (main_needs_both_secrets example_env))
            "key-1"%string "token-1"%string _ _ _ _);
    try (vm_compute; reflexivity); discriminate.
Defined.

Lemma generation_without_prompt_witness :
  start_image_generation example_loads (example_update "2") (sys lost_session) =
    (Returns ITERATING_IMAGE, sys lost_session, [reply_text [Lit generation_error_text]]).
Proof.
  refine (generation_without_prompt example_loads (example_update "2") (sys lost_session)
            (or_intror (ex_intro _ {[ "original_prompt" := JStr "a frog" ]} (conj _ _))));
    vm_compute; reflexivity.
Defined.

Lemma iteration_reset_defaults_witness :
  handle_image_iteration example_loads (example_update "2")
    (system_with chosen_session []) =
    (Returns INITIAL_PROMPT,
     set_user_data
       (fun ud => <[7%Z := {[ "original_prompt" := JStr "a frog" ]}]> ud)
       (system_with chosen_session []),
     [reply_text [Lit new_prompt_text]]).
Proof.
  refine (proj1 (iteration_reset_defaults example_loads (example_update "2")
                   (system_with chosen_session []) eq_refl) chosen_session _).
  vm_compute. reflexivity.
Defined.

(** ** One chat, and two *)

Lemma improve_answer_text e : text_prompt (improve_answer e).
Proof.
  intros e' (r & body & generation & Hr & _ & Hb & Hg & Hp).
  injection Hr as <-. cbn [json_body] in Hb. injection Hb as <-.
  vm_compute in Hg. injection Hg as <-. vm_compute in Hp. injection Hp as <-.
  eexists. reflexivity.
Qed.

Lemma private_asked_reference :
  reachable_when example_loads example_file_path (one_chat_and_text 7 7) asked_reference.1.
Proof.
  unfold asked_reference, choosing, started, example_step.
  repeat (apply reachable_when_step;
          [|split; [intros _; reflexivity
                   |repeat first [apply List.Forall_nil
                                 |apply List.Forall_cons; [apply improve_answer_text|]]]]).
  apply reachable_when_fresh.
Qed.

Lemma reachable_when_weaken jl gf (allowed allowed' : Z -> Z -> list http_outcome -> Prop) a :
  (forall c u w, allowed c u w -> allowed' c u w) ->
  reachable_when jl gf allowed a -> reachable_when jl gf allowed' a.
Proof.
  intros Hsub. induction 1 as [|a chat_id user_id m answers _ IH Hal].
  - apply reachable_when_fresh.
  - apply reachable_when_step; [exact IH|exact (Hsub _ _ _ Hal)].
Qed.

Lemma one_chat_asked_reference :
  reachable_when example_loads example_file_path (one_chat 7 7) asked_reference.1.
Proof.
  apply (reachable_when_weaken _ _ (one_chat_and_text 7 7)); [|apply private_asked_reference].
  intros c u w H. exact (proj1 H).
Qed.

Lemma one_chat_awaiting :
  reachable_when example_loads example_file_path (one_chat 7 7) awaiting.1.
Proof.
  unfold awaiting, example_step.
  apply reachable_when_step; [apply one_chat_asked_reference|intros _; reflexivity].
Qed.

Lemma final_prompt_defined_witness :
  reachable_when example_loads example_file_path (one_chat_and_text 7 7) asked_reference.1 /\
  conversations asked_reference.1 !! (7%Z, 7%Z) = Some REFERENCE_CHOICE /\
  In REFERENCE_CHOICE
     [REFERENCE_CHOICE; AWAITING_REFERENCE; GENERATING_IMAGE; ITERATING_IMAGE] /\
  exists d p,
    user_data (sys asked_reference.1) !! 7%Z = Some d /\
    d !! "final_prompt" = Some (JStr p) /\
    (d !! "enhanced_prompt" = Some (JStr p) \/ d !! "original_prompt" = Some (JStr p)).
Proof.
  assert (H1 : reachable_when example_loads example_file_path (one_chat_and_text 7 7)
                 asked_reference.1)
    by apply private_asked_reference.
  assert (H2 : conversations asked_reference.1 !! (7%Z, 7%Z) = Some REFERENCE_CHOICE)
    by (vm_compute; reflexivity).
  assert (H3 : In REFERENCE_CHOICE
                 [REFERENCE_CHOICE; AWAITING_REFERENCE; GENERATING_IMAGE; ITERATING_IMAGE])
    by (left; reflexivity).
  split; [exact H1|]. split; [exact H2|]. split; [exact H3|].
  exact (final_prompt_defined example_loads example_file_path asked_reference.1 7 7
           REFERENCE_CHOICE H1 H2 H3).
Defined.

(** C1, refuted as stated.  A user in [REFERENCE_CHOICE] in one chat who
    sends a prompt in a second chat has a session without a final prompt,
    the first conversation still being in [REFERENCE_CHOICE]; and in one
    chat, a prompt service that answers [null] for the enhanced prompt
    leaves [None] as the final prompt of the user who chooses it. *)
Lemma final_prompt_not_always_defined :
  (reachable example_loads example_file_path second_chat /\
   conversations second_chat !! (7%Z, 7%Z) = Some REFERENCE_CHOICE /\
   exists d, user_data (sys second_chat) !! 7%Z = Some d /\
             d !! "final_prompt" = None) /\
  (reachable example_loads example_file_path null_chosen /\
   conversations null_chosen !! (7%Z, 7%Z) = Some REFERENCE_CHOICE /\
   exists d, user_data (sys null_chosen) !! 7%Z = Some d /\
             d !! "final_prompt" = Some JNull).
Proof.
  split; split.
  - unfold second_chat. repeat apply reachable_step. apply reachable_fresh.
  - split; [vm_compute; reflexivity|].
    exists {[ "original_prompt" := JStr "a cat" ]}. split; vm_compute; reflexivity.
  - unfold null_chosen, started, example_step. repeat apply reachable_step.
    apply reachable_fresh.
  - split; [vm_compute; reflexivity|].
    exists (<["final_prompt" := JNull]>
              (<["enhanced_prompt" := JNull]> {[ "original_prompt" := JStr "a frog" ]})).
    split; vm_compute; reflexivity.
Qed.

Lemma modify_prompt_resets_witness :
  reachable example_loads example_file_path generated.1 /\
  conversations generated.1 !! (7%Z, 7%Z) = Some ITERATING_IMAGE /\
  exists d d' a',
    user_data (sys generated.1) !! 7%Z = Some d /\
    process_update example_loads example_file_path 7 7 (TextMessage "2") generated.1 =
      (a', [reply_text [Lit new_prompt_text]]) /\
    conversations a' !! (7%Z, 7%Z) = Some INITIAL_PROMPT /\
    user_data (sys a') !! 7%Z = Some d' /\
    is_Some (d !! "original_prompt") /\
    d' !! "original_prompt" = d !! "original_prompt" /\
    d' !! "enhanced_prompt" = None /\
    d' !! "final_prompt" = None /\
    d' !! "reference_image" = None /\
    d' !! "generated_images" = None.
Proof.
  assert (H1 : reachable example_loads example_file_path generated.1)
    by apply reachable_generated.
  assert (H2 : conversations generated.1 !! (7%Z, 7%Z) = Some ITERATING_IMAGE)
    by (vm_compute; reflexivity).
  split; [exact H1|]. split; [exact H2|].
  exact (modify_prompt_resets example_loads example_file_path generated.1 7 7 H1 H2).
Defined.

Lemma conversation_moves_along_edges_witness :
  match conversations (process_update example_loads example_file_path 7 7
                         (TextMessage "1") asked_reference.1).1 !! (7%Z, 7%Z) with
  | Some st' => In st' (REFERENCE_CHOICE :: successors REFERENCE_CHOICE)
  | None => Message (TextMessage "1") = Message (Command "cancel")
  end.
Proof.
  refine (conversation_moves_along_edges example_loads example_file_path 7 7
            (TextMessage "1") asked_reference.1 REFERENCE_CHOICE _).
  vm_compute. reflexivity.
Defined.

Lemma other_users_untouched_witness :
  (forall c,
     conversations (process_update example_loads example_file_path 8 8
                      (Command "start") asked_reference.1).1 !! (c, 7%Z) =
       conversations asked_reference.1 !! (c, 7%Z)) /\
  user_data (sys (process_update example_loads example_file_path 8 8
                    (Command "start") asked_reference.1).1) !! 7%Z =
    user_data (sys asked_reference.1) !! 7%Z.
Proof.
  refine (other_users_untouched example_loads example_file_path 8 8 (Command "start")
            asked_reference.1 7 _).
  lia.
Defined.

Lemma generating_image_unreachable_witness :
  conversations generated.1 !! (7%Z, 7%Z) <> Some GENERATING_IMAGE.
Proof.
  exact (generating_image_unreachable example_loads example_file_path generated.1 7 7
           reachable_generated).
Defined.

Lemma no_reference_generates_from_scratch_witness :
  exists d v r s' o,
    user_data (sys asked_reference.1) !! 7%Z = Some d /\
    d !! "final_prompt" = Some v /\
    d !! "reference_image" = None /\
    generate_image v (update_message (update_of 7 (TextMessage "2")))
      (sys asked_reference.1) = (Returns r, s', o) /\
    process_update example_loads example_file_path 7 7 (TextMessage "2") asked_reference.1 =
      ({| conversations := <[(7%Z, 7%Z) := ITERATING_IMAGE]> (conversations asked_reference.1);
          sys := s' |},
       o ++ [report r]).
Proof.
  refine (no_reference_generates_from_scratch example_loads example_file_path
            asked_reference.1 7 7 one_chat_asked_reference _).
  vm_compute. reflexivity.
Defined.

Lemma reference_photo_is_used_witness :
  let stored := JObj [("file_id", JStr "large"); ("file_path", example_file_path "large")] in
  let upd := update_of 7 (PhotoMessage ["small"; "large"]) in
  exists d v r s' o,
    user_data (sys awaiting.1) !! 7%Z = Some d /\
    d !! "final_prompt" = Some v /\
    generate_image_with_reference example_loads v (example_file_path "large")
      (update_message upd)
      (set_user_data (fun ud => <[7%Z := <["reference_image" := stored]> d]> ud)
         (sys awaiting.1)) = (Returns r, s', o) /\
    process_update example_loads example_file_path 7 7 (PhotoMessage ["small"; "large"])
      awaiting.1 =
      ({| conversations := <[(7%Z, 7%Z) := ITERATING_IMAGE]> (conversations awaiting.1);
          sys := s' |},
       o ++ [report r]) /\
    user_data s' !! 7%Z = Some (<["reference_image" := stored]> d).
Proof.
  refine (reference_photo_is_used example_loads example_file_path awaiting.1 7 7
            ["small"; "large"] "large" one_chat_awaiting _ eq_refl).
  vm_compute. reflexivity.
Defined.

Lemma another_enhancement_raises_witness :
  exists e a',
    (handle_prompt_choice (update_of 7 (TextMessage "2")) (sys choosing)).1.1 = Raises e /\
    process_update example_loads example_file_path 7 7 (TextMessage "2") choosing =
      (a', []) /\
    conversations a' = conversations choosing /\
    user_data (sys a') = user_data (sys choosing) /\
    remote (sys a') = remote (sys choosing) /\
    (forall d p,
       user_data (sys choosing) !! 7%Z = Some d ->
       d !! "original_prompt" = Some p ->
       e = Builtin AttributeError /\
       context_user_data (sys a') !! 7%Z =
         Some (<["original_text" := p]>
                 (default ∅ (context_user_data (sys choosing) !! 7%Z)))).
Proof.
  refine (another_enhancement_raises example_loads example_file_path choosing 7 7 _).
  vm_compute. reflexivity.
Defined.


Lemma cancel_keeps_session_witness :
  let cancelled :=
    process_update example_loads example_file_path 7 7 (Command "cancel")
      asked_reference.1 in
  let restarted :=
    process_update example_loads example_file_path 7 7 (Command "start") cancelled.1 in
  cancelled = ({| conversations := delete (7%Z, 7%Z) (conversations asked_reference.1);
                  sys := sys asked_reference.1 |},
               [reply_text [Lit cancelled_text]]) /\
  restarted = ({| conversations :=
                    <[(7%Z, 7%Z) := INITIAL_PROMPT]> (conversations asked_reference.1);
                  sys := sys asked_reference.1 |},
               [reply_text [Lit welcome_message]]).
Proof.
  refine (cancel_keeps_session example_loads example_file_path asked_reference.1 7 7
            REFERENCE_CHOICE _).
  vm_compute. reflexivity.
Defined.

Lemma initial_prompt_resets_session_witness :
  (exists st' s' out,
     handle_initial_prompt (update_of 7 (TextMessage "a frog")) (sys started) =
       (Returns st', s', out) /\
     process_update example_loads example_file_path 7 7 (TextMessage "a frog") started =
       ({| conversations := <[(7%Z, 7%Z) := st']> (conversations started); sys := s' |},
        out)) /\
  callback handle_initial_prompt 7 (EditedMessage (TextMessage "a frog")) (sys started) =
    (Raises (Builtin AttributeError), sys started, []) /\
  process_update example_loads example_file_path 7 7 (EditedMessage (TextMessage "a frog"))
    started = (started, []).
Proof.
  refine (proj2 (initial_prompt_resets_session example_loads example_file_path 7 7
                   "a frog" started _)).
  vm_compute. reflexivity.
Defined.
